(** * Image to DDS converter: the conversion worker and its window controller

    A shallow embedding of [image-converter-commented.py]: the worker thread
    ([ConversionWorker.convert_to_dds], [ConversionWorker.run]) and the parts
    of the window controller ([ImageConverterApp]) that decide what the user
    sees.

    - Python strings are byte strings; [str.lower] acts on ASCII letters.
    - Python integers are [Z]; Python floats are IEEE 754 binary64 numbers,
      computed with the Standard Library's executable specification of
      floating-point arithmetic ([SpecFloat]).
    - [os.path] is [posixpath].
    - The file system is a finite map from the paths that exist to their
      contents.  Removing or renaming a path that exists may still raise (a
      directory, a file of another user in a sticky directory): whether it
      does is a parameter of the model.
    - The image library, the shell that runs [texconv] and the directory
      walk are parameters of the model: they may fail, and they may change
      the file system in any way.
    - Exceptions are an error monad over the state of the world; the text
      of an exception is what [str(e)] gives.
    - The signals of the worker thread reach the window in the order in
      which they were emitted. *)

From Stdlib Require Import ZArith Lia Ascii String List Bool.
From Stdlib Require Import Floats.SpecFloat.
From stdpp Require Import base option list strings gmap pretty.

Local Open Scope Z_scope.

(** ** Python strings *)

Module PyStr.

(** The double quote character, which the command line of the worker
    puts around both paths. *)
Definition dquote : string := String (ascii_of_nat 34) EmptyString.

Fixpoint length (s : string) : Z :=
  match s with
  | EmptyString => 0
  | String _ s' => 1 + length s'
  end.

Fixpoint take (n : nat) (s : string) : string :=
  match n, s with
  | S n', String a s' => String a (take n' s')
  | _, _ => EmptyString
  end.

Fixpoint drop (n : nat) (s : string) : string :=
  match n, s with
  | S n', String _ s' => drop n' s'
  | _, _ => s
  end.

(** [s[i:]], [s[:j]] and [s[i:j]] for indices that are not negative. *)
Definition slice_from (s : string) (i : Z) : string := drop (Z.to_nat i) s.
Definition slice_to (s : string) (j : Z) : string := take (Z.to_nat j) s.
Definition slice (s : string) (i j : Z) : string :=
  take (Z.to_nat (j - i)) (drop (Z.to_nat i) s).

(** [s.rfind(c)] for a one-character [c]: the highest index, or [-1]. *)
Fixpoint rfind_from (c : ascii) (s : string) (i acc : Z) : Z :=
  match s with
  | EmptyString => acc
  | String a s' => rfind_from c s' (i + 1) (if Ascii.eqb a c then i else acc)
  end.
Definition rfind (s : string) (c : ascii) : Z := rfind_from c s 0 (-1).

Fixpoint startswith (s p : string) {struct p} : bool :=
  match p, s with
  | EmptyString, _ => true
  | String b p', String a s' => Ascii.eqb a b && startswith s' p'
  | String _ _, EmptyString => false
  end.

Definition endswith (s p : string) : bool :=
  let n := Z.to_nat (length s - length p) in
  (length p <=? length s) && String.eqb (drop n s) p.

(** [s.endswith((p1, ..., pn))]. *)
Definition endswith_any (s : string) (ps : list string) : bool :=
  existsb (endswith s) ps.

(** [sub in s]. *)
Fixpoint contains (s sub : string) : bool :=
  startswith s sub ||
  match s with
  | EmptyString => false
  | String _ s' => contains s' sub
  end.

Definition lower_char (a : ascii) : ascii :=
  let n := nat_of_ascii a in
  if (65 <=? n)%nat && (n <=? 90)%nat then ascii_of_nat (n + 32) else a.

(** [s.lower()] on ASCII letters; other bytes are left as they are. *)
Fixpoint lower (s : string) : string :=
  match s with
  | EmptyString => EmptyString
  | String a s' => String (lower_char a) (lower s')
  end.

Fixpoint all_chars (f : ascii -> bool) (s : string) : bool :=
  match s with
  | EmptyString => true
  | String a s' => f a && all_chars f s'
  end.

Definition is_empty (s : string) : bool :=
  match s with EmptyString => true | _ => false end.

End PyStr.

(** ** [os.path] on POSIX ([posixpath]) *)

Module PosixPath.

Definition sep : ascii := "/"%char.
Definition extsep : ascii := "."%char.
Definition sep_str : string := String sep EmptyString.

(** [os.path.join(a, b)] with one component [b]. *)
Definition join (a b : string) : string :=
  if PyStr.startswith b sep_str then b
  else if PyStr.is_empty a || PyStr.endswith a sep_str then a +:+ b
  else a +:+ sep_str +:+ b.

(** [os.path.basename(p)]: [i = p.rfind('/') + 1; return p[i:]]. *)
Definition basename (p : string) : string :=
  let i := PyStr.rfind p sep + 1 in
  PyStr.slice_from p i.

(** [os.path.splitext(p)] ([genericpath._splitext]): the extension starts
    at the last dot of the last component, unless that component has only
    dots before it. *)
Definition splitext (p : string) : string * string :=
  let sepIndex := PyStr.rfind p sep in
  let dotIndex := PyStr.rfind p extsep in
  if sepIndex <? dotIndex then
    let filenameIndex := sepIndex + 1 in
    if PyStr.all_chars (Ascii.eqb extsep) (PyStr.slice p filenameIndex dotIndex)
    then (p, EmptyString)
    else (PyStr.slice_to p dotIndex, PyStr.slice_from p dotIndex)
  else (p, EmptyString).

End PosixPath.

(** ** Python floats: binary64 *)

Module PyFloat.

Definition prec : Z := 53.
Definition emax : Z := 1024.

(** [float(n)] for an integer: the nearest binary64 number. *)
Definition of_int (n : Z) : spec_float := binary_normalize prec emax n 0 false.

Definition mul (x y : spec_float) : spec_float := SFmul prec emax x y.
Definition div (x y : spec_float) : spec_float := SFdiv prec emax x y.

(** [int(x)]: truncation towards zero; [None] where Python raises
    (infinities and NaN). *)
Definition to_int (x : spec_float) : option Z :=
  match x with
  | S754_zero _ => Some 0
  | S754_finite s m e =>
      let a := match e with
               | Zneg p => Z.shiftr (Zpos m) (Zpos p)
               | _ => Z.shiftl (Zpos m) e
               end in
      Some (if s then - a else a)
  | _ => None
  end.

(** [round(x)]: the nearest integer, ties to even; [None] where Python
    raises. *)
Definition round (x : spec_float) : option Z :=
  match x with
  | S754_zero _ => Some 0
  | S754_finite s m e =>
      let a := match e with
               | Zneg p =>
                   let d := 2 ^ Zpos p in
                   let q := Zpos m / d in
                   match 2 * (Zpos m mod d) ?= d with
                   | Lt => q
                   | Gt => q + 1
                   | Eq => if Z.even q then q else q + 1
                   end
               | _ => Z.shiftl (Zpos m) e
               end in
      Some (if s then - a else a)
  | _ => None
  end.

End PyFloat.

(** ** Exceptions and state *)

(** The outcome of a Python statement: a value, or a raised exception with
    the text that [str(e)] gives. *)
Inductive result (A : Type) : Type :=
| Ok (a : A)
| Raise (msg : string).
Arguments Ok {A} a.
Arguments Raise {A} msg.

(** A computation over a state [S] that may raise. *)
Definition io (S A : Type) : Type := S -> result A * S.

Definition io_ret {S A} (a : A) : io S A := fun s => (Ok a, s).

Definition io_bind {S A B} (f : A -> io S B) (m : io S A) : io S B :=
  fun s => match m s with
           | (Ok a, s') => f a s'
           | (Raise e, s') => (Raise e, s')
           end.

Definition raise {S A} (msg : string) : io S A := fun s => (Raise msg, s).

(** [try: m except Exception as e: h (str e)]. *)
Definition try_except {S A} (m : io S A) (h : string -> io S A) : io S A :=
  fun s => match m s with
           | (Ok a, s') => (Ok a, s')
           | (Raise e, s') => h e s'
           end.

Definition when {S} (b : bool) (m : io S unit) : io S unit :=
  if b then m else io_ret tt.

#[export] Instance io_mret {S} : MRet (io S) := @io_ret S.
#[export] Instance io_mbind {S} : MBind (io S) := @io_bind S.

(** ** The world outside the program *)

(** The calls the worker makes on the operating system. *)
Inductive syscall : Type :=
| SysImageSave (path : string)
| SysPopen (cmd : string)
| SysRemove (path : string)
| SysRename (src dst : string).

(** Files are byte strings: the file system maps the paths that exist to
    their contents; the calls made so far are kept in order, a removal or a
    renaming that raises being left out. *)
Record world : Type := World {
  fs : gmap string string;
  calls : list syscall
}.

Definition set_fs (f : gmap string string -> gmap string string) (w : world) : world :=
  World (f (fs w)) (calls w).
Definition log_call (c : syscall) (w : world) : world :=
  World (fs w) (calls w ++ [c]).

(** What the shell reports for a command: launching may raise; otherwise the
    process exits with a return code and the bytes it wrote on stderr. *)
Record completed : Type := Completed {
  returncode : Z;
  stderr : string
}.

(** The external collaborators: the image library, the shell that runs
    [texconv], the decoding of the bytes of stderr, the direct launch of
    [texconv -help] at start-up, the directory walk, and what [os.remove]
    and [os.rename] raise, if anything, on a path that exists.  They are
    given; nothing is assumed about them beyond their types. *)
Record environment : Type := Environment {
  image : Type;
  image_open : string -> gmap string string -> result image;
  image_save : image -> string -> gmap string string ->
               result unit * gmap string string;
  shell : string -> gmap string string -> result completed * gmap string string;
  bytes_decode : string -> result string;
  texconv_help : result completed;
  os_walk : string -> gmap string string -> list (string * list string * list string);
  remove_error : string -> gmap string string -> option string;
  rename_error : string -> string -> gmap string string -> option string
}.

Section OS.
Context (env : environment).

(** [Image.open(path)]. *)
Definition Image_open (path : string) : io world (image env) :=
  fun w => (image_open env path (fs w), w).

(** [img.save(path, "PNG")]. *)
Definition Image_save (img : image env) (path : string) : io world unit :=
  fun w => let '(r, f) := image_save env img path (fs w) in
           (r, log_call (SysImageSave path) (World f (calls w))).

(** [subprocess.Popen(cmd, shell=True, ...)] followed by
    [process.communicate()]. *)
Definition Popen_communicate (cmd : string) : io world completed :=
  fun w => let '(r, f) := shell env cmd (fs w) in
           (r, log_call (SysPopen cmd) (World f (calls w))).

Definition os_path_exists (path : string) : io world bool :=
  fun w => (Ok (bool_decide (is_Some (fs w !! path))), w).

(** [os.remove(path)]: raises when the path does not exist, and when the
    environment says so; a call that raises changes nothing. *)
Definition os_remove (path : string) : io world unit :=
  fun w => match fs w !! path with
           | Some _ =>
               match remove_error env path (fs w) with
               | None => (Ok tt, log_call (SysRemove path) (set_fs (delete path) w))
               | Some e => (Raise e, w)
               end
           | None => (Raise ("[Errno 2] No such file or directory: '" +:+ path +:+ "'"), w)
           end.

(** [os.rename(src, dst)], likewise. *)
Definition os_rename (src dst : string) : io world unit :=
  fun w => match fs w !! src with
           | Some c =>
               match rename_error env src dst (fs w) with
               | None => (Ok tt, log_call (SysRename src dst)
                                   (set_fs (fun f => <[dst := c]> (delete src f)) w))
               | Some e => (Raise e, w)
               end
           | None => (Raise ("[Errno 2] No such file or directory: '" +:+ src
                             +:+ "' -> '" +:+ dst +:+ "'"), w)
           end.
End OS.

(** ** The conversion worker *)

Inductive signal : Type :=
| Progress (value : Z)
| Error (message : string)
| Finished.

(** [ConversionWorker.__init__]. *)
Record ConversionWorker : Type := Worker {
  files : list string;
  output_dir : string;
  dds_format : string
}.

(** The state of a running worker: the world and the signals emitted so far. *)
Record worker_state : Type := WorkerState {
  ws_world : world;
  ws_emitted : list signal
}.

Definition in_world {A} (m : io world A) : io worker_state A :=
  fun s => let '(r, w) := m (ws_world s) in (r, WorkerState w (ws_emitted s)).

Definition emit (sg : signal) : io worker_state unit :=
  fun s => (Ok tt, WorkerState (ws_world s) (ws_emitted s ++ [sg])).

Section Worker.
Context (env : environment) (self : ConversionWorker).

(** Lines 56 to 62. *)
Definition compression_flag : string :=
  let compression := "-f DXT5" in
  if String.eqb (dds_format self) "DXT1" then "-f DXT1"
  else if String.eqb (dds_format self) "DXT3" then "-f DXT3"
  else if String.eqb (dds_format self) "DXT5" then "-f DXT5"
  else compression.

Definition temp_png : string := PosixPath.join (output_dir self) "temp.png".
Definition temp_dds : string := PosixPath.join (output_dir self) "temp.dds".

(** Line 65. *)
Definition texconv_cmd : string :=
  "texconv -y " +:+ compression_flag +:+ " -o " +:+ PyStr.dquote +:+ output_dir self
    +:+ PyStr.dquote +:+ " " +:+ PyStr.dquote +:+ temp_png +:+ PyStr.dquote.

Definition final_path_of (input_path : string) : string :=
  let base_name := fst (PosixPath.splitext (PosixPath.basename input_path)) in
  PosixPath.join (output_dir self) (base_name +:+ ".dds").

(** The body of the [try] of [convert_to_dds], lines 50 to 85. *)
Definition convert_body (input_path : string) : io world unit :=
  img ← Image_open env input_path;
  Image_save env img temp_png;;
  process ← Popen_communicate env texconv_cmd;
  (if negb (returncode process =? 0)
   then text ← (fun w => (bytes_decode env (stderr process), w));
        raise ("Conversion failed: " +:+ text)
   else mret tt);;
  (b ← os_path_exists temp_png;
   when b (os_remove env temp_png));;
  let final_path := final_path_of input_path in
  b ← os_path_exists temp_dds;
  when b
    ((b' ← os_path_exists final_path;
      when b' (os_remove env final_path));;
     os_rename env temp_dds final_path).

(** [convert_to_dds(self, input_path, output_path)]; [output_path] is not
    used by the source either. *)
Definition convert_to_dds (input_path output_path : string) : io world unit :=
  try_except (convert_body input_path)
    (fun e => raise ("Error converting " +:+ input_path +:+ ": " +:+ e)).

(** [int((i + 1) / total_files * 100)]: true division of two integers,
    product with [float(100)], truncation. *)
Definition true_div (a b : Z) : result spec_float :=
  if b =? 0 then Raise "division by zero"
  else Ok (PyFloat.div (PyFloat.of_int a) (PyFloat.of_int b)).

(** What [int(x)] and [round(x)] raise on a float that is no number. *)
Definition not_an_integer (x : spec_float) : string :=
  match x with
  | S754_nan => "cannot convert float NaN to integer"
  | _ => "cannot convert float infinity to integer"
  end.

Definition float_to_int (x : spec_float) : result Z :=
  match PyFloat.to_int x with
  | Some n => Ok n
  | None => Raise (not_an_integer x)
  end.

Definition progress_value (i total_files : Z) : result Z :=
  match true_div (i + 1) total_files with
  | Ok q => float_to_int (PyFloat.mul q (PyFloat.of_int 100))
  | Raise e => Raise e
  end.

(** The value that the specification states for the progress after
    file [i]: [round((i + 1) / N * 100)]. *)
Definition claimed_progress (i total_files : Z) : result Z :=
  match true_div (i + 1) total_files with
  | Ok q => match PyFloat.round (PyFloat.mul q (PyFloat.of_int 100)) with
            | Some n => Ok n
            | None => Raise (not_an_integer (PyFloat.mul q (PyFloat.of_int 100)))
            end
  | Raise e => Raise e
  end.

(** One turn of the loop of [run], lines 97 to 111. *)
Definition run_file (total_files i : Z) (file_path : string) : io worker_state unit :=
  try_except
    (let filename := PosixPath.basename file_path in
     let name_without_ext := fst (PosixPath.splitext filename) in
     let output_path := PosixPath.join (output_dir self) (name_without_ext +:+ ".dds") in
     in_world (convert_to_dds file_path output_path);;
     progress ← (fun s => (progress_value i total_files, s));
     emit (Progress progress))
    (fun e => emit (Error e)).

(** [for i, file_path in enumerate(...)], from index [i] on. *)
Fixpoint run_loop (total_files i : Z) (fl : list string) : io worker_state unit :=
  match fl with
  | [] => mret tt
  | file_path :: rest =>
      run_file total_files i file_path;;
      run_loop total_files (i + 1) rest
  end.

(** [ConversionWorker.run]. *)
Definition run : io worker_state unit :=
  let total_files := Z.of_nat (List.length (files self)) in
  run_loop total_files 0 (files self);;
  emit Finished.

(** A worker thread starts with nothing emitted. *)
Definition start (w : world) : list signal * world :=
  let s := snd (run (WorkerState w [])) in
  (ws_emitted s, ws_world s).
End Worker.

(** ** The window controller *)

Inductive box_kind : Type := Critical | Warning | Information.

Record message_box : Type := MessageBox {
  box_kind_of : box_kind;
  box_title : string;
  box_text : string
}.

(** The widgets of [ImageConverterApp] that the handlers read or write, the
    message boxes opened so far (oldest first) and the workers started so
    far. *)
Record window : Type := Window {
  format_combo : string;
  file_btn_enabled : bool;
  folder_btn_enabled : bool;
  progress_bar_visible : bool;
  progress_bar_value : Z;
  status_label : string;
  worker : option ConversionWorker;
  started : list ConversionWorker;
  boxes : list message_box;
  shown : bool
}.

Definition open_box (b : message_box) (g : window) : window :=
  Window (format_combo g) (file_btn_enabled g) (folder_btn_enabled g)
    (progress_bar_visible g) (progress_bar_value g) (status_label g)
    (worker g) (started g) (boxes g ++ [b]) (shown g).

Definition set_buttons (b : bool) (g : window) : window :=
  Window (format_combo g) b b
    (progress_bar_visible g) (progress_bar_value g) (status_label g)
    (worker g) (started g) (boxes g) (shown g).

Definition set_progress_visible (b : bool) (g : window) : window :=
  Window (format_combo g) (file_btn_enabled g) (folder_btn_enabled g)
    b (progress_bar_value g) (status_label g)
    (worker g) (started g) (boxes g) (shown g).

Definition set_progress_value (v : Z) (g : window) : window :=
  Window (format_combo g) (file_btn_enabled g) (folder_btn_enabled g)
    (progress_bar_visible g) v (status_label g)
    (worker g) (started g) (boxes g) (shown g).

Definition set_status (t : string) (g : window) : window :=
  Window (format_combo g) (file_btn_enabled g) (folder_btn_enabled g)
    (progress_bar_visible g) (progress_bar_value g) t
    (worker g) (started g) (boxes g) (shown g).

Definition set_worker (k : ConversionWorker) (g : window) : window :=
  Window (format_combo g) (file_btn_enabled g) (folder_btn_enabled g)
    (progress_bar_visible g) (progress_bar_value g) (status_label g)
    (Some k) (started g) (boxes g) (shown g).

Definition worker_start (k : ConversionWorker) (g : window) : window :=
  Window (format_combo g) (file_btn_enabled g) (folder_btn_enabled g)
    (progress_bar_visible g) (progress_bar_value g) (status_label g)
    (worker g) (started g ++ [k]) (boxes g) (shown g).

Definition show (g : window) : window :=
  Window (format_combo g) (file_btn_enabled g) (folder_btn_enabled g)
    (progress_bar_visible g) (progress_bar_value g) (status_label g)
    (worker g) (started g) (boxes g) true.

(** [setup_ui]: the first item of the combo box is current, both buttons
    are enabled, the progress bar is hidden and the status is empty. *)
Definition setup_ui : window :=
  Window "DXT1" true true false 0 EmptyString None [] [] false.

Section App.
Context (env : environment).

(** [check_texconv]: any exception of [subprocess.run] means absent; the
    return code is not looked at. *)
Definition check_texconv : bool :=
  match texconv_help env with
  | Ok _ => true
  | Raise _ => false
  end.

(** [ImageConverterApp.__init__]: the window, and the status of
    [sys.exit] when it is called. *)
Definition init : window * option Z :=
  let g := setup_ui in
  if negb check_texconv then
    (open_box (MessageBox Critical "Error"
       "texconv not found. Please download it and place in the application directory.") g,
     Some 1)
  else (g, None).

Inductive outcome : Type :=
| Exit (status : Z) (g : window)
| EventLoop (g : window).

(** The main program, up to the start of the event loop. *)
Definition main : outcome :=
  match init with
  | (g, Some status) => Exit status g
  | (g, None) => EventLoop (show g)
  end.

Definition update_progress (value : Z) (g : window) : window :=
  set_status ("Converting... " +:+ pretty value +:+ "%")
    (set_progress_value value g).

Definition conversion_finished (g : window) : window :=
  open_box (MessageBox Information "Complete" "File conversion completed successfully.")
    (set_buttons true
       (set_status "Conversion completed successfully!"
          (set_progress_visible false g))).

Definition show_error (error_message : string) (g : window) : window :=
  open_box (MessageBox Critical "Error" error_message) g.

(** The slot connected to each signal, lines 271 to 273. *)
Definition deliver (g : window) (sg : signal) : window :=
  match sg with
  | Progress v => update_progress v g
  | Finished => conversion_finished g
  | Error m => show_error m g
  end.

(** [convert_files(files)]; [chosen] is the answer of the output
    directory dialog, empty when the user cancels.  The signals of the
    worker thread are queued to the window and delivered in the order of
    emission, once [convert_files] has returned. *)
Definition convert_files (fl : list string) (chosen : string)
    (st : window * world) : window * world :=
  let '(g, w) := st in
  let output_dir := chosen in
  if PyStr.is_empty output_dir then (g, w)
  else
    let g := set_progress_value 0 (set_progress_visible true g) in
    let k := Worker fl output_dir (format_combo g) in
    let g := set_worker k g in
    let g := worker_start k g in
    let '(sigs, w') := start env k w in
    let g := set_buttons false g in
    (foldl deliver g sigs, w').

(** [select_file]; [file_path] is the answer of the file dialog. *)
Definition select_file (file_path chosen : string)
    (st : window * world) : window * world :=
  if negb (PyStr.is_empty file_path) then convert_files [file_path] chosen st
  else st.

Definition image_extensions : list string := [".png"; ".jpg"; ".jpeg"; ".svg"].

(** Lines 241 to 245. *)
Definition collect_images (tree : list (string * list string * list string)) : list string :=
  flat_map (fun '(root, _, names) =>
              flat_map (fun file =>
                          if PyStr.endswith_any (PyStr.lower file) image_extensions
                          then [PosixPath.join root file] else []) names) tree.

(** [select_folder]; [folder_path] is the answer of the folder dialog. *)
Definition select_folder (folder_path chosen : string)
    (st : window * world) : window * world :=
  if negb (PyStr.is_empty folder_path) then
    let image_files := collect_images (os_walk env folder_path (fs (snd st))) in
    match image_files with
    | _ :: _ => convert_files image_files chosen st
    | [] => (open_box (MessageBox Warning "Error"
               "No image files found in the selected folder.") (fst st), snd st)
    end
  else st.
End App.

(** ** Jobs: outcomes, signals and the steps of one conversion *)

Section JobModel.
Context (env : environment) (self : ConversionWorker).

(** The path that [run] computes and hands to [convert_to_dds]. *)
Definition output_path_of (file_path : string) : string :=
  PosixPath.join (output_dir self)
    (fst (PosixPath.splitext (PosixPath.basename file_path)) +:+ ".dds").

(** The signal that one turn of the loop emits, from the outcome of the
    conversion. *)
Definition signal_of (total_files i : Z) (r : result unit) : signal :=
  match r with
  | Ok _ => match progress_value i total_files with
            | Ok p => Progress p
            | Raise e => Error e
            end
  | Raise e => Error e
  end.

(** The outcomes of the conversions of a list of files, in order, each in
    the world that the ones before it left, and the world after the last. *)
Fixpoint outcomes (fl : list string) (w : world) : list (result unit) :=
  match fl with
  | [] => []
  | f :: rest =>
      let '(r, w') := convert_to_dds env self f (output_path_of f) w in
      r :: outcomes rest w'
  end.

Fixpoint world_after (fl : list string) (w : world) : world :=
  match fl with
  | [] => w
  | f :: rest =>
      world_after rest (snd (convert_to_dds env self f (output_path_of f) w))
  end.

(** The signals of the turns of the loop, from index [i] on. *)
Fixpoint signals_from (total i : Z) (rs : list (result unit)) : list signal :=
  match rs with
  | [] => []
  | r :: rest => signal_of total i r :: signals_from total (i + 1) rest
  end.

(** Lines 75 to 85: what is left to do once the tool has exited with
    code zero. *)
Definition finish (input_path : string) : io world unit :=
  (b ← os_path_exists (temp_png self);
   when b (os_remove env (temp_png self)));;
  let final_path := final_path_of self input_path in
  b ← os_path_exists (temp_dds self);
  when b
    ((b' ← os_path_exists final_path;
      when b' (os_remove env final_path));;
     os_rename env (temp_dds self) final_path).

(** The world once the tool has been run. *)
Definition after_tool (w : world) (f2 : gmap string string) : world :=
  World f2 (calls w ++ [SysImageSave (temp_png self); SysPopen (texconv_cmd self)]).

(** The first half of [finish]: the intermediate bitmap is removed when
    it is there.  What the removal raises, if anything, and the world when
    it raises nothing. *)
Definition clean_error (w : world) : option string :=
  match fs w !! (temp_png self) with
  | Some _ => remove_error env (temp_png self) (fs w)
  | None => None
  end.

Definition cleaned (w : world) : world :=
  match fs w !! (temp_png self) with
  | Some _ => log_call (SysRemove (temp_png self)) (set_fs (delete (temp_png self)) w)
  | None => w
  end.

(** The renaming of line 85, in a world where [temp.dds] holds [c]. *)
Definition renamed (final_path c : string) (w : world) : result unit * world :=
  match rename_error env (temp_dds self) final_path (fs w) with
  | None => (Ok tt, World (<[final_path := c]> (delete (temp_dds self) (fs w)))
                      (calls w ++ [SysRename (temp_dds self) final_path]))
  | Some e => (Raise e, w)
  end.

End JobModel.

(** ** Strings, system calls and message boxes *)

Fixpoint str_last (s : string) : option ascii :=
  match s with
  | EmptyString => None
  | String a EmptyString => Some a
  | String _ s' => str_last s'
  end.

(** The commands handed to the shell, in order. *)
Definition popen_cmds (cs : list syscall) : list string :=
  flat_map (fun c => match c with SysPopen cmd => [cmd] | _ => [] end) cs.

(** The messages of the error signals, in order. *)
Definition error_messages (sigs : list signal) : list string :=
  flat_map (fun sg => match sg with Error m => [m] | _ => [] end) sigs.

Definition is_critical (b : message_box) : bool :=
  match box_kind_of b with Critical => true | _ => false end.

Definition completion_box : message_box :=
  MessageBox Information "Complete" "File conversion completed successfully.".

(** A file name, as [os.walk] gives them: no separator in it. *)
Definition no_sep (s : string) : bool :=
  PyStr.all_chars (fun a => negb (Ascii.eqb a PosixPath.sep)) s.

(** The values of the progress signals, in order. *)
Definition progress_reports (sigs : list signal) : list Z :=
  flat_map (fun sg => match sg with Progress v => [v] | _ => [] end) sigs.

(** The calls that the conversion of one file can make, in the order of
    the source. *)
Definition conversion_calls (self : ConversionWorker) (input_path : string) : list syscall :=
  [SysImageSave (temp_png self);
   SysPopen (texconv_cmd self);
   SysRemove (temp_png self);
   SysRemove (final_path_of self input_path);
   SysRename (temp_dds self) (final_path_of self input_path)].



(** The window when [convert_files] returns, before any signal of the
    worker is delivered: lines 268 to 278. *)
Definition busy_window (fl : list string) (chosen : string) (g : window) : window :=
  let k := Worker fl chosen (format_combo g) in
  set_buttons false
    (worker_start k (set_worker k (set_progress_value 0 (set_progress_visible true g)))).

(** ** Simulated environments, for concrete runs *)

(** Every existing file decodes; saving writes the image at the path; the
    tool exits with [rc], and when [rc] is zero it writes [out/temp.dds]
    from [out/temp.png]; [texconv -help] can be launched. *)
Definition sim_env (rc : Z) : environment :=
  {| image := string;
     image_open := fun p f =>
       match f !! p with
       | Some c => Ok c
       | None => Raise ("[Errno 2] No such file or directory: '" +:+ p +:+ "'")
       end;
     image_save := fun img p f => (Ok tt, <[p := "PNG of " +:+ img]> f);
     shell := fun cmd f =>
       (Ok (Completed rc "texconv: failed"),
        if rc =? 0 then
          match f !! "out/temp.png" with
          | Some c => <["out/temp.dds" := "DDS of " +:+ c]> f
          | None => f
          end
        else f);
     bytes_decode := fun b => Ok b;
     texconv_help := Ok (Completed 0 EmptyString);
     os_walk := fun _ _ => [];
     remove_error := fun _ _ => None;
     rename_error := fun _ _ _ => None |}.

(** The same machine without [texconv]: every launch fails. *)
Definition no_texconv_env : environment :=
  {| image := string;
     image_open := fun p f =>
       match f !! p with
       | Some c => Ok c
       | None => Raise ("[Errno 2] No such file or directory: '" +:+ p +:+ "'")
       end;
     image_save := fun img p f => (Ok tt, <[p := "PNG of " +:+ img]> f);
     shell := fun cmd f => (Ok (Completed 127 "texconv: not found"), f);
     bytes_decode := fun b => Ok b;
     texconv_help := Raise "[Errno 2] No such file or directory: 'texconv'";
     os_walk := fun _ _ => [];
     remove_error := fun _ _ => None;
     rename_error := fun _ _ _ => None |}.

(** A folder with a text file and a sub-folder with a binary. *)
Definition no_images_env : environment :=
  {| image := string;
     image_open := fun p f => Raise "cannot identify image file";
     image_save := fun img p f => (Ok tt, f);
     shell := fun cmd f => (Ok (Completed 0 EmptyString), f);
     bytes_decode := fun b => Ok b;
     texconv_help := Ok (Completed 0 EmptyString);
     os_walk := fun _ _ => [("docs", ["bin"], ["notes.txt"; "png"]);
                            ("docs/bin", [], ["tool.exe"; "photo.PNG.bak"])];
     remove_error := fun _ _ => None;
     rename_error := fun _ _ _ => None |}.

Definition photo_world : world :=
  World {[ "photo.jpg" := "JPEG" ]} [].

Definition two_photos_world : world :=
  World {[ "a/photo.jpg" := "JPEG A"; "b/photo.png" := "PNG B" ]} [].

Definition three_photos_world : world :=
  World {[ "a.jpg" := "JPEG A"; "b.jpg" := "JPEG B"; "c.jpg" := "JPEG C" ]} [].

(** A machine whose directory walk finds pictures and other files. *)
Definition album_env : environment :=
  {| image := string;
     image_open := fun p f =>
       match f !! p with
       | Some c => Ok c
       | None => Raise ("[Errno 2] No such file or directory: '" +:+ p +:+ "'")
       end;
     image_save := fun img p f => (Ok tt, <[p := "PNG of " +:+ img]> f);
     shell := fun cmd f =>
       (Ok (Completed 0 EmptyString),
        match f !! "out/temp.png" with
        | Some c => <["out/temp.dds" := "DDS of " +:+ c]> f
        | None => f
        end);
     bytes_decode := fun b => Ok b;
     texconv_help := Ok (Completed 1 "usage");
     os_walk := fun _ _ => [("album", ["old"], ["a.PNG"; "notes.txt"]);
                            ("album/old", [], ["b.jpeg"; "c.png.bak"])];
     remove_error := fun _ _ => None;
     rename_error := fun _ _ _ => None |}.

(** A tool that exits with zero every time but writes [out/temp.dds] only
    as long as there is no [out/photo.dds]. *)
Definition shy_tool_env : environment :=
  {| image := string;
     image_open := fun p f =>
       match f !! p with
       | Some c => Ok c
       | None => Raise ("[Errno 2] No such file or directory: '" +:+ p +:+ "'")
       end;
     image_save := fun img p f => (Ok tt, <[p := "PNG of " +:+ img]> f);
     shell := fun cmd f =>
       (Ok (Completed 0 EmptyString),
        match f !! "out/photo.dds", f !! "out/temp.png" with
        | None, Some c => <["out/temp.dds" := "DDS of " +:+ c]> f
        | _, _ => f
        end);
     bytes_decode := fun b => Ok b;
     texconv_help := Ok (Completed 0 EmptyString);
     os_walk := fun _ _ => [];
     remove_error := fun _ _ => None;
     rename_error := fun _ _ _ => None |}.

(** The machine of [sim_env 0] where [out/photo.dds] cannot be removed: a
    directory of that name, or a file of another user in a sticky
    directory. *)
Definition locked_output_env : environment :=
  {| image := string;
     image_open := fun p f =>
       match f !! p with
       | Some c => Ok c
       | None => Raise ("[Errno 2] No such file or directory: '" +:+ p +:+ "'")
       end;
     image_save := fun img p f => (Ok tt, <[p := "PNG of " +:+ img]> f);
     shell := fun cmd f =>
       (Ok (Completed 0 EmptyString),
        match f !! "out/temp.png" with
        | Some c => <["out/temp.dds" := "DDS of " +:+ c]> f
        | None => f
        end);
     bytes_decode := fun b => Ok b;
     texconv_help := Ok (Completed 0 EmptyString);
     os_walk := fun _ _ => [];
     remove_error := fun p _ =>
       if String.eqb p "out/photo.dds"
       then Some "[Errno 21] Is a directory: 'out/photo.dds'" else None;
     rename_error := fun _ _ _ => None |}.

Definition locked_output_world : world :=
  World {[ "photo.jpg" := "JPEG"; "out/photo.dds" := "DIR" ]} [].

Definition album_world : world :=
  World {[ "album/a.PNG" := "PNG A"; "album/old/b.jpeg" := "JPEG B" ]} [].

(** ** Rounding to nearest, on integers *)

(** A positive rational [a / b] is located for rounding by its code:
    four times its integer part, plus 0 when it is an integer, 1 when its
    fractional part is below one half, 2 at one half and 3 above. *)
Definition qcode (a b : Z) : Z :=
  2 * (2 * a / b) + (if 2 * a mod b =? 0 then 0 else 1).

(** Rounding a code to the nearest integer, ties to even. *)
Definition rne (t : Z) : Z :=
  let m := t / 4 in
  let c := t mod 4 in
  if c <? 2 then m
  else if c =? 2 then (if Z.even m then m else m + 1)
  else m + 1.

(** What one more halving does to a code. *)
Definition half_code (t : Z) : Z :=
  2 * (t / 4) + (if t mod 4 =? 0 then 0 else 1).

Definition loc_code (l : location) : Z :=
  match l with
  | loc_Exact => 0
  | loc_Inexact Lt => 1
  | loc_Inexact Eq => 2
  | loc_Inexact Gt => 3
  end.

Definition rec_code (r : shr_record) : Z :=
  4 * shr_m r + 2 * Z.b2z (shr_r r) + Z.b2z (shr_s r).

(** ** Normal numbers as pairs of a mantissa and an exponent *)

Definition normal (M E : Z) : Z * Z :=
  if M <? 2 ^ 53 then (M, E) else (2 ^ 52, E + 1).

Definition fl (p : Z * Z) : spec_float :=
  S754_finite false (Z.to_pos (fst p)) (snd p).

Definition is_normal (p : Z * Z) : Prop := 2 ^ 52 <= fst p < 2 ^ 53.

(** The mantissa and the exponent of [float(k)]. *)
Definition norm_m (k : Z) : Z := k * 2 ^ (52 - Z.log2 k).

Definition norm_e (k : Z) : Z := Z.log2 k - 52.

(** The quotient, the product and the truncation of normal numbers. *)
Definition div_pair (p1 p2 : Z * Z) : Z * Z :=
  let a := fst p1 * 2 ^ 53 in
  let n := Z.log2 (a / fst p2) - 52 in
  normal (rne (qcode a (fst p2 * 2 ^ n))) (snd p1 - snd p2 - 53 + n).

Definition mul_pair (p1 p2 : Z * Z) : Z * Z :=
  let a := fst p1 * fst p2 in
  let n := Z.log2 a - 52 in
  normal (rne (qcode a (2 ^ n))) (snd p1 + snd p2 + n).

Definition int_of_pair (p : Z * Z) : Z :=
  if snd p <? 0 then fst p / 2 ^ (- snd p) else fst p * 2 ^ snd p.

(** Normal numbers compare as their exponents, then as their mantissas. *)
Definition pair_le (p p' : Z * Z) : Prop :=
  snd p < snd p' \/ (snd p = snd p' /\ fst p <= fst p').

Definition hundred : Z * Z := (norm_m 100, norm_e 100).

(** The float [(i + 1) / total_files * 100], for [k = i + 1]. *)
Definition progress_pair (k N : Z) : Z * Z :=
  mul_pair (div_pair (norm_m k, norm_e k) (norm_m N, norm_e N)) hundred.

(** The values that a job of [N] files reports when every conversion
    succeeds. *)
Definition progress_values (N : nat) : list Z :=
  (fun i : nat => int_of_pair (progress_pair (Z.of_nat i + 1) (Z.of_nat N))) <$> seq 0 N.

(** * Properties *)

(** ** Paths and progress values on concrete inputs *)

Example basename_photo : PosixPath.basename "/home/u/photo.jpg" = "photo.jpg".
Proof. reflexivity. Qed.

Example splitext_last_dot : PosixPath.splitext "photo.tar.gz" = ("photo.tar", ".gz").
Proof. reflexivity. Qed.

Example splitext_leading_dots : PosixPath.splitext "/a/..b" = ("/a/..b", EmptyString).
Proof. reflexivity. Qed.

Example splitext_dot_in_directory : PosixPath.splitext "a.b/c" = ("a.b/c", EmptyString).
Proof. reflexivity. Qed.

Example join_adds_separator : PosixPath.join "out" "temp.png" = "out/temp.png".
Proof. reflexivity. Qed.

Example join_keeps_separator : PosixPath.join "out/" "temp.png" = "out/temp.png".
Proof. reflexivity. Qed.

Example progress_of_seven :
  map (fun i => progress_value i 7) [0; 1; 2; 3; 4; 5; 6] =
    map Ok [14; 28; 42; 57; 71; 85; 100].
Proof. vm_compute. reflexivity. Qed.

(** ** The loop of the worker *)

Ltac io_unfold :=
  unfold mbind, mret, io_mbind, io_mret, io_bind, io_ret, raise, try_except,
    when, in_world, emit in *.

Section WorkerFacts.
Context (env : environment) (self : ConversionWorker).

Lemma run_file_spec total i f s :
  run_file env self total i f s =
    let '(r, w) := convert_to_dds env self f (output_path_of self f) (ws_world s) in
    (Ok tt, WorkerState w (ws_emitted s ++ [signal_of total i r])).
Proof.
  unfold run_file, output_path_of, signal_of. io_unfold.
  destruct (convert_to_dds env self f _ (ws_world s)) as [[[]|e] w]; simpl;
    [destruct (progress_value i total)|]; reflexivity.
Qed.

Lemma run_loop_spec total fl : forall i s,
  run_loop env self total i fl s =
    (Ok tt, WorkerState (world_after env self fl (ws_world s))
              (ws_emitted s ++ signals_from total i (outcomes env self fl (ws_world s)))).
Proof.
  induction fl as [|f rest IH]; intros i s; simpl.
  - rewrite app_nil_r. destruct s; reflexivity.
  - change (run_file env self total i f ;; run_loop env self total (i + 1) rest)
      with (io_bind (fun _ => run_loop env self total (i + 1) rest)
              (run_file env self total i f)).
    unfold io_bind. rewrite run_file_spec.
    destruct (convert_to_dds env self f (output_path_of self f) (ws_world s)) as [r w] eqn:E.
    simpl. rewrite IH. simpl. rewrite <- app_assoc. reflexivity.
Qed.

Lemma start_spec w :
  start env self w =
    (signals_from (Z.of_nat (List.length (files self))) 0 (outcomes env self (files self) w)
       ++ [Finished],
     world_after env self (files self) w).
Proof.
  unfold start, run. io_unfold.
  rewrite run_loop_spec. reflexivity.
Qed.

Lemma outcomes_length fl : forall w, List.length (outcomes env self fl w) = List.length fl.
Proof.
  induction fl as [|f rest IH]; intros w; simpl; [reflexivity|].
  destruct (convert_to_dds env self f (output_path_of self f) w). simpl. f_equal. apply IH.
Qed.

Lemma signals_from_length total rs : forall i,
  List.length (signals_from total i rs) = List.length rs.
Proof. induction rs as [|r rest IH]; intros i; simpl; [|rewrite IH]; reflexivity. Qed.

Lemma signals_from_lookup total rs : forall i (n : nat),
  signals_from total i rs !! n = signal_of total (i + Z.of_nat n) <$> rs !! n.
Proof.
  induction rs as [|r rest IH]; intros i n; [reflexivity|].
  destruct n as [|n]; simpl.
  - rewrite Z.add_0_r. reflexivity.
  - rewrite IH. do 2 f_equal. lia.
Qed.
End WorkerFacts.

(** ** Strings and paths *)

Lemma str_last_app a b : b <> EmptyString -> str_last (a +:+ b) = str_last b.
Proof.
  intros Hb. induction a as [|c a IH]; [reflexivity|].
  change (String c a +:+ b) with (String c (a +:+ b)).
  simpl. rewrite IH. destruct (a +:+ b) eqn:E; [|reflexivity].
  destruct a; [|discriminate]. simpl in E. contradiction.
Qed.

Lemma join_last a b : b <> EmptyString -> str_last (PosixPath.join a b) = str_last b.
Proof.
  intros Hb. unfold PosixPath.join.
  destruct (PyStr.startswith b PosixPath.sep_str); [reflexivity|].
  destruct (PyStr.is_empty a || PyStr.endswith a PosixPath.sep_str).
  - apply str_last_app, Hb.
  - rewrite str_last_app; [apply str_last_app, Hb|].
    destruct b; [contradiction|discriminate].
Qed.

Lemma startswith_app b c : PyStr.startswith (b +:+ c) b = true.
Proof.
  induction b as [|x b IH]; [reflexivity|].
  change (String x b +:+ c) with (String x (b +:+ c)). simpl.
  rewrite IH, Ascii.eqb_refl. reflexivity.
Qed.

Lemma contains_app a b c : PyStr.contains (a +:+ b +:+ c) b = true.
Proof.
  induction a as [|x a IH].
  - change (EmptyString +:+ b +:+ c) with (b +:+ c).
    destruct (b +:+ c) eqn:E; simpl; rewrite <- ?E, startswith_app; reflexivity.
  - change (String x a +:+ b +:+ c) with (String x (a +:+ b +:+ c)).
    simpl. rewrite IH. apply orb_true_r.
Qed.

Lemma is_empty_false s : PyStr.is_empty s = false <-> s <> EmptyString.
Proof. destruct s; simpl; split; congruence. Qed.

(** ** One conversion *)

Section ConvertFacts.
Context (env : environment) (self : ConversionWorker).

Lemma final_path_not_temp_png f : final_path_of self f <> (temp_png self).
Proof.
  intros H. apply (f_equal str_last) in H. unfold final_path_of, temp_png in H.
  rewrite !join_last in H.
  - rewrite str_last_app in H; discriminate.
  - discriminate.
  - destruct (fst (PosixPath.splitext (PosixPath.basename f))); discriminate.
Qed.

Lemma temp_dds_not_temp_png : (temp_dds self) <> (temp_png self).
Proof.
  intros H. apply (f_equal str_last) in H.
  unfold temp_dds, temp_png in H.
  rewrite !join_last in H; discriminate.
Qed.

Lemma convert_body_open_fails f w e :
  image_open env f (fs w) = Raise e ->
  convert_body env self f w = (Raise e, w).
Proof. intros H. unfold convert_body, Image_open. io_unfold. rewrite H. reflexivity. Qed.

Lemma convert_body_save_fails f w img e f1 :
  image_open env f (fs w) = Ok img ->
  image_save env img (temp_png self) (fs w) = (Raise e, f1) ->
  convert_body env self f w =
    (Raise e, World f1 (calls w ++ [SysImageSave (temp_png self)])).
Proof.
  intros H1 H2. unfold convert_body, Image_open, Image_save. io_unfold.
  rewrite H1. simpl. rewrite H2. reflexivity.
Qed.

Lemma convert_body_launch_fails f w img e f1 f2 :
  image_open env f (fs w) = Ok img ->
  image_save env img (temp_png self) (fs w) = (Ok tt, f1) ->
  shell env (texconv_cmd self) f1 = (Raise e, f2) ->
  convert_body env self f w = (Raise e, after_tool self w f2).
Proof.
  intros H1 H2 H3. unfold convert_body, Image_open, Image_save, Popen_communicate.
  io_unfold. rewrite H1. simpl. rewrite H2. simpl. rewrite H3.
  unfold after_tool, log_call. simpl. rewrite <- app_assoc. reflexivity.
Qed.

Lemma convert_body_exit_nonzero f w img f1 p f2 :
  image_open env f (fs w) = Ok img ->
  image_save env img (temp_png self) (fs w) = (Ok tt, f1) ->
  shell env (texconv_cmd self) f1 = (Ok p, f2) ->
  returncode p <> 0 ->
  convert_body env self f w =
    (Raise match bytes_decode env (stderr p) with
           | Ok text => "Conversion failed: " +:+ text
           | Raise e => e
           end, after_tool self w f2).
Proof.
  intros H1 H2 H3 H4. unfold convert_body, Image_open, Image_save, Popen_communicate.
  io_unfold. rewrite H1. simpl. rewrite H2. simpl. rewrite H3. simpl.
  apply Z.eqb_neq in H4. rewrite H4. simpl.
  unfold after_tool, log_call. simpl. rewrite <- app_assoc.
  destruct (bytes_decode env (stderr p)); reflexivity.
Qed.

Lemma convert_body_exit_zero f w img f1 p f2 :
  image_open env f (fs w) = Ok img ->
  image_save env img (temp_png self) (fs w) = (Ok tt, f1) ->
  shell env (texconv_cmd self) f1 = (Ok p, f2) ->
  returncode p = 0 ->
  convert_body env self f w = finish env self f (after_tool self w f2).
Proof.
  intros H1 H2 H3 H4. unfold convert_body, finish, Image_open, Image_save, Popen_communicate.
  io_unfold. rewrite H1. simpl. rewrite H2. simpl. rewrite H3. simpl.
  rewrite H4. simpl. unfold after_tool, log_call. simpl. rewrite <- app_assoc. reflexivity.
Qed.

Lemma cleaned_no_temp_png w : fs (cleaned self w) !! (temp_png self) = None.
Proof.
  unfold cleaned. destruct (fs w !! (temp_png self)) eqn:E; [|exact E].
  simpl. apply lookup_delete_eq.
Qed.

Lemma cleaned_lookup w k : k <> (temp_png self) -> fs (cleaned self w) !! k = fs w !! k.
Proof.
  intros Hk. unfold cleaned. destruct (fs w !! (temp_png self)); [|reflexivity].
  simpl. apply lookup_delete_ne. congruence.
Qed.

Lemma clean_error_none w :
  remove_error env (temp_png self) (fs w) = None -> clean_error env self w = None.
Proof. intros H. unfold clean_error. destruct (fs w !! temp_png self); auto. Qed.

(** [finish], case by case. *)
Lemma finish_spec f w :
  finish env self f w =
    match clean_error env self w with
    | Some e => (Raise e, w)
    | None =>
        let w1 := cleaned self w in
        let final := final_path_of self f in
        match fs w1 !! (temp_dds self) with
        | None => (Ok tt, w1)
        | Some c =>
            match fs w1 !! final with
            | None => renamed env self final c w1
            | Some _ =>
                match remove_error env final (fs w1) with
                | Some e => (Raise e, w1)
                | None =>
                    let w2 := World (delete final (fs w1)) (calls w1 ++ [SysRemove final]) in
                    if decide (final = (temp_dds self)) then
                      (Raise ("[Errno 2] No such file or directory: '" +:+ (temp_dds self)
                              +:+ "' -> '" +:+ final +:+ "'"), w2)
                    else renamed env self final c w2
                end
            end
        end
    end.
Proof.
  unfold finish, os_path_exists, os_remove, os_rename, cleaned, clean_error, renamed.
  io_unfold.
  destruct (fs w !! temp_png self) as [x|] eqn:E1; simpl; rewrite ?E1; simpl.
  - destruct (remove_error env (temp_png self) (fs w)) as [e|]; simpl; [reflexivity|].
    destruct (delete (temp_png self) (fs w) !! temp_dds self) as [c|] eqn:E2;
      simpl; [|reflexivity].
    destruct (delete (temp_png self) (fs w) !! final_path_of self f) as [y|] eqn:E3;
      simpl; rewrite ?E3; simpl.
    + destruct (remove_error env (final_path_of self f) _) as [e|]; simpl; [reflexivity|].
      destruct (decide (final_path_of self f = temp_dds self)) as [Heq|Hne].
      * rewrite Heq, lookup_delete_eq. reflexivity.
      * rewrite lookup_delete_ne by congruence. rewrite E2.
        destruct (rename_error env _ _ _); [reflexivity|].
        unfold log_call, set_fs. simpl. rewrite <- app_assoc. reflexivity.
    + rewrite E2. destruct (rename_error env _ _ _); reflexivity.
  - destruct (fs w !! temp_dds self) as [c|] eqn:E2; simpl; [|reflexivity].
    destruct (fs w !! final_path_of self f) as [y|] eqn:E3; simpl; rewrite ?E3; simpl.
    + destruct (remove_error env (final_path_of self f) _) as [e|]; simpl; [reflexivity|].
      destruct (decide (final_path_of self f = temp_dds self)) as [Heq|Hne].
      * rewrite Heq, lookup_delete_eq. reflexivity.
      * rewrite lookup_delete_ne by congruence. rewrite E2.
        destruct (rename_error env _ _ _); [reflexivity|].
        unfold log_call, set_fs. simpl. rewrite <- app_assoc. reflexivity.
    + rewrite E2. destruct (rename_error env _ _ _); reflexivity.
Qed.

(** When [finish] returns normally, the world is the cleaned one, with
    [temp.dds], if there, renamed onto the final path, which is not
    [temp.dds] itself. *)
Lemma finish_ok f w :
  fst (finish env self f w) = Ok tt ->
  let w1 := cleaned self w in
  let final := final_path_of self f in
  match fs w1 !! (temp_dds self) with
  | None => snd (finish env self f w) = w1
  | Some c =>
      final <> temp_dds self /\
      snd (finish env self f w) =
        World (<[final := c]> (delete (temp_dds self) (delete final (fs w1))))
          (calls w1 ++
             match fs w1 !! final with
             | Some _ => [SysRemove final; SysRename (temp_dds self) final]
             | None => [SysRename (temp_dds self) final]
             end)
  end.
Proof.
  rewrite finish_spec. cbv zeta.
  destruct (clean_error env self w); [discriminate|].
  destruct (fs (cleaned self w) !! temp_dds self) as [c|] eqn:E2; [|reflexivity].
  destruct (fs (cleaned self w) !! final_path_of self f) as [y|] eqn:E3.
  - destruct (remove_error env _ _); [discriminate|].
    destruct (decide _) as [Heq|Hne]; [discriminate|].
    unfold renamed. destruct (rename_error env _ _ _); [discriminate|].
    intros _. split; [exact Hne|]. simpl. rewrite <- app_assoc. reflexivity.
  - unfold renamed. destruct (rename_error env _ _ _); [discriminate|].
    intros _. split; [congruence|]. simpl. rewrite (delete_id _ _ E3). reflexivity.
Qed.
End ConvertFacts.

Section ConvertClaims.
Context (env : environment) (self : ConversionWorker).

Lemma convert_to_dds_spec f op w :
  convert_to_dds env self f op w =
    (match fst (convert_body env self f w) with
     | Ok a => Ok a
     | Raise e => Raise ("Error converting " +:+ f +:+ ": " +:+ e)
     end, snd (convert_body env self f w)).
Proof.
  unfold convert_to_dds. io_unfold.
  destruct (convert_body env self f w) as [[a|e] w']; reflexivity.
Qed.

(** A failed conversion raises a message that names the file. *)
Lemma convert_to_dds_raise f op w e :
  fst (convert_to_dds env self f op w) = Raise e ->
  exists inner, e = "Error converting " +:+ f +:+ ": " +:+ inner.
Proof.
  rewrite convert_to_dds_spec. simpl.
  destruct (fst (convert_body env self f w)) as [a|inner]; [discriminate|].
  intros [= <-]. eauto.
Qed.

Lemma popen_cmds_app a b : popen_cmds (a ++ b) = popen_cmds a ++ popen_cmds b.
Proof. unfold popen_cmds. apply flat_map_app. Qed.

Lemma cleaned_popen w : popen_cmds (calls (cleaned self w)) = popen_cmds (calls w).
Proof.
  unfold cleaned. destruct (fs w !! temp_png self); [|reflexivity].
  simpl. rewrite popen_cmds_app. apply app_nil_r.
Qed.

Lemma finish_popen f w :
  popen_cmds (calls (snd (finish env self f w))) = popen_cmds (calls w).
Proof.
  assert (Hr : forall final c w0,
            popen_cmds (calls (snd (renamed env self final c w0))) = popen_cmds (calls w0)).
  { intros final c w0. unfold renamed. destruct (rename_error env _ _ _); [reflexivity|].
    simpl. rewrite popen_cmds_app. apply app_nil_r. }
  rewrite finish_spec. cbv zeta.
  destruct (clean_error env self w); [reflexivity|].
  destruct (fs (cleaned self w) !! temp_dds self); [|apply cleaned_popen].
  destruct (fs (cleaned self w) !! final_path_of self f).
  - destruct (remove_error env _ _); [apply cleaned_popen|].
    destruct (decide _); rewrite ?Hr; simpl; rewrite popen_cmds_app, cleaned_popen;
      apply app_nil_r.
  - rewrite Hr. apply cleaned_popen.
Qed.

(** Once the image is decoded and saved, the tool is run exactly once,
    with the command line of line 65. *)
Lemma convert_popen f op w img f1 :
  image_open env f (fs w) = Ok img ->
  image_save env img (temp_png self) (fs w) = (Ok tt, f1) ->
  popen_cmds (calls (snd (convert_to_dds env self f op w))) =
    popen_cmds (calls w) ++ [texconv_cmd self].
Proof.
  intros H1 H2. rewrite convert_to_dds_spec. simpl.
  assert (Hat : forall f2, popen_cmds (calls (after_tool self w f2)) =
                           popen_cmds (calls w) ++ [texconv_cmd self]).
  { intros f2. unfold after_tool. simpl. rewrite popen_cmds_app. reflexivity. }
  destruct (shell env (texconv_cmd self) f1) as [[p|e] f2] eqn:H3.
  - destruct (Z.eq_dec (returncode p) 0) as [H4|H4].
    + rewrite (convert_body_exit_zero env self f w img f1 p f2 H1 H2 H3 H4).
      rewrite finish_popen. apply Hat.
    + rewrite (convert_body_exit_nonzero env self f w img f1 p f2 H1 H2 H3 H4).
      apply Hat.
  - rewrite (convert_body_launch_fails env self f w img e f1 f2 H1 H2 H3). apply Hat.
Qed.

Lemma join_inj a b1 b2 :
  PyStr.startswith b1 PosixPath.sep_str = false ->
  PyStr.startswith b2 PosixPath.sep_str = false ->
  PosixPath.join a b1 = PosixPath.join a b2 -> b1 = b2.
Proof.
  unfold PosixPath.join. intros -> ->.
  destruct (PyStr.is_empty a || PyStr.endswith a PosixPath.sep_str); intros H.
  - by apply (inj _) in H.
  - apply (inj _) in H. by apply (inj _) in H.
Qed.

(** A conversion that returns normally after a tool run that exits with
    zero and leaves [temp.dds] behind. *)
Lemma convert_ok_output f op w img f1 p f2 c :
  image_open env f (fs w) = Ok img ->
  image_save env img (temp_png self) (fs w) = (Ok tt, f1) ->
  shell env (texconv_cmd self) f1 = (Ok p, f2) ->
  returncode p = 0 ->
  f2 !! temp_dds self = Some c ->
  fst (convert_to_dds env self f op w) = Ok tt ->
  let r := convert_to_dds env self f op w in
  final_path_of self f <> temp_dds self /\
  fs (snd r) !! final_path_of self f = Some c /\
  fs (snd r) !! temp_dds self = None /\
  fs (snd r) !! temp_png self = None /\
  calls (snd r) =
    calls (cleaned self (after_tool self w f2)) ++
      match f2 !! final_path_of self f with
      | Some _ => [SysRemove (final_path_of self f);
                   SysRename (temp_dds self) (final_path_of self f)]
      | None => [SysRename (temp_dds self) (final_path_of self f)]
      end.
Proof.
  intros H1 H2 H3 H4 H5 Hok. cbv zeta. revert Hok. rewrite convert_to_dds_spec. simpl.
  rewrite (convert_body_exit_zero env self f w img f1 p f2 H1 H2 H3 H4).
  destruct (fst (finish env self f (after_tool self w f2))) as [[]|e] eqn:Ef; [|discriminate].
  intros _. pose proof (finish_ok env self f (after_tool self w f2) Ef) as Hfin. cbv zeta in Hfin.
  pose proof (temp_dds_not_temp_png self) as Hd.
  pose proof (final_path_not_temp_png self f) as Hf.
  pose proof (cleaned_no_temp_png self (after_tool self w f2)) as Hc.
  rewrite (cleaned_lookup self _ (temp_dds self) Hd) in Hfin. simpl fs in Hfin.
  rewrite H5 in Hfin. destruct Hfin as [Hne ->].
  rewrite (cleaned_lookup self _ (final_path_of self f) Hf). simpl.
  rewrite lookup_insert_eq, lookup_insert_ne, lookup_delete_eq by congruence.
  rewrite lookup_insert_ne, !lookup_delete_ne by congruence. auto.
Qed.
End ConvertClaims.

(** ** The command line of the tool *)

(** C4. Once the input is decoded and saved as [temp.png], the tool is run
    exactly once, with the command line [texconv -y -f <preset> -o "<output
    directory>" "<output directory>/temp.png"] for each of the three presets;
    for an input named [photo.jpg] and the preset DXT1, when the tool exits
    with zero and leaves [temp.dds] and the conversion returns normally, the
    command line carries [-f DXT1] and the output is [photo.dds] in the
    output directory. *)
Theorem C4_tool_command_line env self f w img f1 :
  dds_format self = "DXT1" \/ dds_format self = "DXT3" \/ dds_format self = "DXT5" ->
  image_open env f (fs w) = Ok img ->
  image_save env img (temp_png self) (fs w) = (Ok tt, f1) ->
  let r := convert_to_dds env self f (output_path_of self f) w in
  texconv_cmd self =
    "texconv -y -f " +:+ dds_format self +:+ " -o " +:+ PyStr.dquote +:+ output_dir self
      +:+ PyStr.dquote +:+ " " +:+ PyStr.dquote
      +:+ PosixPath.join (output_dir self) "temp.png" +:+ PyStr.dquote /\
  popen_cmds (calls (snd r)) = popen_cmds (calls w) ++ [texconv_cmd self] /\
  (forall p f2 c,
     PosixPath.basename f = "photo.jpg" ->
     dds_format self = "DXT1" ->
     shell env (texconv_cmd self) f1 = (Ok p, f2) ->
     returncode p = 0 ->
     f2 !! temp_dds self = Some c ->
     fst r = Ok tt ->
     PyStr.contains (texconv_cmd self) "-f DXT1" = true /\
     fs (snd r) !! PosixPath.join (output_dir self) "photo.dds" = Some c).
Proof.
  intros Hfmt Hopen Hsave r. split; [|split].
  - unfold texconv_cmd, compression_flag, temp_png.
    destruct Hfmt as [-> | [-> | ->]]; reflexivity.
  - apply (convert_popen env self f (output_path_of self f) w img f1 Hopen Hsave).
  - intros p f2 c Hbase Hdxt Hshell Hrc Hdds Hok.
    assert (Hfinal : final_path_of self f = PosixPath.join (output_dir self) "photo.dds").
    { unfold final_path_of. rewrite Hbase. reflexivity. }
    destruct (convert_ok_output env self f (output_path_of self f) w img f1 p f2 c
                Hopen Hsave Hshell Hrc Hdds Hok) as (_ & Hout & _).
    rewrite <- Hfinal. split; [|exact Hout].
    unfold texconv_cmd, compression_flag. rewrite Hdxt. simpl String.eqb. cbv iota.
    apply (contains_app "texconv -y " "-f DXT1").
Qed.

Lemma C4_tool_command_line_witness :
  let self := Worker ["photo.jpg"] "out" "DXT1" in
  let r := convert_to_dds (sim_env 0) self "photo.jpg" (output_path_of self "photo.jpg")
             photo_world in
  popen_cmds (calls (snd r)) = [texconv_cmd self] /\
  fst r = Ok tt /\
  fs (snd r) !! "out/photo.dds" = Some "DDS of PNG of JPEG".
Proof.
  intros self r.
  destruct (C4_tool_command_line (sim_env 0) self "photo.jpg" photo_world "JPEG"
              (<["out/temp.png" := "PNG of JPEG"]> (fs photo_world)))
    as (_ & Hcalls & Hphoto).
  - left. reflexivity.
  - reflexivity.
  - reflexivity.
  - split; [exact Hcalls|].
    assert (Hok : fst r = Ok tt) by (vm_compute; reflexivity).
    split; [exact Hok|].
    destruct (Hphoto (Completed 0 "texconv: failed")
                (<["out/temp.dds" := "DDS of PNG of JPEG"]>
                   (<["out/temp.png" := "PNG of JPEG"]> (fs photo_world)))
                "DDS of PNG of JPEG") as (_ & Hout).
    + reflexivity.
    + reflexivity.
    + vm_compute. reflexivity.
    + reflexivity.
    + vm_compute. reflexivity.
    + exact Hok.
    + exact Hout.
Defined.

(** C10. A format that is none of DXT1, DXT3 and DXT5 gives the flag
    [-f DXT5]: once the input is decoded and saved, the tool is run with the
    DXT5 command line. *)
Theorem C10_unknown_format_is_dxt5 env self f w img f1 :
  dds_format self <> "DXT1" ->
  dds_format self <> "DXT3" ->
  dds_format self <> "DXT5" ->
  image_open env f (fs w) = Ok img ->
  image_save env img (temp_png self) (fs w) = (Ok tt, f1) ->
  compression_flag self = "-f DXT5" /\
  popen_cmds (calls (snd (convert_to_dds env self f (output_path_of self f) w))) =
    popen_cmds (calls w) ++
      ["texconv -y -f DXT5 -o " +:+ PyStr.dquote +:+ output_dir self +:+ PyStr.dquote
         +:+ " " +:+ PyStr.dquote +:+ temp_png self +:+ PyStr.dquote].
Proof.
  intros H1 H3 H5 Hopen Hsave.
  assert (Hflag : compression_flag self = "-f DXT5").
  { unfold compression_flag.
    apply String.eqb_neq in H1, H3, H5. rewrite H1, H3, H5. reflexivity. }
  split; [exact Hflag|].
  rewrite (convert_popen env self f _ w img f1 Hopen Hsave).
  unfold texconv_cmd. rewrite Hflag. reflexivity.
Qed.

Lemma C10_unknown_format_is_dxt5_witness :
  let self := Worker ["photo.jpg"] "out" "BC7" in
  compression_flag self = "-f DXT5" /\
  popen_cmds (calls (snd (convert_to_dds (sim_env 0) self "photo.jpg"
                            (output_path_of self "photo.jpg") photo_world))) =
    ["texconv -y -f DXT5 -o " +:+ PyStr.dquote +:+ "out" +:+ PyStr.dquote
       +:+ " " +:+ PyStr.dquote +:+ "out/temp.png" +:+ PyStr.dquote].
Proof.
  intros self.
  apply (C10_unknown_format_is_dxt5 (sim_env 0) self "photo.jpg" photo_world "JPEG"
           (<["out/temp.png" := "PNG of JPEG"]> (fs photo_world)));
    first [discriminate | reflexivity].
Defined.

(** ** Failures inside a job *)

Section JobFacts.
Context (env : environment) (self : ConversionWorker).

Lemma world_after_app l1 l2 w :
  world_after env self (l1 ++ l2) w = world_after env self l2 (world_after env self l1 w).
Proof. revert w. induction l1 as [|f l1 IH]; intros w; simpl; [reflexivity|apply IH]. Qed.

(** The outcome at position [n] is the conversion of the [n]-th file in
    the world that the files before it left. *)
Lemma outcomes_lookup fl : forall w n f,
  fl !! n = Some f ->
  outcomes env self fl w !! n =
    Some (fst (convert_to_dds env self f (output_path_of self f)
                 (world_after env self (take n fl) w))).
Proof.
  induction fl as [|g fl IH]; intros w n f Hn; [discriminate|].
  destruct n as [|n]; simpl in *.
  - injection Hn as ->.
    destruct (convert_to_dds env self f (output_path_of self f) w); reflexivity.
  - destruct (convert_to_dds env self g (output_path_of self g) w) as [r w'] eqn:E.
    simpl. apply IH, Hn.
Qed.

Lemma start_lookup w n f :
  files self !! n = Some f ->
  fst (start env self w) !! n =
    Some (signal_of (Z.of_nat (List.length (files self))) (Z.of_nat n)
            (fst (convert_to_dds env self f (output_path_of self f)
                    (world_after env self (take n (files self)) w)))).
Proof.
  intros Hn. rewrite start_spec. simpl.
  assert (Hlt : (n < List.length (files self))%nat) by (eapply lookup_lt_Some, Hn).
  rewrite lookup_app_l
    by (rewrite signals_from_length, outcomes_length; exact Hlt).
  rewrite signals_from_lookup, (outcomes_lookup _ _ _ _ Hn). reflexivity.
Qed.

Lemma start_length w :
  List.length (fst (start env self w)) = S (List.length (files self)).
Proof.
  rewrite start_spec. simpl.
  rewrite length_app, signals_from_length, outcomes_length. simpl. lia.
Qed.

Lemma start_last w :
  fst (start env self w) !! List.length (files self) = Some Finished.
Proof.
  rewrite start_spec. simpl.
  rewrite lookup_app_r by (rewrite signals_from_length, outcomes_length; lia).
  rewrite signals_from_length, outcomes_length, Nat.sub_diag. reflexivity.
Qed.
End JobFacts.

(** C3. Decode failures, launch failures and non-zero exit codes all make
    the conversion of the file raise; the turn of a file whose conversion
    raises emits one signal, an error whose message contains the path of the
    file; every file of the list has its turn whatever happened before it;
    and the signal after the last turn is the completion. *)
Theorem C3_errors_are_reported env self w :
  let sigs := fst (start env self w) in
  let total := Z.of_nat (List.length (files self)) in
  let world_at n := world_after env self (take n (files self)) w in
  let convert n f := convert_to_dds env self f (output_path_of self f) (world_at n) in
  (forall f w0 img f1 p f2,
     (exists e, image_open env f (fs w0) = Raise e) \/
     (image_open env f (fs w0) = Ok img /\
      exists e, image_save env img (temp_png self) (fs w0) = (Raise e, f1)) \/
     (image_open env f (fs w0) = Ok img /\
      image_save env img (temp_png self) (fs w0) = (Ok tt, f1) /\
      exists e, shell env (texconv_cmd self) f1 = (Raise e, f2)) \/
     (image_open env f (fs w0) = Ok img /\
      image_save env img (temp_png self) (fs w0) = (Ok tt, f1) /\
      shell env (texconv_cmd self) f1 = (Ok p, f2) /\ returncode p <> 0) ->
     exists e, fst (convert_to_dds env self f (output_path_of self f) w0) = Raise e) /\
  (forall n f e,
     files self !! n = Some f ->
     fst (convert n f) = Raise e ->
     sigs !! n = Some (Error e) /\ PyStr.contains e f = true) /\
  (forall n f,
     files self !! n = Some f ->
     sigs !! n = Some (signal_of total (Z.of_nat n) (fst (convert n f)))) /\
  List.length sigs = S (List.length (files self)) /\
  sigs !! List.length (files self) = Some Finished.
Proof.
  cbv zeta. repeat split.
  - intros f w0 img f1 p f2 H. rewrite convert_to_dds_spec. simpl.
    destruct H as [[e H] | [[H1 [e H2]] | [(H1 & H2 & e & H3) | (H1 & H2 & H3 & H4)]]].
    + rewrite (convert_body_open_fails env self f w0 e H). simpl. eauto.
    + rewrite (convert_body_save_fails env self f w0 img e f1 H1 H2). simpl. eauto.
    + rewrite (convert_body_launch_fails env self f w0 img e f1 f2 H1 H2 H3). simpl. eauto.
    + rewrite (convert_body_exit_nonzero env self f w0 img f1 p f2 H1 H2 H3 H4).
      simpl. eauto.
  - rewrite (start_lookup env self w n f H), H0. reflexivity.
  - apply convert_to_dds_raise in H0 as [inner ->].
    apply (contains_app "Error converting " f).
  - intros n f Hn. apply (start_lookup env self w n f Hn).
  - apply start_length.
  - apply start_last.
Qed.

Lemma C3_errors_are_reported_witness :
  let self := Worker ["missing.png"; "photo.jpg"] "out" "DXT3" in
  let msg := "Error converting missing.png: [Errno 2] No such file or directory: "
             +:+ "'missing.png'" in
  let sigs := fst (start (sim_env 0) self photo_world) in
  (sigs !! 0%nat = Some (Error msg) /\ PyStr.contains msg "missing.png" = true) /\
  sigs !! 2%nat = Some Finished.
Proof.
  intros self msg sigs.
  destruct (C3_errors_are_reported (sim_env 0) self photo_world)
    as (_ & Herr & _ & _ & Hlast).
  split; [|exact Hlast].
  apply (Herr 0%nat "missing.png" msg); reflexivity.
Defined.

(** ** Temporary files *)

Section TempFacts.
Context (env : environment) (self : ConversionWorker).

(** When the steps after a tool run that exits with zero raise nothing,
    neither temporary file is left. *)
Lemma finish_no_temp f w :
  fst (finish env self f w) = Ok tt ->
  fs (snd (finish env self f w)) !! temp_png self = None /\
  fs (snd (finish env self f w)) !! temp_dds self = None.
Proof.
  intros Hok. pose proof (finish_ok env self f w Hok) as Hfin. cbv zeta in Hfin.
  pose proof (temp_dds_not_temp_png self) as Hd.
  pose proof (final_path_not_temp_png self f) as Hf.
  pose proof (cleaned_no_temp_png self w) as Hc.
  destruct (fs (cleaned self w) !! temp_dds self) as [c|] eqn:E2.
  - destruct Hfin as [Hne ->]. simpl.
    rewrite !lookup_insert_ne, lookup_delete_eq by congruence.
    rewrite !lookup_delete_ne by congruence. auto.
  - rewrite Hfin. auto.
Qed.

Lemma finish_removes_temp_png f w :
  fst (finish env self f w) = Ok tt ->
  is_Some (fs w !! temp_png self) ->
  exists cs, calls (snd (finish env self f w)) = calls w ++ SysRemove (temp_png self) :: cs.
Proof.
  intros Hok [x Hx]. pose proof (finish_ok env self f w Hok) as Hfin. cbv zeta in Hfin.
  assert (Hc : calls (cleaned self w) = calls w ++ [SysRemove (temp_png self)]).
  { unfold cleaned. rewrite Hx. reflexivity. }
  destruct (fs (cleaned self w) !! temp_dds self).
  - destruct Hfin as [_ ->]. simpl. rewrite Hc, <- app_assoc. eauto.
  - rewrite Hfin. exists []. exact Hc.
Qed.
End TempFacts.

Lemma start_world env self w :
  snd (start env self w) = world_after env self (files self) w.
Proof. rewrite start_spec. reflexivity. Qed.

Lemma world_after_snoc env self pre f w :
  world_after env self (pre ++ [f]) w =
    snd (convert_to_dds env self f (output_path_of self f) (world_after env self pre w)).
Proof. rewrite world_after_app. reflexivity. Qed.

(** C5, as stated, fails: when the tool exits with a non-zero code for the
    only file of a job, [temp.png] is still in the output directory after
    the job. *)
Lemma C5_counterexample :
  let self := Worker ["photo.jpg"] "out" "DXT1" in
  let r := start (sim_env 1) self photo_world in
  fst r = [Error "Error converting photo.jpg: Conversion failed: texconv: failed"; Finished] /\
  fs (snd r) !! temp_png self = Some "PNG of JPEG" /\
  ~ fs (snd r) !! temp_png self = None.
Proof. vm_compute. repeat split. discriminate. Qed.

(** C5, amended. For every file of a job whose conversion returns
    normally (the tool run exits with code zero and neither a removal nor
    the renaming after it raises), the intermediate bitmap is removed if it
    exists after the run, and neither [temp.png] nor [temp.dds] is left in
    the output directory when the turn of that file is over; so none is left
    after a job whose last file was converted. *)
Theorem C5_temp_files_removed env self w pre f post img f1 p f2 :
  files self = pre ++ f :: post ->
  let w1 := world_after env self pre w in
  image_open env f (fs w1) = Ok img ->
  image_save env img (temp_png self) (fs w1) = (Ok tt, f1) ->
  shell env (texconv_cmd self) f1 = (Ok p, f2) ->
  returncode p = 0 ->
  fst (convert_to_dds env self f (output_path_of self f) w1) = Ok tt ->
  let w2 := world_after env self (pre ++ [f]) w in
  (is_Some (f2 !! temp_png self) ->
   exists cs, calls w2 = calls (after_tool self w1 f2) ++ SysRemove (temp_png self) :: cs) /\
  fs w2 !! temp_png self = None /\
  fs w2 !! temp_dds self = None /\
  (post = [] ->
   fs (snd (start env self w)) !! temp_png self = None /\
   fs (snd (start env self w)) !! temp_dds self = None).
Proof.
  intros Hfiles w1 Hopen Hsave Hshell Hrc Hok w2.
  assert (Hw2 : w2 = snd (finish env self f (after_tool self w1 f2))).
  { unfold w2. rewrite world_after_snoc, convert_to_dds_spec. simpl. fold w1.
    rewrite (convert_body_exit_zero env self f w1 img f1 p f2 Hopen Hsave Hshell Hrc).
    reflexivity. }
  assert (Hfin : fst (finish env self f (after_tool self w1 f2)) = Ok tt).
  { revert Hok. rewrite convert_to_dds_spec. simpl.
    rewrite (convert_body_exit_zero env self f w1 img f1 p f2 Hopen Hsave Hshell Hrc).
    destruct (fst (finish env self f (after_tool self w1 f2))) as [[]|e];
      [reflexivity|discriminate]. }
  destruct (finish_no_temp env self f (after_tool self w1 f2) Hfin) as [Hpng Hdds].
  rewrite <- Hw2 in Hpng, Hdds.
  split; [|split; [exact Hpng|split; [exact Hdds|]]].
  - intros Hex. rewrite Hw2. apply finish_removes_temp_png; [exact Hfin|exact Hex].
  - intros ->. rewrite start_world, Hfiles. fold w2. auto.
Qed.

Lemma C5_temp_files_removed_witness :
  let self := Worker ["photo.jpg"] "out" "DXT1" in
  let w2 := snd (start (sim_env 0) self photo_world) in
  fs w2 !! temp_png self = None /\ fs w2 !! temp_dds self = None.
Proof.
  intros self w2.
  destruct (C5_temp_files_removed (sim_env 0) self photo_world [] "photo.jpg" []
              "JPEG" (<["out/temp.png" := "PNG of JPEG"]> (fs photo_world))
              (Completed 0 "texconv: failed")
              (<["out/temp.dds" := "DDS of PNG of JPEG"]>
                 (<["out/temp.png" := "PNG of JPEG"]> (fs photo_world))))
    as (_ & _ & _ & H).
  - reflexivity.
  - reflexivity.
  - reflexivity.
  - vm_compute. reflexivity.
  - reflexivity.
  - vm_compute. reflexivity.
  - apply H. reflexivity.
Defined.

(** ** Outputs with the same base name *)

(** C9, as stated, fails: a tool run that exits with zero without leaving
    [temp.dds] makes the conversion of the second file succeed, and the
    [photo.dds] of the first file is neither removed nor replaced. *)
Lemma C9_counterexample :
  let self := Worker ["a/photo.jpg"; "b/photo.png"] "out" "DXT5" in
  let r := start shy_tool_env self two_photos_world in
  fst r = [Progress 50; Progress 100; Finished] /\
  fs (snd r) !! "out/photo.dds" = Some "DDS of PNG of JPEG A" /\
  calls (snd r) =
    [SysImageSave "out/temp.png"; SysPopen (texconv_cmd self); SysRemove "out/temp.png";
     SysRename "out/temp.dds" "out/photo.dds";
     SysImageSave "out/temp.png"; SysPopen (texconv_cmd self); SysRemove "out/temp.png"] /\
  ~ In (SysRemove "out/photo.dds") (calls (snd r)).
Proof.
  vm_compute. repeat split.
  intros H. repeat (destruct H as [H|H]; [discriminate|]). exact H.
Qed.

(** C9, amended. When the conversion of a file succeeds and the tool has
    left [temp.dds], a file already at [<base>.dds] in the output directory
    is removed first and [temp.dds] is renamed onto that path next, so that
    the path holds the output of the tool for this file; in particular it no
    longer holds what an earlier file of the job with the same base name had
    put there. *)
Theorem C9_same_base_name_overwrites env self w pre f post img f1 p f2 c :
  files self = pre ++ f :: post ->
  let w1 := world_after env self pre w in
  image_open env f (fs w1) = Ok img ->
  image_save env img (temp_png self) (fs w1) = (Ok tt, f1) ->
  shell env (texconv_cmd self) f1 = (Ok p, f2) ->
  returncode p = 0 ->
  f2 !! temp_dds self = Some c ->
  fst (convert_to_dds env self f (output_path_of self f) w1) = Ok tt ->
  let w2 := world_after env self (pre ++ [f]) w in
  let final := final_path_of self f in
  (is_Some (f2 !! final) ->
   exists cs, calls w2 = cs ++ [SysRemove final; SysRename (temp_dds self) final]) /\
  (f2 !! final = None ->
   exists cs, calls w2 = cs ++ [SysRename (temp_dds self) final]) /\
  fs w2 !! final = Some c /\
  (forall g,
     In g pre ->
     fst (PosixPath.splitext (PosixPath.basename g)) =
       fst (PosixPath.splitext (PosixPath.basename f)) ->
     final_path_of self g = final /\ fs w2 !! final_path_of self g = Some c).
Proof.
  intros Hfiles w1 Hopen Hsave Hshell Hrc Hdds Hok w2 final.
  destruct (convert_ok_output env self f (output_path_of self f) w1 img f1 p f2 c
              Hopen Hsave Hshell Hrc Hdds Hok) as (_ & Hout & _ & _ & Hcalls).
  fold final in Hout, Hcalls.
  assert (Hw2 : w2 = snd (convert_to_dds env self f (output_path_of self f) w1)).
  { unfold w2. apply world_after_snoc. }
  rewrite <- Hw2 in Hout, Hcalls.
  split; [|split; [|split; [exact Hout|]]].
  - intros [y Hy]. rewrite Hy in Hcalls. eauto.
  - intros Hy. rewrite Hy in Hcalls. eauto.
  - intros g _ Hbase.
    assert (Hg : final_path_of self g = final).
    { unfold final, final_path_of. rewrite Hbase. reflexivity. }
    rewrite Hg. auto.
Qed.

Lemma C9_same_base_name_overwrites_witness :
  let self := Worker ["a/photo.jpg"; "b/photo.png"] "out" "DXT5" in
  let w1 := world_after (sim_env 0) self ["a/photo.jpg"] two_photos_world in
  let w2 := world_after (sim_env 0) self ["a/photo.jpg"; "b/photo.png"] two_photos_world in
  fs w1 !! "out/photo.dds" = Some "DDS of PNG of JPEG A" /\
  fs w2 !! "out/photo.dds" = Some "DDS of PNG of PNG B" /\
  exists cs, calls w2 = cs ++ [SysRemove "out/photo.dds";
                               SysRename "out/temp.dds" "out/photo.dds"].
Proof.
  intros self w1 w2.
  set (f1 := <["out/temp.png" := "PNG of PNG B"]> (fs w1)).
  set (f2 := <["out/temp.dds" := "DDS of PNG of PNG B"]> f1).
  destruct (C9_same_base_name_overwrites (sim_env 0) self two_photos_world
              ["a/photo.jpg"] "b/photo.png" [] "PNG B" f1
              (Completed 0 "texconv: failed") f2 "DDS of PNG of PNG B")
    as (Hcalls & _ & Hout & _).
  - reflexivity.
  - vm_compute. reflexivity.
  - reflexivity.
  - vm_compute. reflexivity.
  - reflexivity.
  - vm_compute. reflexivity.
  - vm_compute. reflexivity.
  - split; [vm_compute; reflexivity|]. split; [exact Hout|].
    apply Hcalls. vm_compute. eauto.
Defined.

(** X1. An input whose base name is [temp] cannot be converted: the final
    path is [temp.dds] itself, so the output of the tool is removed as the
    file "already there", the renaming finds nothing to rename, and the
    conversion raises; no output is left when the removals of [temp.png] and
    of [temp.dds] raise nothing (when one of them raises, the conversion
    raises as well). *)
Theorem temp_named_input_fails env self f w img f1 p f2 c :
  fst (PosixPath.splitext (PosixPath.basename f)) = "temp" ->
  image_open env f (fs w) = Ok img ->
  image_save env img (temp_png self) (fs w) = (Ok tt, f1) ->
  shell env (texconv_cmd self) f1 = (Ok p, f2) ->
  returncode p = 0 ->
  f2 !! temp_dds self = Some c ->
  let r := convert_to_dds env self f (output_path_of self f) w in
  (exists e, fst r = Raise e /\ PyStr.contains e f = true) /\
  final_path_of self f = temp_dds self /\
  ((forall f0, remove_error env (temp_png self) f0 = None) ->
   (forall f0, remove_error env (temp_dds self) f0 = None) ->
   fs (snd r) !! final_path_of self f = None).
Proof.
  intros Hbase Hopen Hsave Hshell Hrc Hdds r.
  assert (Hfinal : final_path_of self f = temp_dds self).
  { unfold final_path_of, temp_dds. rewrite Hbase. reflexivity. }
  pose proof (temp_dds_not_temp_png self) as Hd.
  assert (Hr : r = (match fst (finish env self f (after_tool self w f2)) with
                    | Ok a => Ok a
                    | Raise e => Raise ("Error converting " +:+ f +:+ ": " +:+ e)
                    end, snd (finish env self f (after_tool self w f2)))).
  { unfold r. rewrite convert_to_dds_spec.
    rewrite (convert_body_exit_zero env self f w img f1 p f2 Hopen Hsave Hshell Hrc).
    reflexivity. }
  assert (Hraise : exists e, fst (finish env self f (after_tool self w f2)) = Raise e).
  { destruct (fst (finish env self f (after_tool self w f2))) as [[]|e] eqn:Ef; [|eauto].
    pose proof (finish_ok env self f (after_tool self w f2) Ef) as Hfin. cbv zeta in Hfin.
    rewrite (cleaned_lookup self _ (temp_dds self) Hd) in Hfin. simpl fs in Hfin.
    rewrite Hdds in Hfin. destruct Hfin as [Hne _]. contradiction. }
  split; [|split; [exact Hfinal|]].
  - destruct Hraise as [e He]. rewrite Hr, He. simpl fst.
    eexists. split; [reflexivity|]. apply (contains_app "Error converting " f).
  - intros Hpng Hfin. rewrite Hr. simpl snd. rewrite finish_spec. cbv zeta.
    rewrite (clean_error_none env self _ (Hpng _)).
    rewrite Hfinal, (cleaned_lookup self _ (temp_dds self) Hd). simpl fs. rewrite Hdds.
    rewrite Hfin.
    destruct (decide (temp_dds self = temp_dds self)); [|contradiction].
    simpl. apply lookup_delete_eq.
Qed.

Lemma temp_named_input_fails_witness :
  let self := Worker ["temp.jpg"] "out" "DXT1" in
  let w := World {[ "temp.jpg" := "JPEG" ]} [] in
  let r := convert_to_dds (sim_env 0) self "temp.jpg" (output_path_of self "temp.jpg") w in
  (exists e, fst r = Raise e /\ PyStr.contains e "temp.jpg" = true) /\
  fs (snd r) !! "out/temp.dds" = None.
Proof.
  intros self w r.
  destruct (temp_named_input_fails (sim_env 0) self "temp.jpg" w "JPEG"
              (<["out/temp.png" := "PNG of JPEG"]> (fs w))
              (Completed 0 "texconv: failed")
              (<["out/temp.dds" := "DDS of PNG of JPEG"]>
                 (<["out/temp.png" := "PNG of JPEG"]> (fs w)))
              "DDS of PNG of JPEG") as (He & _ & Hnone).
  - reflexivity.
  - reflexivity.
  - reflexivity.
  - vm_compute. reflexivity.
  - reflexivity.
  - vm_compute. reflexivity.
  - split; [exact He | apply Hnone; reflexivity].
Defined.

(** When the removal of an output that is already there raises, the
    conversion raises after a tool run that exited with zero, and
    [temp.dds] stays in the output directory. *)
Example removal_failure_leaves_temp_dds :
  let self := Worker ["photo.jpg"] "out" "DXT1" in
  let r := start locked_output_env self locked_output_world in
  fst r = [Error "Error converting photo.jpg: [Errno 21] Is a directory: 'out/photo.dds'";
           Finished] /\
  fs (snd r) !! "out/temp.dds" = Some "DDS of PNG of JPEG" /\
  fs (snd r) !! "out/temp.png" = None.
Proof. vm_compute. repeat split. Qed.

(** ** The window controller *)

(** C6. When launching [texconv -help] raises, the program opens one
    critical message box and exits with status 1; the window is never shown
    and no worker is started. *)
Theorem C6_missing_tool_exits_at_startup env :
  (exists e, texconv_help env = Raise e) ->
  exists g,
    main env = Exit 1 g /\
    boxes g = [MessageBox Critical "Error"
                 "texconv not found. Please download it and place in the application directory."] /\
    shown g = false /\
    started g = [].
Proof.
  intros [e He]. unfold main, init, check_texconv. rewrite He. simpl.
  eexists. split; [reflexivity|]. repeat split.
Qed.

Lemma C6_missing_tool_exits_at_startup_witness :
  exists g, main no_texconv_env = Exit 1 g /\
            List.length (boxes g) = 1%nat /\ shown g = false.
Proof.
  destruct (C6_missing_tool_exits_at_startup no_texconv_env) as (g & Hmain & Hboxes & Hshown & _).
  - eexists. reflexivity.
  - exists g. rewrite Hboxes. auto.
Defined.

Lemma flat_map_nil {A B} (f : A -> list B) (l : list A) :
  (forall x, In x l -> f x = []) -> flat_map f l = [].
Proof.
  induction l as [|a l IH]; intros H; [reflexivity|].
  simpl. rewrite (H a) by (left; reflexivity). apply IH.
  intros x Hx. apply H. right. exact Hx.
Qed.

Lemma collect_images_none tree :
  (forall root dirs names file,
     In (root, dirs, names) tree -> In file names ->
     PyStr.endswith_any (PyStr.lower file) image_extensions = false) ->
  collect_images tree = [].
Proof.
  intros H. unfold collect_images. apply flat_map_nil.
  intros [[root dirs] names] Ht. apply flat_map_nil.
  intros file Hf. rewrite (H root dirs names file Ht Hf). reflexivity.
Qed.

(** C7. When the walk of a selected folder finds no file name that ends,
    in lower case, with one of the four image extensions, [select_folder]
    opens one warning box and does nothing else: no worker is constructed or
    started, and the world is untouched. *)
Theorem C7_empty_folder_warns env folder_path chosen g w :
  folder_path <> EmptyString ->
  (forall root dirs names file,
     In (root, dirs, names) (os_walk env folder_path (fs w)) -> In file names ->
     PyStr.endswith_any (PyStr.lower file) image_extensions = false) ->
  let st := select_folder env folder_path chosen (g, w) in
  boxes (fst st) = boxes g ++ [MessageBox Warning "Error"
                                 "No image files found in the selected folder."] /\
  worker (fst st) = worker g /\
  started (fst st) = started g /\
  snd st = w.
Proof.
  intros Hne Hnone. unfold select_folder.
  apply is_empty_false in Hne. rewrite Hne. simpl.
  rewrite (collect_images_none _ Hnone). simpl. auto.
Qed.

Lemma C7_empty_folder_warns_witness :
  let st := select_folder no_images_env "docs" "out" (setup_ui, World ∅ []) in
  boxes (fst st) = [MessageBox Warning "Error" "No image files found in the selected folder."] /\
  started (fst st) = [].
Proof.
  intros st.
  destruct (C7_empty_folder_warns no_images_env "docs" "out" setup_ui (World ∅ []))
    as (Hb & _ & Hs & _).
  - discriminate.
  - intros root dirs names file Ht Hf. simpl in Ht.
    destruct Ht as [[= <- <- <-] | [[= <- <- <-] | []]]; simpl in Hf;
      destruct Hf as [<- | [<- | []]]; reflexivity.
  - split; [exact Hb | exact Hs].
Defined.

Lemma boxes_deliver sigs : forall g,
  boxes (foldl deliver g sigs) =
    boxes g ++ flat_map (fun sg => match sg with
                                   | Error m => [MessageBox Critical "Error" m]
                                   | Finished => [completion_box]
                                   | Progress _ => []
                                   end) sigs.
Proof.
  induction sigs as [|sg sigs IH]; intros g; simpl; [symmetry; apply app_nil_r|].
  rewrite IH. destruct sg; simpl; rewrite <- ?app_assoc; reflexivity.
Qed.

Lemma signals_from_boxes total rs : forall i,
  flat_map (fun sg => match sg with
                      | Error m => [MessageBox Critical "Error" m]
                      | Finished => [completion_box]
                      | Progress _ => []
                      end) (signals_from total i rs) =
    map (MessageBox Critical "Error") (error_messages (signals_from total i rs)).
Proof.
  induction rs as [|r rs IH]; intros i; [reflexivity|].
  simpl. rewrite IH. unfold error_messages at 2. simpl.
  destruct (signal_of total i r) eqn:E; try reflexivity.
  unfold signal_of in E. destruct r; [destruct (progress_value i total)|]; discriminate.
Qed.

(** C8, as stated, fails: with two files that both fail, two critical
    boxes are opened, one for each error, not only the first. *)
Lemma C8_counterexample :
  let st := convert_files (sim_env 0) ["a.png"; "b.png"] "out" (setup_ui, photo_world) in
  boxes (fst st) =
    [MessageBox Critical "Error"
       "Error converting a.png: [Errno 2] No such file or directory: 'a.png'";
     MessageBox Critical "Error"
       "Error converting b.png: [Errno 2] No such file or directory: 'b.png'";
     completion_box] /\
  List.length (List.filter is_critical (boxes (fst st))) = 2%nat.
Proof. vm_compute. split; reflexivity. Qed.

(** C8, amended. During a job errors are not aggregated: each error signal
    of the worker opens its own critical message box, in the order of
    emission, and the completion box comes last; the worker gives every file
    its turn whatever failed before, one signal for each file and the
    completion after them. *)
Theorem C8_every_error_is_shown env fl chosen g w :
  chosen <> EmptyString ->
  let k := Worker fl chosen (format_combo g) in
  let sigs := fst (start env k w) in
  let st := convert_files env fl chosen (g, w) in
  boxes (fst st) =
    boxes g ++ map (MessageBox Critical "Error") (error_messages sigs) ++ [completion_box] /\
  List.length (List.filter is_critical (boxes (fst st))) =
    (List.length (List.filter is_critical (boxes g)) + List.length (error_messages sigs))%nat /\
  List.length sigs = S (List.length fl) /\
  sigs !! List.length fl = Some Finished /\
  started (fst st) = started g ++ [k].
Proof.
  intros Hne k sigs st.
  assert (Hst : st = (foldl deliver
                        (set_buttons false
                           (worker_start k (set_worker k
                              (set_progress_value 0 (set_progress_visible true g)))))
                        sigs, snd (start env k w))).
  { unfold st, convert_files. apply is_empty_false in Hne. rewrite Hne.
    simpl format_combo. fold k. unfold sigs. destruct (start env k w). reflexivity. }
  assert (Hboxes : boxes (fst st) =
            boxes g ++ map (MessageBox Critical "Error") (error_messages sigs)
              ++ [completion_box]).
  { rewrite Hst. simpl fst. rewrite boxes_deliver. simpl boxes. f_equal.
    unfold sigs. rewrite start_spec. simpl fst.
    rewrite flat_map_app, signals_from_boxes. simpl.
    unfold error_messages. rewrite flat_map_app. simpl. rewrite app_nil_r. reflexivity. }
  split; [exact Hboxes|]. split; [|split; [|split]].
  - rewrite Hboxes, !List.filter_app, !length_app. simpl.
    assert (Hall : forall l, List.filter is_critical (map (MessageBox Critical "Error") l)
                             = map (MessageBox Critical "Error") l).
    { induction l as [|m l IH]; simpl; [|rewrite IH]; reflexivity. }
    rewrite Hall, length_map. lia.
  - apply (start_length env k w).
  - apply (start_last env k w).
  - rewrite Hst. simpl fst.
    assert (Hs : forall l g0, started (foldl deliver g0 l) = started g0).
    { induction l as [|sg l IH]; intros g0; simpl; [reflexivity|].
      rewrite IH. destruct sg; reflexivity. }
    rewrite Hs. reflexivity.
Qed.

Lemma C8_every_error_is_shown_witness :
  let st := convert_files (sim_env 0) ["a.png"; "photo.jpg"; "b.png"] "out"
              (setup_ui, photo_world) in
  List.length (List.filter is_critical (boxes (fst st))) = 2%nat.
Proof.
  intros st.
  destruct (C8_every_error_is_shown (sim_env 0) ["a.png"; "photo.jpg"; "b.png"] "out"
              setup_ui photo_world) as (_ & Hn & _).
  - discriminate.
  - etransitivity; [exact Hn|]. vm_compute. reflexivity.
Defined.

(** X2. When a job is over the window is back to rest: both buttons are
    enabled, the progress bar is hidden, and the status and the last message
    box report a successful completion, however many files failed. *)
Theorem job_ends_with_success_message env fl chosen g w :
  chosen <> EmptyString ->
  let g' := fst (convert_files env fl chosen (g, w)) in
  file_btn_enabled g' = true /\
  folder_btn_enabled g' = true /\
  progress_bar_visible g' = false /\
  status_label g' = "Conversion completed successfully!" /\
  last (boxes g') = Some completion_box.
Proof.
  intros Hne g'.
  assert (Hg : exists g0, g' = conversion_finished g0).
  { unfold g', convert_files. apply is_empty_false in Hne. rewrite Hne.
    simpl format_combo.
    destruct (start env (Worker fl chosen (format_combo g)) w) as [sigs w'] eqn:Es.
    pose proof (start_spec env (Worker fl chosen (format_combo g)) w) as Hs.
    rewrite Es in Hs. injection Hs as Hsigs _. rewrite Hsigs. simpl fst.
    rewrite foldl_app. simpl. eauto. }
  destruct Hg as [g0 ->]. unfold conversion_finished. simpl.
  repeat split. apply last_snoc.
Qed.

Lemma job_ends_with_success_message_witness :
  let g' := fst (convert_files (sim_env 0) ["a.png"; "b.png"] "out" (setup_ui, photo_world)) in
  List.length (List.filter is_critical (boxes g')) = 2%nat /\
  status_label g' = "Conversion completed successfully!" /\
  last (boxes g') = Some completion_box.
Proof.
  intros g'.
  destruct (job_ends_with_success_message (sim_env 0) ["a.png"; "b.png"] "out"
              setup_ui photo_world) as (_ & _ & _ & Hstatus & Hlast).
  - discriminate.
  - split; [vm_compute; reflexivity|]. split; [exact Hstatus | exact Hlast].
Defined.

(** ** Rounding to nearest, on integers *)

Lemma qcode_div4 a b : 0 < b -> qcode a b / 4 = a / b.
Proof.
  intros Hb. unfold qcode.
  destruct (2 * a mod b =? 0); Z.to_euclidean_division_equations; nia.
Qed.

Lemma qcode_mono a b a' b' :
  0 < b -> 0 < b' -> a * b' <= a' * b -> qcode a b <= qcode a' b'.
Proof.
  intros Hb Hb' H. unfold qcode.
  assert (Hh : 2 * a / b <= 2 * a' / b').
  { apply Z.div_le_lower_bound; [lia|].
    pose proof (Z.mul_div_le (2 * a) b Hb).
    apply (Z.mul_le_mono_pos_r _ _ b); [lia|]. nia. }
  destruct (Z.eq_dec (2 * a / b) (2 * a' / b')) as [Heq|Hneq].
  - destruct (2 * a' mod b' =? 0) eqn:E'; [|destruct (2 * a mod b =? 0); lia].
    destruct (2 * a mod b =? 0) eqn:E; [lia|].
    apply Z.eqb_eq in E'. apply Z.eqb_neq in E.
    pose proof (Z.div_mod (2 * a) b ltac:(lia)).
    pose proof (Z.div_mod (2 * a') b' ltac:(lia)).
    pose proof (Z.mod_pos_bound (2 * a) b Hb). nia.
  - destruct (2 * a' mod b' =? 0); destruct (2 * a mod b =? 0); lia.
Qed.

Lemma half_code_qcode a b : 0 < b -> half_code (qcode a b) = qcode a (2 * b).
Proof.
  intros Hb. unfold half_code. rewrite (qcode_div4 a b Hb). unfold qcode.
  replace (2 * a / (2 * b)) with (a / b)
    by (symmetry; apply Z.div_mul_cancel_l; lia).
  f_equal.
  assert (H1 : 2 * a mod (2 * b) = 2 * (a mod b)) by (apply Z.mul_mod_distr_l; lia).
  rewrite H1.
  destruct (2 * a mod b =? 0) eqn:E.
  - apply Z.eqb_eq in E.
    destruct (a mod b =? 0) eqn:E2.
    + apply Z.eqb_eq in E2.
      replace (2 * (2 * a / b) + 0) with (4 * (a / b))
        by (Z.to_euclidean_division_equations; nia).
      rewrite Z.mul_comm, Z.mod_mul by lia. rewrite E2. reflexivity.
    + apply Z.eqb_neq in E2.
      assert (Hh : 2 * a / b = 2 * (a / b) + 1).
      { pose proof (Z.div_mod a b ltac:(lia)) as Ha.
        pose proof (Z.div_mod (2 * a) b ltac:(lia)) as H2a.
        pose proof (Z.mod_pos_bound a b Hb) as Hr.
        rewrite E in H2a.
        assert (Hd : b * (2 * a / b - 2 * (a / b)) = 2 * (a mod b)) by lia.
        assert (0 < 2 * a / b - 2 * (a / b) < 2) by nia. lia. }
      assert (H : (2 * (2 * a / b) + 0) mod 4 <> 0).
      { rewrite Hh. Z.to_euclidean_division_equations. lia. }
      apply Z.eqb_neq in H. rewrite H.
      assert (H' : 2 * (a mod b) <> 0) by lia.
      apply Z.eqb_neq in H'. rewrite H'. reflexivity.
  - apply Z.eqb_neq in E.
    assert (H : (2 * (2 * a / b) + 1) mod 4 <> 0).
    { generalize (2 * a / b). intros h. Z.to_euclidean_division_equations. lia. }
    apply Z.eqb_neq in H. rewrite H.
    assert (H' : 2 * (a mod b) <> 0).
    { intros Hz. apply E. rewrite <- Z.mul_mod_idemp_r by lia.
      replace (a mod b) with 0 by lia. rewrite Z.mul_0_r. apply Z.mod_0_l. lia. }
    apply Z.eqb_neq in H'. rewrite H'. reflexivity.
Qed.

Lemma rne_bounds t : t / 4 <= rne t <= t / 4 + 1.
Proof.
  unfold rne. destruct (t mod 4 <? 2); [lia|].
  destruct (t mod 4 =? 2); [destruct (Z.even (t / 4))|]; lia.
Qed.

Lemma rne_mono t t' : t <= t' -> rne t <= rne t'.
Proof.
  intros H. destruct (Z.eq_dec (t / 4) (t' / 4)) as [Heq|Hneq].
  - unfold rne. rewrite <- Heq.
    destruct (t mod 4 <? 2) eqn:E1; destruct (t' mod 4 <? 2) eqn:E1';
      destruct (t mod 4 =? 2) eqn:E2; destruct (t' mod 4 =? 2) eqn:E2';
      destruct (Z.even (t / 4)); try lia;
      Z.to_euclidean_division_equations; lia.
  - pose proof (rne_bounds t). pose proof (rne_bounds t').
    assert (t / 4 <= t' / 4) by (apply Z.div_le_mono; lia). lia.
Qed.

Lemma rne_exact m : rne (4 * m) = m.
Proof.
  unfold rne. rewrite Z.mul_comm, Z.mod_mul, Z.div_mul by lia. reflexivity.
Qed.

(** ** The rounding of the floating-point operations *)

Lemma rec_code_of_loc m l : rec_code (shr_record_of_loc m l) = 4 * m + loc_code l.
Proof. destruct l as [|[]]; unfold rec_code; simpl; lia. Qed.

Lemma rne_code m c : 0 <= c < 4 -> (4 * m + c) / 4 = m /\ (4 * m + c) mod 4 = c.
Proof. intros Hc. Z.to_euclidean_division_equations. lia. Qed.

Lemma round_nearest_even_rec r :
  round_nearest_even (shr_m r) (loc_of_shr_record r) = rne (rec_code r).
Proof.
  destruct r as [m [|] [|]]; unfold rec_code, rne; simpl shr_m; simpl Z.b2z;
    simpl loc_of_shr_record; simpl round_nearest_even.
  - destruct (rne_code m 3 ltac:(lia)) as [Hd Hm].
    replace (4 * m + 2 * 1 + 1) with (4 * m + 3) by lia. rewrite Hd, Hm. reflexivity.
  - destruct (rne_code m 2 ltac:(lia)) as [Hd Hm].
    replace (4 * m + 2 * 1 + 0) with (4 * m + 2) by lia. rewrite Hd, Hm. reflexivity.
  - destruct (rne_code m 1 ltac:(lia)) as [Hd Hm].
    replace (4 * m + 2 * 0 + 1) with (4 * m + 1) by lia. rewrite Hd, Hm. reflexivity.
  - destruct (rne_code m 0 ltac:(lia)) as [Hd Hm].
    replace (4 * m + 2 * 0 + 0) with (4 * m + 0) by lia. rewrite Hd, Hm. reflexivity.
Qed.

Lemma shr_1_fields m rb sb :
  0 <= m ->
  shr_1 (Build_shr_record m rb sb) = Build_shr_record (m / 2) (Z.odd m) (rb || sb).
Proof.
  intros Hm. destruct m as [|p|p]; [reflexivity| |lia].
  destruct p as [p|p|]; simpl shr_1.
  - f_equal. rewrite Pos2Z.inj_xI. Z.to_euclidean_division_equations. lia.
  - f_equal. rewrite Pos2Z.inj_xO. Z.to_euclidean_division_equations. lia.
  - reflexivity.
Qed.

Lemma shr_1_code r :
  0 <= shr_m r ->
  rec_code (shr_1 r) = half_code (rec_code r) /\ shr_m (shr_1 r) = shr_m r / 2.
Proof.
  intros Hm. destruct r as [m rb sb]. simpl in Hm.
  rewrite (shr_1_fields m rb sb Hm). split; [|reflexivity].
  unfold half_code, rec_code. cbn [shr_m shr_r shr_s].
  assert (Hc : 0 <= 2 * Z.b2z rb + Z.b2z sb < 4) by (destruct rb, sb; simpl; lia).
  replace (4 * m + 2 * Z.b2z rb + Z.b2z sb) with (4 * m + (2 * Z.b2z rb + Z.b2z sb)) by lia.
  destruct (rne_code m _ Hc) as [Hd Hmod]. rewrite Hd, Hmod.
  assert (Hs : (if 2 * Z.b2z rb + Z.b2z sb =? 0 then 0 else 1) = Z.b2z (rb || sb))
    by (destruct rb, sb; reflexivity).
  rewrite Hs.
  pose proof (Z.div_mod m 2 ltac:(lia)) as Hdm.
  rewrite Zmod_odd in Hdm. destruct (Z.odd m); simpl Z.b2z in *; lia.
Qed.

Lemma iter_pos_nat {A} (f : A -> A) p : forall x,
  SpecFloat.iter_pos f p x = Nat.iter (Pos.to_nat p) f x.
Proof.
  induction p as [p IH|p IH|]; intros x; cbn [SpecFloat.iter_pos].
  - rewrite !IH, Pos2Nat.inj_xI, <- Nat.iter_add, <- Nat.iter_succ_r.
    f_equal. lia.
  - rewrite !IH, Pos2Nat.inj_xO, <- Nat.iter_add. f_equal. lia.
  - reflexivity.
Qed.

(** Shifting right [n] times divides the located rational by [2 ^ n]. *)
Lemma shr_iter_code a b n : forall r,
  0 < b -> 0 <= shr_m r -> rec_code r = qcode a b ->
  rec_code (Nat.iter n shr_1 r) = qcode a (b * 2 ^ Z.of_nat n) /\
  0 <= shr_m (Nat.iter n shr_1 r).
Proof.
  induction n as [|n IH]; intros r Hb Hm Hr.
  - simpl. rewrite Z.mul_1_r. auto.
  - destruct (IH r Hb Hm Hr) as [Hc Hp]. simpl Nat.iter.
    destruct (shr_1_code _ Hp) as [Hc' Hm'].
    rewrite Hc', Hc, half_code_qcode by lia.
    split.
    + f_equal. rewrite Nat2Z.inj_succ, Z.pow_succ_r by lia. lia.
    + rewrite Hm'. apply Z.div_pos; lia.
Qed.

Lemma digits2_pos_size p : digits2_pos p = Pos.size p.
Proof. induction p as [p IH|p IH|]; simpl; rewrite ?IH; reflexivity. Qed.

Lemma Zdigits2_log2 m : 0 < m -> Zdigits2 m = Z.log2 m + 1.
Proof.
  intros Hm. destruct m as [|p|p]; try lia. simpl Zdigits2.
  rewrite digits2_pos_size. destruct p; simpl; lia.
Qed.

Lemma fexp_normal e : -1074 <= e - 53 -> fexp 53 1024 e = e - 53.
Proof. intros H. unfold fexp, emin. lia. Qed.

Lemma shr_spec r e n a b :
  0 <= n -> 0 < b -> 0 <= shr_m r -> rec_code r = qcode a b ->
  snd (shr r e n) = e + n /\
  rec_code (fst (shr r e n)) = qcode a (b * 2 ^ n) /\
  0 <= shr_m (fst (shr r e n)).
Proof.
  intros Hn Hb Hm Hr. destruct n as [|p|p]; [| |lia]; simpl shr.
  - simpl. rewrite Z.add_0_r, Z.mul_1_r. auto.
  - simpl fst. simpl snd. rewrite iter_pos_nat.
    destruct (shr_iter_code a b (Pos.to_nat p) r Hb Hm Hr) as [Hc Hp].
    rewrite positive_nat_Z in Hc. auto.
Qed.

(** The second shift of [binary_round_aux]: a mantissa that rounding has
    carried to [2 ^ 53] is brought back to [2 ^ 52]. *)
Lemma renormalize_spec M e :
  2 ^ 52 <= M <= 2 ^ 53 -> -1074 <= e ->
  (shr_m (fst (shr_fexp 53 1024 M e loc_Exact)), snd (shr_fexp 53 1024 M e loc_Exact)) =
    if M <? 2 ^ 53 then (M, e) else (2 ^ 52, e + 1).
Proof.
  intros HM He. unfold shr_fexp.
  rewrite Zdigits2_log2 by lia.
  destruct (M <? 2 ^ 53) eqn:E.
  - apply Z.ltb_lt in E.
    assert (Hl : Z.log2 M = 52) by (apply Z.log2_unique; lia).
    rewrite Hl, fexp_normal by lia.
    replace (52 + 1 + e - 53 - e) with 0 by lia. reflexivity.
  - apply Z.ltb_ge in E. assert (HM' : M = 2 ^ 53) by lia. subst M.
    rewrite Z.log2_pow2, fexp_normal by lia.
    replace (53 + 1 + e - 53 - e) with 1 by lia. reflexivity.
Qed.

(** [binary_round_aux] on a positive mantissa of at least 53 digits, away
    from underflow and overflow: the located rational is divided by
    [2 ^ n], rounded to the nearest integer with ties to even, and
    renormalized. *)
Lemma binary_round_aux_spec mx ex lx a b :
  0 < mx -> 0 < b ->
  4 * mx + loc_code lx = qcode a b ->
  let n := Z.log2 mx + 1 - 53 in
  0 <= n -> -1074 <= ex + n -> ex + n + 1 <= 971 ->
  let M := rne (qcode a (b * 2 ^ n)) in
  2 ^ 52 <= M <= 2 ^ 53 /\
  binary_round_aux 53 1024 false mx ex lx =
    if M <? 2 ^ 53 then S754_finite false (Z.to_pos M) (ex + n)
    else S754_finite false (Z.to_pos (2 ^ 52)) (ex + n + 1).
Proof.
  intros Hmx Hb Hcode n Hn Hlo Hhi M.
  assert (Hshift : fexp 53 1024 (Zdigits2 mx + ex) - ex = n).
  { rewrite Zdigits2_log2, fexp_normal by lia. lia. }
  destruct (shr_spec (shr_record_of_loc mx lx) ex n a b Hn Hb) as (He & Hc & Hp).
  { destruct lx as [|[]]; simpl; lia. }
  { rewrite rec_code_of_loc. exact Hcode. }
  assert (HM : 2 ^ 52 <= M <= 2 ^ 53).
  { pose proof (rne_bounds (qcode a (b * 2 ^ n))) as Hb2. fold M in Hb2.
    assert (Hpow : 0 < 2 ^ n) by (apply Z.pow_pos_nonneg; lia).
    rewrite qcode_div4 in Hb2 by nia.
    rewrite <- Z.div_div in Hb2 by lia.
    rewrite <- (qcode_div4 a b Hb), <- Hcode in Hb2.
    assert (Hd4 : (4 * mx + loc_code lx) / 4 = mx)
      by (apply rne_code; destruct lx as [|[]]; simpl; lia).
    rewrite Hd4 in Hb2.
    pose proof (Z.log2_spec mx Hmx) as Hl.
    replace (Z.log2 mx) with (52 + n) in Hl by lia.
    replace (Z.succ (52 + n)) with (53 + n) in Hl by lia.
    rewrite !Z.pow_add_r in Hl by lia.
    assert (2 ^ 52 <= mx / 2 ^ n) by (apply Z.div_le_lower_bound; lia).
    assert (mx / 2 ^ n < 2 ^ 53) by (apply Z.div_lt_upper_bound; lia).
    lia. }
  split; [exact HM|].
  unfold binary_round_aux. unfold shr_fexp at 1. rewrite Hshift.
  destruct (shr (shr_record_of_loc mx lx) ex n) as [mrs' e'] eqn:Es.
  simpl in He, Hc, Hp. subst e'.
  rewrite round_nearest_even_rec, Hc. fold M.
  pose proof (renormalize_spec M (ex + n) HM Hlo) as Hr.
  destruct (shr_fexp 53 1024 M (ex + n) loc_Exact) as [mrs'' e''].
  simpl in Hr.
  destruct (M <? 2 ^ 53) eqn:E; injection Hr as Hm He'; rewrite Hm, He'.
  - destruct M as [|pm|pm]; try lia.
    replace (ex + n <=? 1024 - 53) with true by (symmetry; apply Z.leb_le; lia).
    reflexivity.
  - replace (ex + n + 1 <=? 1024 - 53) with true by (symmetry; apply Z.leb_le; lia).
    reflexivity.
Qed.

Lemma new_location_code a b :
  0 <= a -> 0 < b ->
  4 * (a / b) + loc_code (new_location b (a mod b)) = qcode a b.
Proof.
  intros Ha Hb.
  pose proof (Z.div_mod a b ltac:(lia)) as Hdm.
  pose proof (Z.mod_pos_bound a b Hb) as Hr.
  set (q := a / b) in *. set (r := a mod b) in *.
  assert (Hq : forall h s, 0 <= s < b -> 2 * a = b * h + s ->
                           2 * a / b = h /\ 2 * a mod b = s).
  { intros h s Hs Heq. split.
    - symmetry. apply (Z.div_unique_pos _ _ h s); lia.
    - symmetry. apply (Z.mod_unique_pos _ _ h s); lia. }
  unfold qcode, new_location.
  change (IntDef.Z.even b) with (Z.even b).
  destruct (Z.even b) eqn:Eb; unfold new_location_even, new_location_odd;
    destruct (r =? 0) eqn:Er.
  - apply Z.eqb_eq in Er.
    destruct (Hq (2 * q) 0 ltac:(lia) ltac:(lia)) as [-> ->]. simpl. lia.
  - apply Z.eqb_neq in Er.
    destruct (Z.compare_spec (2 * r) b) as [Hc|Hc|Hc].
    + destruct (Hq (2 * q + 1) 0 ltac:(lia) ltac:(lia)) as [-> ->]. simpl. lia.
    + destruct (Hq (2 * q) (2 * r) ltac:(lia) ltac:(lia)) as [-> ->].
      replace (2 * r =? 0) with false by (symmetry; apply Z.eqb_neq; lia).
      simpl. lia.
    + destruct (Hq (2 * q + 1) (2 * r - b) ltac:(lia) ltac:(lia)) as [-> ->].
      replace (2 * r - b =? 0) with false by (symmetry; apply Z.eqb_neq; lia).
      simpl. lia.
  - apply Z.eqb_eq in Er.
    destruct (Hq (2 * q) 0 ltac:(lia) ltac:(lia)) as [-> ->]. simpl. lia.
  - apply Z.eqb_neq in Er.
    assert (Hodd : 2 * r <> b).
    { intros Heq. rewrite <- Heq, Z.even_mul in Eb. discriminate. }
    destruct (Z.compare_spec (2 * r + 1) b) as [Hc|Hc|Hc].
    + destruct (Hq (2 * q) (2 * r) ltac:(lia) ltac:(lia)) as [-> ->].
      replace (2 * r =? 0) with false by (symmetry; apply Z.eqb_neq; lia).
      simpl. lia.
    + destruct (Hq (2 * q) (2 * r) ltac:(lia) ltac:(lia)) as [-> ->].
      replace (2 * r =? 0) with false by (symmetry; apply Z.eqb_neq; lia).
      simpl. lia.
    + destruct (Hq (2 * q + 1) (2 * r - b) ltac:(lia) ltac:(lia)) as [-> ->].
      replace (2 * r - b =? 0) with false by (symmetry; apply Z.eqb_neq; lia).
      simpl. lia.
Qed.

Lemma qcode_one a : qcode a 1 = 4 * a.
Proof. unfold qcode. rewrite Z.div_1_r, Z.mod_1_r. simpl. lia. Qed.

(** ** Normal numbers as pairs of a mantissa and an exponent *)

Lemma normal_is_normal M E : 2 ^ 52 <= M <= 2 ^ 53 -> is_normal (normal M E).
Proof. intros H. unfold normal, is_normal. destruct (M <? 2 ^ 53) eqn:E1; simpl; lia. Qed.

Lemma binary_round_aux_fl mx ex lx a b :
  0 < mx -> 0 < b ->
  4 * mx + loc_code lx = qcode a b ->
  let n := Z.log2 mx - 52 in
  0 <= n -> -1074 <= ex + n -> ex + n + 1 <= 971 ->
  let p := normal (rne (qcode a (b * 2 ^ n))) (ex + n) in
  is_normal p /\ binary_round_aux 53 1024 false mx ex lx = fl p.
Proof.
  intros Hmx Hb Hcode n Hn Hlo Hhi p.
  destruct (binary_round_aux_spec mx ex lx a b Hmx Hb Hcode) as [HM Heq]; try lia.
  replace (Z.log2 mx + 1 - 53) with n in HM, Heq by lia.
  split; [apply normal_is_normal, HM|].
  rewrite Heq. unfold p, normal, fl.
  destruct (rne (qcode a (b * 2 ^ n)) <? 2 ^ 53); reflexivity.
Qed.

Lemma norm_m_bounds k : 0 < k < 2 ^ 53 -> 2 ^ 52 <= norm_m k < 2 ^ 53.
Proof.
  intros Hk. unfold norm_m.
  pose proof (Z.log2_spec k ltac:(lia)) as Hl.
  assert (Hl53 : Z.log2 k < 53) by (apply Z.log2_lt_pow2; lia).
  pose proof (Z.log2_nonneg k).
  replace (2 ^ 52) with (2 ^ Z.log2 k * 2 ^ (52 - Z.log2 k))
    by (rewrite <- Z.pow_add_r by lia; f_equal; lia).
  replace (2 ^ 53) with (2 ^ Z.succ (Z.log2 k) * 2 ^ (52 - Z.log2 k))
    by (rewrite <- Z.pow_add_r by lia; f_equal; lia).
  assert (0 < 2 ^ (52 - Z.log2 k)) by (apply Z.pow_pos_nonneg; lia).
  nia.
Qed.

Lemma pos_iter_xO p d : Zpos (Pos.iter xO p d) = Zpos p * 2 ^ Zpos d.
Proof.
  rewrite Pos2Nat.inj_iter, <- (positive_nat_Z d).
  induction (Pos.to_nat d) as [|n IH]; [simpl; lia|].
  cbn [nat_rect]. rewrite Nat2Z.inj_succ, Z.pow_succ_r, Pos2Z.inj_xO, IH by lia. lia.
Qed.

Lemma of_int_spec k :
  0 < k < 2 ^ 53 -> PyFloat.of_int k = fl (norm_m k, norm_e k).
Proof.
  intros Hk. pose proof (norm_m_bounds k Hk) as Hm.
  assert (Hl53 : Z.log2 k < 53) by (apply Z.log2_lt_pow2; lia).
  pose proof (Z.log2_nonneg k) as Hl0.
  destruct k as [|p|p]; try lia.
  unfold PyFloat.of_int, binary_normalize, binary_round, PyFloat.prec, PyFloat.emax.
  assert (Hd : Z.pos (digits2_pos p) = Z.log2 (Z.pos p) + 1)
    by (apply (Zdigits2_log2 (Z.pos p)); lia).
  rewrite Hd, Z.add_0_r, fexp_normal by lia.
  assert (Hal : Z.pos (fst (shl_align p 0 (Z.log2 (Z.pos p) + 1 - 53))) = norm_m (Z.pos p)
                /\ snd (shl_align p 0 (Z.log2 (Z.pos p) + 1 - 53)) = norm_e (Z.pos p)).
  { unfold shl_align, norm_m, norm_e. rewrite Z.sub_0_r.
    destruct (Z.log2 (Z.pos p) + 1 - 53) as [|d|d] eqn:Ed; try lia; simpl fst; simpl snd.
    - replace (52 - Z.log2 (Z.pos p)) with 0 by lia. lia.
    - rewrite pos_iter_xO. split; [f_equal; f_equal|]; lia. }
  destruct (shl_align p 0 (Z.log2 (Z.pos p) + 1 - 53)) as [mz ez].
  simpl in Hal. destruct Hal as [Hmz Hez].
  destruct (binary_round_aux_fl (Z.pos mz) ez loc_Exact (Z.pos mz) 1) as [_ Heq];
    try lia.
  - rewrite qcode_one. simpl. lia.
  - rewrite Hmz. assert (Z.log2 (norm_m (Z.pos p)) = 52) by (apply Z.log2_unique; lia). lia.
  - rewrite Hmz. assert (Z.log2 (norm_m (Z.pos p)) = 52) by (apply Z.log2_unique; lia).
    unfold norm_e in Hez. lia.
  - rewrite Hmz. assert (Z.log2 (norm_m (Z.pos p)) = 52) by (apply Z.log2_unique; lia).
    unfold norm_e in Hez. lia.
  - rewrite Heq. rewrite Hmz.
    assert (Hlog : Z.log2 (norm_m (Z.pos p)) = 52) by (apply Z.log2_unique; lia).
    rewrite Hlog. replace (52 - 52) with 0 by lia.
    rewrite Z.pow_0_r, Z.mul_1_r, qcode_one, rne_exact, Z.add_0_r.
    unfold normal. replace (norm_m (Z.pos p) <? 2 ^ 53) with true
      by (symmetry; apply Z.ltb_lt; lia).
    rewrite Hez. reflexivity.
Qed.

Lemma div_eucl_div_mod a b : Z.div_eucl a b = (a / b, a mod b).
Proof. unfold Z.div, Z.modulo. destruct (Z.div_eucl a b). reflexivity. Qed.

Lemma SFdiv_core_spec m1 e1 m2 e2 :
  2 ^ 52 <= m1 < 2 ^ 53 -> 2 ^ 52 <= m2 < 2 ^ 53 -> -1074 <= e1 - e2 - 53 ->
  SFdiv_core_binary 53 1024 m1 e1 m2 e2 =
    (m1 * 2 ^ 53 / m2, e1 - e2 - 53, new_location m2 (m1 * 2 ^ 53 mod m2)).
Proof.
  intros H1 H2 He. unfold SFdiv_core_binary.
  rewrite !Zdigits2_log2 by lia.
  assert (Hl1 : Z.log2 m1 = 52) by (apply Z.log2_unique; lia).
  assert (Hl2 : Z.log2 m2 = 52) by (apply Z.log2_unique; lia).
  rewrite Hl1, Hl2, fexp_normal by lia.
  replace (Z.min (52 + 1 + e1 - (52 + 1 + e2) - 53) (e1 - e2)) with (e1 - e2 - 53) by lia.
  replace (e1 - e2 - (e1 - e2 - 53)) with 53 by lia.
  cbv iota. rewrite Z.shiftl_mul_pow2 by lia.
  rewrite div_eucl_div_mod. reflexivity.
Qed.

Lemma div_spec p1 p2 :
  is_normal p1 -> is_normal p2 -> -52 <= snd p1 <= 0 -> -52 <= snd p2 <= 0 ->
  is_normal (div_pair p1 p2) /\ PyFloat.div (fl p1) (fl p2) = fl (div_pair p1 p2).
Proof.
  destruct p1 as [m1 e1], p2 as [m2 e2]. unfold is_normal. simpl fst. simpl snd.
  intros H1 H2 He1 He2.
  unfold PyFloat.div, fl, SFdiv, PyFloat.prec, PyFloat.emax. simpl fst. simpl snd.
  rewrite !Z2Pos.id by lia. rewrite SFdiv_core_spec by lia. simpl xorb.
  set (a := m1 * 2 ^ 53).
  assert (Hq : 2 ^ 52 <= a / m2 < 2 ^ 54).
  { split.
    - apply Z.div_le_lower_bound; [lia|]. unfold a. nia.
    - apply Z.div_lt_upper_bound; [lia|]. unfold a. nia. }
  assert (Hl : 52 <= Z.log2 (a / m2) < 54).
  { split; [apply Z.log2_le_pow2; lia | apply Z.log2_lt_pow2; lia]. }
  destruct (binary_round_aux_fl (a / m2) (e1 - e2 - 53)
              (new_location m2 (a mod m2)) a m2) as [Hn Heq]; try lia.
  - apply new_location_code; unfold a; lia.
  - unfold div_pair. simpl fst. simpl snd. fold a. auto.
Qed.

Lemma mul_spec p1 p2 :
  is_normal p1 -> is_normal p2 -> -1000 <= snd p1 + snd p2 <= 900 ->
  is_normal (mul_pair p1 p2) /\ PyFloat.mul (fl p1) (fl p2) = fl (mul_pair p1 p2).
Proof.
  destruct p1 as [m1 e1], p2 as [m2 e2]. unfold is_normal. simpl fst. simpl snd.
  intros H1 H2 He.
  unfold PyFloat.mul, fl, SFmul, PyFloat.prec, PyFloat.emax. simpl fst. simpl snd.
  simpl xorb. rewrite Pos2Z.inj_mul, !Z2Pos.id by lia.
  assert (Ha : 2 ^ 104 <= m1 * m2 < 2 ^ 106).
  { change (2 ^ 104) with (2 ^ 52 * 2 ^ 52). change (2 ^ 106) with (2 ^ 53 * 2 ^ 53). nia. }
  assert (Hl : 104 <= Z.log2 (m1 * m2) < 106).
  { split; [apply Z.log2_le_pow2; lia | apply Z.log2_lt_pow2; lia]. }
  destruct (binary_round_aux_fl (m1 * m2) (e1 + e2) loc_Exact (m1 * m2) 1)
    as [Hn Heq]; try lia.
  - rewrite qcode_one. simpl. lia.
  - unfold mul_pair. simpl fst. simpl snd.
    rewrite Z.mul_1_l in Hn, Heq. auto.
Qed.

Lemma to_int_fl p : 0 < fst p -> PyFloat.to_int (fl p) = Some (int_of_pair p).
Proof.
  destruct p as [m e]. simpl fst. intros Hm.
  unfold PyFloat.to_int, fl, int_of_pair. simpl fst. simpl snd. f_equal.
  destruct e as [|q|q].
  - simpl Z.ltb. cbv iota. rewrite Z.shiftl_mul_pow2, Z2Pos.id by lia. reflexivity.
  - replace (Z.pos q <? 0) with false by (symmetry; apply Z.ltb_ge; lia).
    rewrite Z.shiftl_mul_pow2, Z2Pos.id by lia. reflexivity.
  - replace (Z.neg q <? 0) with true by (symmetry; apply Z.ltb_lt; lia).
    rewrite Z.shiftr_div_pow2, Z2Pos.id by lia. reflexivity.
Qed.

(** ** The order of normal numbers *)

Lemma rne_qcode_bounds a b :
  0 < b -> 2 ^ 52 * b <= a < 2 ^ 53 * b -> 2 ^ 52 <= rne (qcode a b) <= 2 ^ 53.
Proof.
  intros Hb Ha. pose proof (rne_bounds (qcode a b)) as H.
  rewrite qcode_div4 in H by lia.
  assert (2 ^ 52 <= a / b) by (apply Z.div_le_lower_bound; lia).
  assert (a / b < 2 ^ 53) by (apply Z.div_lt_upper_bound; lia).
  lia.
Qed.

Lemma round_pair_mono a b E a' b' E' :
  0 < b -> 0 < b' ->
  2 ^ 52 * b <= a < 2 ^ 53 * b -> 2 ^ 52 * b' <= a' < 2 ^ 53 * b' ->
  E < E' \/ (E = E' /\ a * b' <= a' * b) ->
  pair_le (normal (rne (qcode a b)) E) (normal (rne (qcode a' b')) E').
Proof.
  intros Hb Hb' Ha Ha' Hle.
  pose proof (rne_qcode_bounds a b Hb Ha) as HM.
  pose proof (rne_qcode_bounds a' b' Hb' Ha') as HM'.
  assert (Hmono : E = E' -> rne (qcode a b) <= rne (qcode a' b')).
  { intros HE. apply rne_mono, qcode_mono; lia. }
  unfold pair_le, normal.
  destruct (rne (qcode a b) <? 2 ^ 53) eqn:E1;
    destruct (rne (qcode a' b') <? 2 ^ 53) eqn:E2; simpl fst; simpl snd;
    try apply Z.ltb_lt in E1; try apply Z.ltb_ge in E1;
    try apply Z.ltb_lt in E2; try apply Z.ltb_ge in E2; lia.
Qed.

Lemma log2_bracket a l :
  0 < a -> Z.log2 a = l -> 2 ^ l <= a < 2 ^ (l + 1).
Proof. intros Ha <-. apply (Z.log2_spec a Ha). Qed.

Lemma norm_e_bounds k : 0 < k < 2 ^ 53 -> -52 <= norm_e k <= 0.
Proof.
  intros Hk. unfold norm_e. pose proof (Z.log2_nonneg k).
  assert (Z.log2 k < 53) by (apply Z.log2_lt_pow2; lia). lia.
Qed.

(** The located quotient of two normal mantissas. *)
Lemma div_pair_frame m1 m2 :
  2 ^ 52 <= m1 < 2 ^ 53 -> 2 ^ 52 <= m2 < 2 ^ 53 ->
  let a := m1 * 2 ^ 53 in
  let n := Z.log2 (a / m2) - 52 in
  0 <= n <= 1 /\ (n = 1 <-> m2 <= m1) /\
  2 ^ 52 * (m2 * 2 ^ n) <= a < 2 ^ 53 * (m2 * 2 ^ n).
Proof.
  intros H1 H2 a n.
  assert (Hq : 2 ^ 52 <= a / m2 < 2 ^ 54).
  { split.
    - apply Z.div_le_lower_bound; [lia|]. unfold a. nia.
    - apply Z.div_lt_upper_bound; [lia|]. unfold a. nia. }
  assert (Hl : 52 <= Z.log2 (a / m2) < 54).
  { split; [apply Z.log2_le_pow2; lia | apply Z.log2_lt_pow2; lia]. }
  pose proof (Z.mul_div_le a m2 ltac:(lia)) as Hlo.
  pose proof (Z.mul_succ_div_gt a m2 ltac:(lia)) as Hhi.
  destruct (Z.eq_dec (Z.log2 (a / m2)) 52) as [H52|H52].
  - pose proof (log2_bracket (a / m2) 52 ltac:(lia) H52) as Hb. simpl Z.add in Hb.
    assert (Hn : n = 0) by (unfold n; lia). rewrite Hn.
    change (2 ^ 0) with 1. rewrite Z.mul_1_r.
    split; [lia|]. split; [|nia].
    split; [lia|]. intros Hm. exfalso. unfold a in *. nia.
  - assert (H53 : Z.log2 (a / m2) = 53) by lia.
    pose proof (log2_bracket (a / m2) 53 ltac:(lia) H53) as Hb. simpl Z.add in Hb.
    assert (Hn : n = 1) by (unfold n; lia). rewrite Hn.
    change (2 ^ 1) with 2.
    split; [lia|]. split; [|nia].
    split; [|reflexivity]. intros _. unfold a in *. nia.
Qed.

Lemma norm_m_mono k k' :
  0 < k <= k' -> Z.log2 k = Z.log2 k' -> norm_m k <= norm_m k'.
Proof.
  intros Hk Hl. unfold norm_m. rewrite Hl.
  apply Z.mul_le_mono_nonneg_r; [apply Z.pow_nonneg|]; lia.
Qed.

(** The quotient grows with the numerator. *)
Lemma div_pair_mono k k' N :
  0 < k <= k' -> k' < 2 ^ 53 -> 0 < N < 2 ^ 53 ->
  pair_le (div_pair (norm_m k, norm_e k) (norm_m N, norm_e N))
          (div_pair (norm_m k', norm_e k') (norm_m N, norm_e N)).
Proof.
  intros Hk Hk' HN.
  pose proof (norm_m_bounds k ltac:(lia)) as Hm.
  pose proof (norm_m_bounds k' ltac:(lia)) as Hm'.
  pose proof (norm_m_bounds N HN) as HmN.
  destruct (div_pair_frame (norm_m k) (norm_m N) Hm HmN) as (Hn & Hn1 & Hfr).
  destruct (div_pair_frame (norm_m k') (norm_m N) Hm' HmN) as (Hn' & Hn1' & Hfr').
  unfold div_pair. simpl fst. simpl snd.
  set (n := Z.log2 (norm_m k * 2 ^ 53 / norm_m N) - 52) in *.
  set (n' := Z.log2 (norm_m k' * 2 ^ 53 / norm_m N) - 52) in *.
  assert (Hpn : 0 < 2 ^ n) by (apply Z.pow_pos_nonneg; lia).
  assert (Hpn' : 0 < 2 ^ n') by (apply Z.pow_pos_nonneg; lia).
  apply round_pair_mono; try lia.
  assert (Hl : Z.log2 k <= Z.log2 k') by (apply Z.log2_le_mono; lia).
  unfold norm_e.
  destruct (Z.eq_dec (Z.log2 k) (Z.log2 k')) as [Heq|Hne].
  - pose proof (norm_m_mono k k' Hk Heq) as Hmm.
    assert (Hnn : n <= n') by lia.
    destruct (Z.eq_dec n n') as [Hn2|Hn2]; [|left; lia].
    right. split; [lia|]. rewrite <- Hn2. nia.
  - destruct (Z.eq_dec (Z.log2 k - Z.log2 N - 53 + n) (Z.log2 k' - Z.log2 N - 53 + n'))
      as [He|He]; [|left; lia].
    right. split; [lia|].
    assert (Hn2 : n = 1) by lia. assert (Hn2' : n' = 0) by lia.
    rewrite Hn2, Hn2'. change (2 ^ 1) with 2. change (2 ^ 0) with 1. nia.
Qed.

Lemma mul_pair_frame m1 m2 :
  2 ^ 52 <= m1 < 2 ^ 53 -> 2 ^ 52 <= m2 < 2 ^ 53 ->
  let a := m1 * m2 in
  let n := Z.log2 a - 52 in
  52 <= n <= 53 /\ 2 ^ 52 * 2 ^ n <= a < 2 ^ 53 * 2 ^ n.
Proof.
  intros H1 H2 a n.
  assert (Ha : 2 ^ 104 <= a < 2 ^ 106).
  { change (2 ^ 104) with (2 ^ 52 * 2 ^ 52). change (2 ^ 106) with (2 ^ 53 * 2 ^ 53).
    unfold a. nia. }
  assert (Hl : 104 <= Z.log2 a < 106).
  { split; [apply Z.log2_le_pow2; lia | apply Z.log2_lt_pow2; lia]. }
  split; [unfold n; lia|].
  pose proof (Z.log2_spec a ltac:(lia)) as Hs.
  replace (Z.log2 a) with (52 + n) in Hs by (unfold n; lia).
  replace (Z.succ (52 + n)) with (53 + n) in Hs by lia.
  rewrite !Z.pow_add_r in Hs by lia. exact Hs.
Qed.

(** The product with a normal number grows with the other factor. *)
Lemma mul_pair_mono p p' c :
  is_normal p -> is_normal p' -> is_normal c ->
  pair_le p p' -> pair_le (mul_pair p c) (mul_pair p' c).
Proof.
  destruct p as [m e], p' as [m' e'], c as [mc ec].
  unfold is_normal, pair_le. simpl fst. simpl snd. intros Hm Hm' Hc Hle.
  destruct (mul_pair_frame m mc Hm Hc) as (Hn & Hfr).
  destruct (mul_pair_frame m' mc Hm' Hc) as (Hn' & Hfr').
  unfold mul_pair. simpl fst. simpl snd.
  set (n := Z.log2 (m * mc) - 52) in *.
  set (n' := Z.log2 (m' * mc) - 52) in *.
  assert (Hpn : 0 < 2 ^ n) by (apply Z.pow_pos_nonneg; lia).
  assert (Hpn' : 0 < 2 ^ n') by (apply Z.pow_pos_nonneg; lia).
  apply round_pair_mono; try lia.
  destruct Hle as [Hlt|[Heq Hmm]].
  - destruct (Z.eq_dec (e + ec + n) (e' + ec + n')) as [He|He]; [|left; lia].
    right. split; [lia|].
    assert (Hn2 : n = 53) by lia. assert (Hn2' : n' = 52) by lia.
    rewrite Hn2, Hn2'. change (2 ^ 53) with (2 * 2 ^ 52). nia.
  - assert (Hnn : n <= n').
    { unfold n, n'. apply Z.sub_le_mono_r, Z.log2_le_mono. nia. }
    destruct (Z.eq_dec n n') as [Hn2|Hn2]; [|left; lia].
    right. split; [lia|]. rewrite <- Hn2. nia.
Qed.

Lemma int_of_pair_mono p p' :
  is_normal p -> is_normal p' -> snd p < 0 -> snd p' < 0 ->
  pair_le p p' -> int_of_pair p <= int_of_pair p'.
Proof.
  destruct p as [m e], p' as [m' e'].
  unfold is_normal, pair_le, int_of_pair. simpl fst. simpl snd. intros Hm Hm' He He' Hle.
  replace (e <? 0) with true by (symmetry; apply Z.ltb_lt; lia).
  replace (e' <? 0) with true by (symmetry; apply Z.ltb_lt; lia).
  destruct Hle as [Hlt|[Heq Hmm]].
  - assert (Hp : 0 < 2 ^ (- e')) by (apply Z.pow_pos_nonneg; lia).
    transitivity (m / 2 ^ (- e' + 1)).
    + apply Z.div_le_compat_l; [lia|]. split; [apply Z.pow_pos_nonneg; lia|].
      apply Z.pow_le_mono_r; lia.
    + transitivity (2 * m' / 2 ^ (- e' + 1)).
      * apply Z.div_le_mono; [apply Z.pow_pos_nonneg|]; lia.
      * rewrite Z.pow_add_r, (Z.mul_comm (2 ^ (- e')) (2 ^ 1)) by lia.
        change (2 ^ 1) with 2. rewrite Z.div_mul_cancel_l by lia. lia.
  - rewrite Heq. apply Z.div_le_mono; [apply Z.pow_pos_nonneg|]; lia.
Qed.

(** ** The progress value *)

Lemma div_pair_exp p1 p2 :
  is_normal p1 -> is_normal p2 ->
  snd p1 - snd p2 - 53 <= snd (div_pair p1 p2) <= snd p1 - snd p2 - 51.
Proof.
  intros H1 H2. destruct (div_pair_frame (fst p1) (fst p2) H1 H2) as (Hn & _ & _).
  unfold div_pair, normal.
  destruct (rne _ <? 2 ^ 53); simpl snd; lia.
Qed.

Lemma mul_pair_exp p c :
  is_normal p -> is_normal c -> snd (mul_pair p c) <= snd p + snd c + 54.
Proof.
  intros H1 H2. destruct (mul_pair_frame (fst p) (fst c) H1 H2) as (Hn & _).
  unfold mul_pair, normal.
  destruct (rne _ <? 2 ^ 53); simpl snd; lia.
Qed.

Lemma hundred_normal : is_normal hundred.
Proof. unfold is_normal. vm_compute. split; [discriminate | reflexivity]. Qed.

Lemma div_pair_self N :
  0 < N < 2 ^ 53 ->
  div_pair (norm_m N, norm_e N) (norm_m N, norm_e N) = (2 ^ 52, -52).
Proof.
  intros HN. pose proof (norm_m_bounds N HN) as Hm.
  unfold div_pair. simpl fst. simpl snd. set (m := norm_m N) in *.
  replace (m * 2 ^ 53 / m) with (2 ^ 53) by (rewrite Z.mul_comm, Z.div_mul; lia).
  change (Z.log2 (2 ^ 53) - 52) with 1.
  assert (Hc : qcode (m * 2 ^ 53) (m * 2 ^ 1) = 4 * 2 ^ 52).
  { unfold qcode.
    replace (2 * (m * 2 ^ 53)) with (2 ^ 53 * (m * 2 ^ 1)) by (change (2 ^ 1) with 2; lia).
    rewrite Z.div_mul, Z.mod_mul by (change (2 ^ 1) with 2; lia). reflexivity. }
  rewrite Hc, rne_exact. unfold normal. simpl. f_equal. lia.
Qed.

Lemma progress_pair_facts k N :
  0 < k <= N -> N < 2 ^ 53 ->
  let d := div_pair (norm_m k, norm_e k) (norm_m N, norm_e N) in
  is_normal d /\ -105 <= snd d <= -52 /\
  PyFloat.div (PyFloat.of_int k) (PyFloat.of_int N) = fl d /\
  is_normal (progress_pair k N) /\ snd (progress_pair k N) < 0 /\
  PyFloat.mul (fl d) (PyFloat.of_int 100) = fl (progress_pair k N).
Proof.
  intros Hk HN d.
  pose proof (norm_m_bounds k ltac:(lia)) as Hmk.
  pose proof (norm_m_bounds N ltac:(lia)) as HmN.
  pose proof (norm_e_bounds k ltac:(lia)) as Hek.
  pose proof (norm_e_bounds N ltac:(lia)) as HeN.
  destruct (div_spec (norm_m k, norm_e k) (norm_m N, norm_e N)) as [Hnd Hdiv]; auto.
  fold d in Hnd, Hdiv.
  pose proof (div_pair_exp (norm_m k, norm_e k) (norm_m N, norm_e N) Hmk HmN) as Hexp.
  fold d in Hexp. simpl snd in Hexp.
  assert (Hle : pair_le d (2 ^ 52, -52)).
  { rewrite <- (div_pair_self N ltac:(lia)). apply div_pair_mono; lia. }
  assert (Hd52 : snd d <= -52) by (destruct Hle as [H|[H _]]; simpl snd in H; lia).
  pose proof hundred_normal as Hh.
  destruct (mul_spec d hundred Hnd Hh) as [Hnp Hmul].
  { change (snd hundred) with (-46). lia. }
  pose proof (mul_pair_exp d hundred Hnd Hh) as Hpe. change (snd hundred) with (-46) in Hpe.
  split; [exact Hnd|]. split; [lia|]. split.
  - rewrite !of_int_spec by lia. exact Hdiv.
  - split; [exact Hnp|]. split; [unfold progress_pair; fold d; lia|].
    rewrite (of_int_spec 100) by (split; [lia|reflexivity]). exact Hmul.
Qed.

(** The value of [int((i + 1) / total_files * 100)] inside the loop. *)
Lemma progress_value_spec i N :
  0 <= i < N -> N < 2 ^ 53 ->
  progress_value i N = Ok (int_of_pair (progress_pair (i + 1) N)).
Proof.
  intros Hi HN.
  destruct (progress_pair_facts (i + 1) N ltac:(lia) HN) as (_ & _ & Hdiv & Hnp & _ & Hmul).
  unfold progress_value, true_div.
  replace (N =? 0) with false by (symmetry; apply Z.eqb_neq; lia).
  rewrite Hdiv, Hmul. unfold float_to_int.
  rewrite to_int_fl by (unfold is_normal in Hnp; lia). reflexivity.
Qed.

Lemma progress_pair_mono k k' N :
  0 < k <= k' -> k' <= N -> N < 2 ^ 53 ->
  int_of_pair (progress_pair k N) <= int_of_pair (progress_pair k' N).
Proof.
  intros Hk Hk' HN.
  destruct (progress_pair_facts k N ltac:(lia) HN) as (Hd & _ & _ & Hp & He & _).
  destruct (progress_pair_facts k' N ltac:(lia) HN) as (Hd' & _ & _ & Hp' & He' & _).
  apply int_of_pair_mono; auto.
  apply mul_pair_mono; auto using hundred_normal.
  apply div_pair_mono; lia.
Qed.

Lemma progress_pair_last N :
  0 < N < 2 ^ 53 -> int_of_pair (progress_pair N N) = 100.
Proof.
  intros HN. unfold progress_pair. rewrite div_pair_self by lia.
  vm_compute. reflexivity.
Qed.

Lemma progress_pair_nonneg k N :
  0 < k <= N -> N < 2 ^ 53 -> 0 <= int_of_pair (progress_pair k N).
Proof.
  intros Hk HN.
  destruct (progress_pair_facts k N Hk HN) as (_ & _ & _ & Hp & He & _).
  unfold int_of_pair. replace (snd (progress_pair k N) <? 0) with true
    by (symmetry; apply Z.ltb_lt; lia).
  apply Z.div_pos; [unfold is_normal in Hp; lia|].
  apply Z.pow_pos_nonneg; lia.
Qed.

(** ** The distance between the progress value and the exact quotient *)

(** Rounding to nearest is off by at most one half. *)
Lemma rne_error a b :
  0 <= a -> 0 < b -> 2 * Z.abs (rne (qcode a b) * b - a) <= b.
Proof.
  intros Ha Hb.
  pose proof (Z.div_mod (2 * a) b ltac:(lia)) as Hh.
  pose proof (Z.mod_pos_bound (2 * a) b Hb) as Hrho.
  unfold rne, qcode.
  set (h := 2 * a / b) in *. set (rho := 2 * a mod b) in *.
  set (sg := if rho =? 0 then 0 else 1).
  assert (Hsg : (sg = 0 /\ rho = 0) \/ (sg = 1 /\ 0 < rho)).
  { unfold sg. destruct (rho =? 0) eqn:E; [apply Z.eqb_eq in E|apply Z.eqb_neq in E]; lia. }
  pose proof (Z.div_mod (2 * h + sg) 4 ltac:(lia)) as Hq.
  pose proof (Z.mod_pos_bound (2 * h + sg) 4 ltac:(lia)) as Hc.
  set (q := (2 * h + sg) / 4) in *. set (c := (2 * h + sg) mod 4) in *.
  assert (Hcases : (c = 0 /\ h = 2 * q /\ sg = 0) \/ (c = 1 /\ h = 2 * q /\ sg = 1) \/
                   (c = 2 /\ h = 2 * q + 1 /\ sg = 0) \/ (c = 3 /\ h = 2 * q + 1 /\ sg = 1))
    by lia.
  destruct Hcases as [(Hc0 & Hh0 & Hs0) | [(Hc0 & Hh0 & Hs0) | [(Hc0 & Hh0 & Hs0) | (Hc0 & Hh0 & Hs0)]]];
    rewrite Hc0; rewrite Hh0 in Hh; clearbody h rho sg q c; cbn.
  - nia.
  - nia.
  - destruct (Z.even q); nia.
  - nia.
Qed.

(** A normalized pair has the value of the pair it comes from. *)
Lemma normal_cases M0 E0 :
  2 ^ 52 <= M0 <= 2 ^ 53 ->
  (normal M0 E0 = (M0, E0)) \/ (normal M0 E0 = (2 ^ 52, E0 + 1) /\ M0 = 2 ^ 53).
Proof.
  intros H. unfold normal. destruct (M0 <? 2 ^ 53) eqn:E; [left; reflexivity|].
  apply Z.ltb_ge in E. right. split; [reflexivity|lia].
Qed.

Lemma div_error k N :
  0 < k <= N -> N < 2 ^ 53 ->
  let d := div_pair (norm_m k, norm_e k) (norm_m N, norm_e N) in
  52 <= - snd d /\ 2 * Z.abs (fst d * N - k * 2 ^ (- snd d)) <= N.
Proof.
  intros Hk HN d.
  destruct (progress_pair_facts k N Hk HN) as (_ & Hexp & _).
  fold d in Hexp. split; [lia|].
  pose proof (norm_m_bounds k ltac:(lia)) as Hmk.
  pose proof (norm_m_bounds N ltac:(lia)) as HmN.
  destruct (div_pair_frame (norm_m k) (norm_m N) Hmk HmN) as (Hn & _ & Hfr).
  unfold d, div_pair in *. simpl fst in *. simpl snd in *.
  set (n := Z.log2 (norm_m k * 2 ^ 53 / norm_m N) - 52) in *.
  set (E0 := norm_e k - norm_e N - 53 + n) in *.
  assert (Hpn : 0 < 2 ^ n) by (apply Z.pow_pos_nonneg; lia).
  pose proof (rne_error (norm_m k * 2 ^ 53) (norm_m N * 2 ^ n) ltac:(lia) ltac:(nia)) as Herr.
  pose proof (rne_qcode_bounds (norm_m k * 2 ^ 53) (norm_m N * 2 ^ n) ltac:(nia) Hfr) as HM.
  set (M0 := rne (qcode (norm_m k * 2 ^ 53) (norm_m N * 2 ^ n))) in *.
  (* the exact quotient, scaled by the unit of the rounding *)
  assert (Hlk : 0 <= Z.log2 k < 53).
  { split; [apply Z.log2_nonneg | apply Z.log2_lt_pow2; lia]. }
  assert (HlN : 0 <= Z.log2 N < 53).
  { split; [apply Z.log2_nonneg | apply Z.log2_lt_pow2; lia]. }
  set (g := 2 ^ (52 - Z.log2 N + n)).
  assert (Hg : 0 < g) by (apply Z.pow_pos_nonneg; lia).
  assert (Hs0 : 0 <= - E0).
  { destruct (normal_cases M0 E0 HM) as [Hc | [Hc _]]; rewrite Hc in Hexp;
      simpl snd in Hexp; lia. }
  assert (Hb : norm_m N * 2 ^ n = g * N).
  { unfold norm_m, g. rewrite Z.pow_add_r by lia. lia. }
  assert (Ha : norm_m k * 2 ^ 53 = g * (k * 2 ^ (- E0))).
  { unfold norm_m, g.
    rewrite <- !Z.mul_assoc, <- Z.pow_add_r by lia.
    rewrite (Z.mul_comm (2 ^ _) (k * _)), <- !Z.mul_assoc, <- Z.pow_add_r by lia.
    f_equal. f_equal. unfold E0, norm_e. lia. }
  rewrite Ha, Hb in Herr.
  assert (Herr' : 2 * Z.abs (M0 * N - k * 2 ^ (- E0)) <= N).
  { replace (M0 * (g * N) - g * (k * 2 ^ (- E0))) with (g * (M0 * N - k * 2 ^ (- E0)))
      in Herr by lia.
    rewrite Z.abs_mul, (Z.abs_eq g) in Herr by lia. nia. }
  destruct (normal_cases M0 E0 HM) as [Hc | [Hc HM53]]; rewrite Hc in *;
    simpl fst; simpl snd in *.
  - exact Herr'.
  - replace (- E0) with (- (E0 + 1) + 1) in Herr' by lia.
    rewrite Z.pow_add_r in Herr' by lia. change (2 ^ 1) with 2 in Herr'.
    rewrite HM53 in Herr'. change (2 ^ 53) with (2 * 2 ^ 52) in Herr'. lia.
Qed.

Lemma mul_error d :
  is_normal d ->
  let P := mul_pair d hundred in
  let r := snd P - snd d in
  6 <= r <= 8 /\ 2 * Z.abs (fst P * 2 ^ r - 100 * fst d) <= 2 ^ r.
Proof.
  intros Hd P r. pose proof hundred_normal as Hh.
  destruct (mul_pair_frame (fst d) (fst hundred) Hd Hh) as (Hn & Hfr).
  unfold r, P, mul_pair in *. clear r P.
  set (n := Z.log2 (fst d * fst hundred) - 52) in *.
  assert (Hpn : 0 < 2 ^ n) by (apply Z.pow_pos_nonneg; lia).
  pose proof (rne_error (fst d * fst hundred) (2 ^ n)
                ltac:(unfold is_normal in Hd, Hh; nia) Hpn) as Herr.
  pose proof (rne_qcode_bounds (fst d * fst hundred) (2 ^ n) Hpn Hfr) as HM.
  set (M0 := rne (qcode (fst d * fst hundred) (2 ^ n))) in *.
  change (fst hundred) with (100 * 2 ^ 46) in Herr.
  change (snd hundred) with (-46).
  assert (Hsplit : 2 ^ n = 2 ^ 46 * 2 ^ (n - 46)).
  { rewrite <- Z.pow_add_r by lia. f_equal. lia. }
  assert (Hp6 : 0 < 2 ^ (n - 46)) by (apply Z.pow_pos_nonneg; lia).
  assert (Herr' : 2 * Z.abs (M0 * 2 ^ (n - 46) - 100 * fst d) <= 2 ^ (n - 46)).
  { rewrite Hsplit in Herr.
    replace (M0 * (2 ^ 46 * 2 ^ (n - 46)) - fst d * (100 * 2 ^ 46))
      with (2 ^ 46 * (M0 * 2 ^ (n - 46) - 100 * fst d)) in Herr by lia.
    rewrite Z.abs_mul, (Z.abs_eq (2 ^ 46)) in Herr by lia. lia. }
  destruct (normal_cases M0 (snd d + -46 + n) HM) as [Hc | [Hc HM53]]; rewrite Hc;
    simpl fst; simpl snd.
  - replace (snd d + -46 + n - snd d) with (n - 46) by lia. split; [lia|exact Herr'].
  - replace (snd d + -46 + n + 1 - snd d) with (n - 46 + 1) by lia. split; [lia|].
    rewrite Z.pow_add_r by lia. change (2 ^ 1) with 2.
    rewrite HM53 in Herr'. change (2 ^ 53) with (2 ^ 52 * 2) in Herr'. lia.
Qed.

(** A truncated quotient [Mp / T] that is close to [100 * k / N] is its
    floor, or one less when the exact quotient is an integer. *)
Lemma floor_of_close_quotient k N S T R Mp Md :
  0 < k <= N -> N < 2 ^ 44 ->
  2 ^ 52 <= S -> S = T * R -> 0 < T -> 64 <= R <= 256 ->
  2 * Z.abs (Md * N - k * S) <= N ->
  2 * Z.abs (Mp * R - 100 * Md) <= R ->
  100 * k / N - 1 <= Mp / T <= 100 * k / N /\
  ((100 * k) mod N <> 0 -> Mp / T = 100 * k / N).
Proof.
  intros Hk HN HS52 HS HT HR HA HB.
  pose proof (Z.div_mod Mp T ltac:(lia)) as Hvd.
  pose proof (Z.mod_pos_bound Mp T HT) as Hvm.
  pose proof (Z.div_mod (100 * k) N ltac:(lia)) as Hmd.
  pose proof (Z.mod_pos_bound (100 * k) N ltac:(lia)) as Hmm.
  set (v := Mp / T) in *. set (vr := Mp mod T) in *.
  set (m := 100 * k / N) in *. set (rem := (100 * k) mod N) in *.
  clearbody v vr m rem.
  set (X := Mp * R) in *.
  assert (HX : v * S <= X < (v + 1) * S).
  { assert (HXeq : X = v * S + vr * R) by (unfold X; rewrite HS, Hvd; ring).
    assert (0 <= vr * R) by (apply Z.mul_nonneg_nonneg; lia).
    assert (vr * R < T * R) by (apply Z.mul_lt_mono_pos_r; lia).
    rewrite HXeq, HS. lia. }
  clearbody X. clear Hvd Hvm vr.
  assert (HRN : R * N <= 256 * N) by (apply Z.mul_le_mono_nonneg_r; lia).
  assert (Hclose : 2 * Z.abs (X * N - 100 * (k * S)) <= (R + 100) * N).
  { replace (X * N - 100 * (k * S))
      with ((X - 100 * Md) * N + 100 * (Md * N - k * S)) by ring.
    pose proof (Z.abs_triangle ((X - 100 * Md) * N) (100 * (Md * N - k * S))) as Htri.
    rewrite !Z.abs_mul, (Z.abs_eq N), (Z.abs_eq 100) in Htri by lia.
    assert (2 * (Z.abs (X - 100 * Md) * N) <= R * N).
    { rewrite Z.mul_assoc. apply Z.mul_le_mono_nonneg_r; lia. }
    lia. }
  assert (H1 : 100 * (k * S) - S < X * N < 100 * (k * S) + S) by lia.
  clear Hclose HA HB HRN Md.
  assert (HSN : forall a b, a <= b -> a * S * N <= b * S * N).
  { intros a b Hab. apply Z.mul_le_mono_nonneg_r; [lia|].
    apply Z.mul_le_mono_nonneg_r; lia. }
  assert (HXN : forall a, a * S <= X -> a * S * N <= X * N)
    by (intros a Ha; apply Z.mul_le_mono_nonneg_r; lia).
  assert (HXN' : forall a, X < a * S -> X * N < a * S * N)
    by (intros a Ha; apply Z.mul_lt_mono_pos_r; lia).
  assert (HmS : m * S * N = 100 * (k * S) - rem * S).
  { replace (100 * (k * S)) with (100 * k * S) by ring. rewrite Hmd. ring. }
  assert (HremS : 0 <= rem * S) by (apply Z.mul_nonneg_nonneg; lia).
  assert (HremS' : rem * S + S <= N * S).
  { replace (rem * S + S) with ((rem + 1) * S) by ring.
    apply Z.mul_le_mono_nonneg_r; lia. }
  assert (Hup : v <= m).
  { destruct (Z_le_gt_dec v m) as [H|H]; [exact H|exfalso].
    pose proof (HSN (m + 1) v ltac:(lia)) as H2.
    pose proof (HXN v ltac:(lia)) as H3.
    replace ((m + 1) * S * N) with (m * S * N + N * S) in H2 by ring. lia. }
  assert (Hlow : m - 1 <= v).
  { destruct (Z_le_gt_dec (m - 1) v) as [H|H]; [exact H|exfalso].
    pose proof (HSN (v + 1) (m - 1) ltac:(lia)) as H2.
    pose proof (HXN' (v + 1) ltac:(lia)) as H3.
    replace ((m - 1) * S * N) with (m * S * N - N * S) in H2 by ring. lia. }
  split; [lia|]. intros Hrem.
  destruct (Z.eq_dec v m) as [H|H]; [exact H|exfalso].
  pose proof (HSN (v + 1) m ltac:(lia)) as H2.
  pose proof (HXN' (v + 1) ltac:(lia)) as H3.
  assert (S <= rem * S).
  { rewrite <- (Z.mul_1_l S) at 1. apply Z.mul_le_mono_nonneg_r; lia. }
  lia.
Qed.

(** The progress value is the floor of the exact quotient, or one less;
    it can be one less only when the exact quotient is an integer. *)
Lemma progress_floor k N :
  0 < k <= N -> N < 2 ^ 44 ->
  100 * k / N - 1 <= int_of_pair (progress_pair k N) <= 100 * k / N /\
  ((100 * k) mod N <> 0 -> int_of_pair (progress_pair k N) = 100 * k / N).
Proof.
  intros Hk HN.
  assert (HN53 : N < 2 ^ 53) by lia.
  destruct (progress_pair_facts k N Hk HN53) as (Hd & _ & _ & _ & Hneg & _).
  destruct (div_error k N Hk HN53) as [Hs HA].
  destruct (mul_error _ Hd) as [Hr HB].
  unfold progress_pair in *.
  remember (div_pair (norm_m k, norm_e k) (norm_m N, norm_e N)) as d eqn:Ed.
  remember (mul_pair d hundred) as P eqn:EP.
  clear Ed EP Hd.
  unfold int_of_pair.
  replace (snd P <? 0) with true by (symmetry; apply Z.ltb_lt; lia).
  apply (floor_of_close_quotient k N (2 ^ (- snd d)) (2 ^ (- snd P))
           (2 ^ (snd P - snd d)) (fst P) (fst d)); try assumption.
  - apply Z.pow_le_mono_r; lia.
  - rewrite <- Z.pow_add_r by lia. f_equal. lia.
  - apply Z.pow_pos_nonneg; lia.
  - change 64 with (2 ^ 6). change 256 with (2 ^ 8).
    split; apply Z.pow_le_mono_r; lia.
Qed.

(** ** The signals of a job *)

Lemma progress_values_lookup N i v :
  progress_values N !! i = Some v <->
  (i < N)%nat /\ v = int_of_pair (progress_pair (Z.of_nat i + 1) (Z.of_nat N)).
Proof.
  unfold progress_values. rewrite list_lookup_fmap. split.
  - intros H. destruct (seq 0 N !! i) as [j|] eqn:E; [|discriminate].
    apply lookup_seq in E as [-> Hlt]. apply (inj Some) in H. auto.
  - intros [Hlt ->]. rewrite (lookup_seq_lt 0 N i Hlt). reflexivity.
Qed.

Lemma all_ok_signals N (rs : list (result unit)) :
  List.length rs = N -> Z.of_nat N < 2 ^ 53 ->
  (forall n r, rs !! n = Some r -> r = Ok tt) ->
  signals_from (Z.of_nat N) 0 rs = Progress <$> progress_values N.
Proof.
  intros Hlen HN Hok. apply list_eq. intros i.
  rewrite signals_from_lookup, list_lookup_fmap. unfold progress_values.
  rewrite list_lookup_fmap.
  destruct (rs !! i) as [r|] eqn:E.
  - assert (Hlt : (i < N)%nat) by (rewrite <- Hlen; eapply lookup_lt_Some, E).
    rewrite (Hok i r E), (lookup_seq_lt 0 N i Hlt). simpl.
    rewrite progress_value_spec by lia. reflexivity.
  - assert (Hge : (N <= i)%nat) by (rewrite <- Hlen; apply lookup_ge_None, E).
    rewrite (lookup_seq_ge 0 N i Hge). reflexivity.
Qed.

(** C1, as stated, fails: in a job of three files that all convert, the
    second progress value is 66, not [round(2 / 3 * 100) = 67]. *)
Lemma C1_counterexample :
  let self := Worker ["a.jpg"; "b.jpg"; "c.jpg"] "out" "DXT1" in
  fst (start (sim_env 0) self three_photos_world) =
    [Progress 33; Progress 66; Progress 100; Finished] /\
  claimed_progress 1 3 = Ok 67 /\
  fst (start (sim_env 0) self three_photos_world) !! 1%nat <> Some (Progress 67).
Proof. vm_compute. repeat split. discriminate. Qed.

(** C1, amended. In a job of [N] files (fewer than [2 ^ 53]) that all
    convert successfully, the worker emits [N] progress signals and then the
    completion; the [i]-th carries [int((i + 1) / N * 100)], the binary64
    value truncated; the values never decrease; and the last one is 100. *)
Theorem C1_progress_of_successful_job env self w :
  let N := List.length (files self) in
  let sigs := fst (start env self w) in
  Z.of_nat N < 2 ^ 53 ->
  (forall n f,
     files self !! n = Some f ->
     fst (convert_to_dds env self f (output_path_of self f)
            (world_after env self (take n (files self)) w)) = Ok tt) ->
  exists vs : list Z,
    sigs = (Progress <$> vs) ++ [Finished] /\
    List.length vs = N /\
    (forall i v, vs !! i = Some v -> progress_value (Z.of_nat i) (Z.of_nat N) = Ok v) /\
    (forall i j v v', (i <= j)%nat -> vs !! i = Some v -> vs !! j = Some v' -> v <= v') /\
    ((0 < N)%nat -> vs !! (N - 1)%nat = Some 100).
Proof.
  intros N sigs HN Hok. exists (progress_values N).
  split; [|split; [|split; [|split]]].
  - unfold sigs. rewrite start_spec. simpl fst. f_equal.
    apply all_ok_signals; [apply outcomes_length|exact HN|].
    intros n r Hr.
    assert (Hlt : (n < List.length (files self))%nat).
    { rewrite <- (outcomes_length env self (files self) w). eapply lookup_lt_Some, Hr. }
    destruct (lookup_lt_is_Some_2 _ _ Hlt) as [f Hf].
    rewrite (outcomes_lookup env self _ w n f Hf) in Hr. injection Hr as <-.
    pose proof (Hok n f Hf) as H.
    destruct (fst (convert_to_dds env self f (output_path_of self f)
                     (world_after env self (take n (files self)) w))) as [[]|]; congruence.
  - unfold progress_values. rewrite length_fmap, length_seq. reflexivity.
  - intros i v Hv. apply progress_values_lookup in Hv as [Hlt ->].
    apply progress_value_spec; lia.
  - intros i j v v' Hij Hv Hv'.
    apply progress_values_lookup in Hv as [Hlt ->].
    apply progress_values_lookup in Hv' as [Hlt' ->].
    apply progress_pair_mono; lia.
  - intros Hpos. apply progress_values_lookup. split; [lia|].
    replace (Z.of_nat (N - 1) + 1) with (Z.of_nat N) by lia.
    symmetry. apply progress_pair_last. lia.
Qed.

Lemma C1_progress_of_successful_job_witness :
  let self := Worker ["a.jpg"; "b.jpg"; "c.jpg"] "out" "DXT1" in
  exists vs : list Z,
    fst (start (sim_env 0) self three_photos_world) = (Progress <$> vs) ++ [Finished] /\
    List.length vs = 3%nat /\ vs !! 2%nat = Some 100.
Proof.
  intros self.
  destruct (C1_progress_of_successful_job (sim_env 0) self three_photos_world)
    as (vs & Hs & Hl & _ & _ & Hlast).
  - vm_compute. reflexivity.
  - intros n f Hf.
    destruct n as [|[|[|n]]]; simpl in Hf; [..|discriminate];
      injection Hf as <-; vm_compute; reflexivity.
  - exists vs. split; [exact Hs|]. split; [exact Hl|]. apply Hlast. simpl. lia.
Defined.

(** C2, as stated, fails: a file whose conversion fails gets an error
    signal and no progress signal. *)
Lemma C2_counterexample :
  let self := Worker ["missing.png"] "out" "DXT1" in
  let sigs := fst (start (sim_env 0) self photo_world) in
  sigs = [Error ("Error converting missing.png: [Errno 2] No such file or directory: "
                 +:+ "'missing.png'"); Finished] /\
  forall v, ~ In (Progress v) sigs.
Proof.
  vm_compute. split; [reflexivity|].
  intros v [H|[H|[]]]; discriminate.
Qed.

(** The truncation is that of the binary64 value, which can be below the
    exact quotient: [int(29 / 100 * 100)] is 28. *)
Example progress_28_of_100 :
  progress_value 28 100 = Ok 28 /\ (28 + 1) * 100 / 100 = 29.
Proof. vm_compute. split; reflexivity. Qed.

(** C2, amended. In a job of fewer than [2 ^ 53] files, the turn of a file
    whose conversion succeeds reports [int((index + 1) / total * 100)], the
    binary64 value truncated, which lies between 0 and 100; below [2 ^ 44]
    files it is the exact quotient [100 * (index + 1) / total] rounded down,
    or one less than that when the exact quotient is an integer that the
    binary64 product falls short of; the turn of a file whose conversion
    fails reports the error and no progress. *)
Theorem C2_progress_is_truncated env self w n f :
  let N := List.length (files self) in
  let sigs := fst (start env self w) in
  let r := fst (convert_to_dds env self f (output_path_of self f)
                  (world_after env self (take n (files self)) w)) in
  Z.of_nat N < 2 ^ 53 ->
  files self !! n = Some f ->
  (r = Ok tt ->
   exists v, progress_value (Z.of_nat n) (Z.of_nat N) = Ok v /\
             sigs !! n = Some (Progress v) /\ 0 <= v <= 100 /\
             (Z.of_nat N < 2 ^ 44 ->
              let exact := 100 * (Z.of_nat n + 1) / Z.of_nat N in
              exact - 1 <= v <= exact /\
              ((100 * (Z.of_nat n + 1)) mod Z.of_nat N <> 0 -> v = exact))) /\
  (forall e, r = Raise e -> sigs !! n = Some (Error e)).
Proof.
  intros N sigs r HN Hf.
  assert (Hlt : (n < N)%nat) by (eapply lookup_lt_Some, Hf).
  pose proof (start_lookup env self w n f Hf) as Hs. fold sigs r N in Hs.
  split.
  - intros Hr. exists (int_of_pair (progress_pair (Z.of_nat n + 1) (Z.of_nat N))).
    pose proof (progress_value_spec (Z.of_nat n) (Z.of_nat N) ltac:(lia) HN) as Hv.
    split; [exact Hv|]. split.
    + rewrite Hs, Hr. simpl. rewrite Hv. reflexivity.
    + split; [|intros HN44; apply progress_floor; lia].
      split; [apply progress_pair_nonneg; lia|].
      rewrite <- (progress_pair_last (Z.of_nat N)) by lia.
      apply progress_pair_mono; lia.
  - intros e Hr. rewrite Hs, Hr. reflexivity.
Qed.

Lemma C2_progress_is_truncated_witness :
  let self := Worker ["a.jpg"; "missing.png"; "c.jpg"] "out" "DXT1" in
  let sigs := fst (start (sim_env 0) self three_photos_world) in
  sigs !! 2%nat = Some (Progress 100) /\
  sigs !! 1%nat = Some (Error ("Error converting missing.png: [Errno 2] No such file "
                              +:+ "or directory: 'missing.png'")).
Proof.
  intros self sigs. split.
  - destruct (C2_progress_is_truncated (sim_env 0) self three_photos_world 2%nat "c.jpg")
      as [Hok _].
    + vm_compute. reflexivity.
    + reflexivity.
    + destruct Hok as (v & Hv & Hsig & _); [vm_compute; reflexivity|].
      assert (Hv' : progress_value 2 3 = Ok v) by exact Hv.
      vm_compute in Hv'. injection Hv' as <-. exact Hsig.
  - destruct (C2_progress_is_truncated (sim_env 0) self three_photos_world 1%nat
                "missing.png") as [_ Herr].
    + vm_compute. reflexivity.
    + reflexivity.
    + apply Herr. vm_compute. reflexivity.
Defined.

(** ** More on strings and paths *)

Lemma str_app_assoc a b c : (a +:+ b) +:+ c = a +:+ (b +:+ c).
Proof.
  induction a as [|x a IH]; [reflexivity|].
  change ((String x a +:+ b) +:+ c) with (String x ((a +:+ b) +:+ c)).
  rewrite IH. reflexivity.
Qed.

Lemma pystr_length_nonneg s : 0 <= PyStr.length s.
Proof. induction s as [|a s IH]; simpl; lia. Qed.

Lemma pystr_length_app a b : PyStr.length (a +:+ b) = PyStr.length a + PyStr.length b.
Proof.
  induction a as [|x a IH]; [reflexivity|].
  change (String x a +:+ b) with (String x (a +:+ b)).
  cbn [PyStr.length]. rewrite IH. lia.
Qed.

Lemma pystr_take_drop n : forall s, PyStr.take n s +:+ PyStr.drop n s = s.
Proof.
  induction n as [|n IH]; intros [|a s]; try reflexivity.
  cbn [PyStr.take PyStr.drop].
  change (String a (PyStr.take n s) +:+ PyStr.drop n s)
    with (String a (PyStr.take n s +:+ PyStr.drop n s)).
  rewrite IH. reflexivity.
Qed.

Lemma pystr_drop_app a b : PyStr.drop (Z.to_nat (PyStr.length a)) (a +:+ b) = b.
Proof.
  induction a as [|x a IH]; [destruct b; reflexivity|].
  pose proof (pystr_length_nonneg a) as Hl.
  cbn [PyStr.length]. replace (Z.to_nat (1 + PyStr.length a)) with (S (Z.to_nat (PyStr.length a))) by lia.
  exact IH.
Qed.

Lemma rfind_from_app c a : forall b i acc,
  PyStr.rfind_from c (a +:+ b) i acc =
    PyStr.rfind_from c b (i + PyStr.length a) (PyStr.rfind_from c a i acc).
Proof.
  induction a as [|x a IH]; intros b i acc.
  - cbn [PyStr.length PyStr.rfind_from]. rewrite Z.add_0_r. reflexivity.
  - change (String x a +:+ b) with (String x (a +:+ b)).
    cbn [PyStr.length PyStr.rfind_from]. rewrite IH. f_equal. lia.
Qed.

Lemma rfind_from_absent c s : forall i acc,
  PyStr.all_chars (fun a => negb (Ascii.eqb a c)) s = true ->
  PyStr.rfind_from c s i acc = acc.
Proof.
  induction s as [|x s IH]; intros i acc H; [reflexivity|].
  cbn [PyStr.all_chars] in H. apply andb_true_iff in H as [Hx Hs].
  cbn [PyStr.rfind_from]. apply negb_true_iff in Hx. rewrite Hx. apply IH, Hs.
Qed.

Lemma basename_no_sep name : no_sep name = true -> PosixPath.basename name = name.
Proof.
  intros H. unfold PosixPath.basename, PyStr.rfind.
  rewrite (rfind_from_absent _ _ _ _ H). destruct name; reflexivity.
Qed.

Lemma basename_app_sep d name :
  no_sep name = true ->
  PosixPath.basename (d +:+ PosixPath.sep_str +:+ name) = name.
Proof.
  intros H. unfold PosixPath.basename, PyStr.rfind.
  rewrite rfind_from_app.
  change (PosixPath.sep_str +:+ name) with (String PosixPath.sep name).
  cbn [PyStr.rfind_from]. rewrite Ascii.eqb_refl.
  rewrite (rfind_from_absent _ _ _ _ H).
  unfold PyStr.slice_from.
  change (String PosixPath.sep name) with (PosixPath.sep_str +:+ name).
  rewrite <- str_app_assoc.
  replace (0 + PyStr.length d + 1) with (PyStr.length (d +:+ PosixPath.sep_str))
    by (rewrite pystr_length_app; reflexivity).
  apply pystr_drop_app.
Qed.

Lemma endswith_app s p :
  PyStr.endswith s p = true <-> exists a, s = a +:+ p.
Proof.
  unfold PyStr.endswith. split.
  - intros H. apply andb_true_iff in H as [_ H]. apply String.eqb_eq in H.
    exists (PyStr.take (Z.to_nat (PyStr.length s - PyStr.length p)) s).
    rewrite <- (pystr_take_drop (Z.to_nat (PyStr.length s - PyStr.length p)) s) at 1.
    f_equal. exact H.
  - intros [a ->]. rewrite pystr_length_app.
    pose proof (pystr_length_nonneg a).
    apply andb_true_iff. split; [apply Z.leb_le; lia|].
    replace (PyStr.length a + PyStr.length p - PyStr.length p) with (PyStr.length a) by lia.
    rewrite pystr_drop_app. apply String.eqb_refl.
Qed.

Lemma no_sep_startswith file :
  no_sep file = true -> PyStr.startswith file PosixPath.sep_str = false.
Proof.
  destruct file as [|a file]; [reflexivity|].
  unfold no_sep. cbn [PyStr.all_chars PyStr.startswith PosixPath.sep_str].
  intros H. apply andb_true_iff in H as [H _]. apply negb_true_iff in H.
  rewrite H. reflexivity.
Qed.

Lemma basename_join root file :
  no_sep file = true -> PosixPath.basename (PosixPath.join root file) = file.
Proof.
  intros H. unfold PosixPath.join. rewrite (no_sep_startswith _ H).
  destruct root as [|x root]; [apply basename_no_sep, H|].
  cbn [PyStr.is_empty orb].
  destruct (PyStr.endswith (String x root) PosixPath.sep_str) eqn:E.
  - apply endswith_app in E as [a ->]. rewrite str_app_assoc.
    apply basename_app_sep, H.
  - apply basename_app_sep, H.
Qed.

Lemma splitext_app p :
  fst (PosixPath.splitext p) +:+ snd (PosixPath.splitext p) = p.
Proof.
  assert (Hnil : forall s : string, s +:+ EmptyString = s).
  { induction s as [|a s IH]; [reflexivity|].
    change (String a s +:+ EmptyString) with (String a (s +:+ EmptyString)).
    rewrite IH. reflexivity. }
  unfold PosixPath.splitext.
  destruct (PyStr.rfind p PosixPath.sep <? PyStr.rfind p PosixPath.extsep); [|apply Hnil].
  destruct (PyStr.all_chars _ _); [apply Hnil|].
  apply pystr_take_drop.
Qed.

(** X3. The output path of a file depends on its name only: for a file
    name without separator, joined to any directory, the base name of the
    path is the file name, the name is its stem followed by its extension,
    and the final path is [<stem>.dds] directly in the output directory. *)
Theorem output_name_ignores_directory self root file :
  no_sep file = true ->
  let path := PosixPath.join root file in
  let stem := fst (PosixPath.splitext file) in
  PosixPath.basename path = file /\
  stem +:+ snd (PosixPath.splitext file) = file /\
  final_path_of self path = PosixPath.join (output_dir self) (stem +:+ ".dds").
Proof.
  intros H path stem. split; [apply basename_join, H|]. split; [apply splitext_app|].
  unfold final_path_of, path. rewrite (basename_join _ _ H). reflexivity.
Qed.

Lemma output_name_ignores_directory_witness :
  let self := Worker [] "out" "DXT1" in
  PosixPath.basename (PosixPath.join "album/old" "b.tar.gz") = "b.tar.gz" /\
  final_path_of self (PosixPath.join "album/old" "b.tar.gz") = "out/b.tar.dds".
Proof.
  intros self.
  destruct (output_name_ignores_directory self "album/old" "b.tar.gz") as (Hb & _ & Hf).
  - reflexivity.
  - split; [exact Hb | exact Hf].
Defined.

(** ** The calls of one conversion *)

Ltac sublist_steps :=
  repeat first [apply sublist_nil | apply sublist_skip | apply sublist_cons].

(** X4. Whatever the image library and the tool do, the conversion of a
    file makes only calls of the list: save [temp.png], run the tool, remove
    [temp.png], remove the final path, rename [temp.dds] to it; each at
    most once and in that order.  When the input cannot be decoded it makes
    none and leaves the world as it was. *)
Theorem conversion_calls_in_order env self f op w :
  let r := convert_to_dds env self f op w in
  (exists cs, calls (snd r) = calls w ++ cs /\ sublist cs (conversion_calls self f)) /\
  (forall e, image_open env f (fs w) = Raise e -> snd r = w).
Proof.
  cbv zeta. rewrite convert_to_dds_spec. cbn [snd]. split.
  - destruct (image_open env f (fs w)) as [img|e] eqn:H1.
    2:{ rewrite (convert_body_open_fails env self f w e H1).
        exists []. rewrite app_nil_r. split; [reflexivity|apply sublist_nil_l]. }
    destruct (image_save env img (temp_png self) (fs w)) as [[[]|e] f1] eqn:H2.
    2:{ rewrite (convert_body_save_fails env self f w img e f1 H1 H2).
        eexists. split; [reflexivity|]. unfold conversion_calls. sublist_steps. }
    destruct (shell env (texconv_cmd self) f1) as [[p|e] f2] eqn:H3.
    2:{ rewrite (convert_body_launch_fails env self f w img e f1 f2 H1 H2 H3).
        eexists. split; [reflexivity|]. unfold conversion_calls. sublist_steps. }
    destruct (Z.eq_dec (returncode p) 0) as [H4|H4].
    2:{ rewrite (convert_body_exit_nonzero env self f w img f1 p f2 H1 H2 H3 H4).
        eexists. split; [reflexivity|]. unfold conversion_calls. sublist_steps. }
    rewrite (convert_body_exit_zero env self f w img f1 p f2 H1 H2 H3 H4).
    rewrite finish_spec. cbv zeta.
    destruct (clean_error env self (after_tool self w f2)).
    { eexists. split; [reflexivity|]. unfold conversion_calls. sublist_steps. }
    assert (Hc : exists c1, calls (cleaned self (after_tool self w f2)) =
                   calls w ++ [SysImageSave (temp_png self); SysPopen (texconv_cmd self)] ++ c1 /\
                   (c1 = [] \/ c1 = [SysRemove (temp_png self)])).
    { unfold cleaned. destruct (fs (after_tool self w f2) !! temp_png self).
      - exists [SysRemove (temp_png self)]. cbn. rewrite <- app_assoc. auto.
      - exists []. cbn. auto. }
    destruct Hc as (c1 & Hc & Hc1).
    assert (Hr : forall c w0, exists c2,
              calls (snd (renamed env self (final_path_of self f) c w0)) = calls w0 ++ c2 /\
              (c2 = [] \/ c2 = [SysRename (temp_dds self) (final_path_of self f)])).
    { intros c w0. unfold renamed. destruct (rename_error env _ _ _).
      - exists []. rewrite app_nil_r. auto.
      - eexists. split; [reflexivity|]. auto. }
    destruct (fs (cleaned self (after_tool self w f2)) !! temp_dds self) as [c|].
    2:{ cbn [snd]. rewrite Hc. eexists. split; [reflexivity|].
        unfold conversion_calls. destruct Hc1 as [-> | ->]; cbn [app]; sublist_steps. }
    destruct (fs (cleaned self (after_tool self w f2)) !! final_path_of self f).
    + destruct (remove_error env _ _).
      { cbn [snd]. rewrite Hc. eexists. split; [reflexivity|].
        unfold conversion_calls. destruct Hc1 as [-> | ->]; cbn [app]; sublist_steps. }
      destruct (decide _).
      * cbn [snd calls]. rewrite Hc, <- !app_assoc. eexists. split; [reflexivity|].
        unfold conversion_calls. destruct Hc1 as [-> | ->]; cbn [app]; sublist_steps.
      * destruct (Hr c (World (delete (final_path_of self f)
                                 (fs (cleaned self (after_tool self w f2))))
                          (calls (cleaned self (after_tool self w f2))
                             ++ [SysRemove (final_path_of self f)]))) as (c2 & -> & Hc2).
        cbn [calls]. rewrite Hc, <- !app_assoc. eexists. split; [reflexivity|].
        unfold conversion_calls.
        destruct Hc1 as [-> | ->]; destruct Hc2 as [-> | ->]; cbn [app]; sublist_steps.
    + destruct (Hr c (cleaned self (after_tool self w f2))) as (c2 & -> & Hc2).
      rewrite Hc, <- !app_assoc. eexists. split; [reflexivity|].
      unfold conversion_calls.
      destruct Hc1 as [-> | ->]; destruct Hc2 as [-> | ->]; cbn [app]; sublist_steps.
  - intros e H1. rewrite (convert_body_open_fails env self f w e H1). reflexivity.
Qed.

Lemma conversion_calls_in_order_witness :
  let self := Worker ["missing.png"] "out" "DXT1" in
  snd (convert_to_dds (sim_env 0) self "missing.png" "out/missing.dds" photo_world) = photo_world.
Proof.
  intros self.
  destruct (conversion_calls_in_order (sim_env 0) self "missing.png" "out/missing.dds" photo_world)
    as [_ H].
  apply (H "[Errno 2] No such file or directory: 'missing.png'"). reflexivity.
Defined.

(** X5. Once the tool has been run, the worker itself touches three
    paths only: every other path, the input file among them when it is
    none of the three, holds after the conversion what the tool left
    there, whatever the return code. *)
Theorem conversion_keeps_other_files env self f op w img f1 p f2 k :
  image_open env f (fs w) = Ok img ->
  image_save env img (temp_png self) (fs w) = (Ok tt, f1) ->
  shell env (texconv_cmd self) f1 = (Ok p, f2) ->
  k <> temp_png self -> k <> temp_dds self -> k <> final_path_of self f ->
  fs (snd (convert_to_dds env self f op w)) !! k = f2 !! k.
Proof.
  intros H1 H2 H3 Hk1 Hk2 Hk3. rewrite convert_to_dds_spec. cbn [snd].
  destruct (Z.eq_dec (returncode p) 0) as [H4|H4].
  2:{ rewrite (convert_body_exit_nonzero env self f w img f1 p f2 H1 H2 H3 H4). reflexivity. }
  rewrite (convert_body_exit_zero env self f w img f1 p f2 H1 H2 H3 H4).
  rewrite finish_spec. cbv zeta.
  destruct (clean_error env self (after_tool self w f2)); [reflexivity|].
  pose proof (cleaned_lookup self (after_tool self w f2) k Hk1) as Hc. cbn [after_tool fs] in Hc.
  assert (Hr : forall c w0,
            fs (snd (renamed env self (final_path_of self f) c w0)) !! k = fs w0 !! k).
  { intros c w0. unfold renamed. destruct (rename_error env _ _ _); [reflexivity|].
    cbn [snd fs]. rewrite lookup_insert_ne, lookup_delete_ne by congruence. reflexivity. }
  destruct (fs (cleaned self (after_tool self w f2)) !! temp_dds self); [|exact Hc].
  destruct (fs (cleaned self (after_tool self w f2)) !! final_path_of self f).
  - destruct (remove_error env _ _); [exact Hc|].
    destruct (decide _); rewrite ?Hr; cbn [snd fs];
      rewrite lookup_delete_ne by congruence; exact Hc.
  - rewrite Hr. exact Hc.
Qed.

Lemma conversion_keeps_other_files_witness :
  let self := Worker ["photo.jpg"] "out" "DXT1" in
  fs (snd (convert_to_dds (sim_env 0) self "photo.jpg" "out/photo.dds" photo_world))
    !! "photo.jpg" = Some "JPEG".
Proof.
  intros self.
  rewrite (conversion_keeps_other_files (sim_env 0) self "photo.jpg" "out/photo.dds"
             photo_world "JPEG"
             (<["out/temp.png" := "PNG of JPEG"]> (fs photo_world))
             (Completed 0 "texconv: failed")
             (<["out/temp.dds" := "DDS of PNG of JPEG"]>
                (<["out/temp.png" := "PNG of JPEG"]> (fs photo_world)))
             "photo.jpg").
  - vm_compute. reflexivity.
  - reflexivity.
  - reflexivity.
  - vm_compute. reflexivity.
  - discriminate.
  - discriminate.
  - discriminate.
Defined.

(** X6. A tool run that exits with zero without leaving [temp.dds] is
    taken for a success: when the removal of [temp.png] raises nothing, the
    conversion returns normally, nothing is renamed, and the file system is
    what the tool left, less [temp.png]; the final path holds what it held
    before. *)
Theorem missing_tool_output_is_not_noticed env self f op w img f1 p f2 :
  image_open env f (fs w) = Ok img ->
  image_save env img (temp_png self) (fs w) = (Ok tt, f1) ->
  shell env (texconv_cmd self) f1 = (Ok p, f2) ->
  returncode p = 0 ->
  f2 !! temp_dds self = None ->
  remove_error env (temp_png self) f2 = None ->
  let r := convert_to_dds env self f op w in
  fst r = Ok tt /\
  fs (snd r) = delete (temp_png self) f2 /\
  fs (snd r) !! final_path_of self f = f2 !! final_path_of self f /\
  (forall total i, signal_of total i (fst r) = signal_of total i (Ok tt)).
Proof.
  intros H1 H2 H3 H4 H5 H6. cbv zeta. rewrite convert_to_dds_spec.
  rewrite (convert_body_exit_zero env self f w img f1 p f2 H1 H2 H3 H4).
  rewrite finish_spec. cbv zeta.
  rewrite (clean_error_none env self (after_tool self w f2) H6).
  pose proof (temp_dds_not_temp_png self) as Hd.
  pose proof (final_path_not_temp_png self f) as Hf.
  rewrite (cleaned_lookup self _ (temp_dds self) Hd). cbn [after_tool fs]. rewrite H5.
  cbn [fst snd].
  assert (Hfs : fs (cleaned self (after_tool self w f2)) = delete (temp_png self) f2).
  { unfold cleaned. cbn [after_tool fs].
    destruct (f2 !! temp_png self) eqn:E; [reflexivity|].
    cbn [fs]. symmetry. apply delete_id, E. }
  repeat split.
  - exact Hfs.
  - rewrite Hfs. apply lookup_delete_ne. congruence.
Qed.

Lemma missing_tool_output_is_not_noticed_witness :
  let self := Worker ["photo.jpg"] "dst" "DXT1" in
  let r := convert_to_dds (sim_env 0) self "photo.jpg" "dst/photo.dds" photo_world in
  fst r = Ok tt /\ fs (snd r) !! "dst/photo.dds" = None.
Proof.
  intros self r.
  destruct (missing_tool_output_is_not_noticed (sim_env 0) self "photo.jpg" "dst/photo.dds"
              photo_world "JPEG"
              (<["dst/temp.png" := "PNG of JPEG"]> (fs photo_world))
              (Completed 0 "texconv: failed")
              (<["dst/temp.png" := "PNG of JPEG"]> (fs photo_world)))
    as (Hok & _ & Hfinal & _).
  - reflexivity.
  - reflexivity.
  - vm_compute. reflexivity.
  - reflexivity.
  - vm_compute. reflexivity.
  - reflexivity.
  - split; [exact Hok|]. etransitivity; [exact Hfinal|]. vm_compute. reflexivity.
Defined.

(** ** The tool runs of a job *)





(** ** Progress in a job with failures *)

Lemma start_progress_value env self w i v :
  Z.of_nat (List.length (files self)) < 2 ^ 53 ->
  fst (start env self w) !! i = Some (Progress v) ->
  (i < List.length (files self))%nat /\
  v = int_of_pair (progress_pair (Z.of_nat i + 1) (Z.of_nat (List.length (files self)))).
Proof.
  intros HN H.
  assert (Hlt : (i < List.length (files self))%nat).
  { destruct (Nat.lt_trichotomy i (List.length (files self))) as [Hi | [-> | Hi]]; [exact Hi| |].
    - rewrite start_last in H. discriminate.
    - rewrite lookup_ge_None_2 in H; [discriminate|]. rewrite start_length. lia. }
  split; [exact Hlt|].
  destruct (lookup_lt_is_Some_2 (files self) i Hlt) as [f Hf].
  rewrite (start_lookup env self w i f Hf) in H. apply (inj Some) in H.
  unfold signal_of in H.
  rewrite progress_value_spec in H by lia.
  destruct (fst (convert_to_dds _ _ _ _ _)); [|discriminate].
  congruence.
Qed.

(** X8. Whatever fails in a job, the progress values that are reported
    never decrease; and for fewer than [2^44] files the value 100 is reported
    for the last file only, when its conversion succeeds. *)
Theorem progress_never_goes_back env self w i j v v' :
  let N := List.length (files self) in
  let sigs := fst (start env self w) in
  Z.of_nat N < 2 ^ 53 ->
  (i <= j)%nat ->
  sigs !! i = Some (Progress v) ->
  sigs !! j = Some (Progress v') ->
  v <= v' /\
  (Z.of_nat N < 2 ^ 44 -> (v = 100 <-> S i = N)).
Proof.
  intros N sigs HN Hij Hi Hj.
  apply (start_progress_value env self w i v HN) in Hi as [Hi Hv].
  apply (start_progress_value env self w j v' HN) in Hj as [Hj Hv'].
  fold N in Hi, Hj, Hv, Hv'.
  split.
  - rewrite Hv, Hv'. apply progress_pair_mono; lia.
  - intros HN44. split.
    + intros H100. destruct (Nat.eq_dec (S i) N) as [He|Hne]; [exact He|exfalso].
      destruct (progress_floor (Z.of_nat i + 1) (Z.of_nat N) ltac:(lia) HN44) as [[_ Hle] _].
      rewrite <- Hv, H100 in Hle.
      assert (100 * (Z.of_nat i + 1) / Z.of_nat N < 100); [|lia].
      apply Z.div_lt_upper_bound; lia.
    + intros He. rewrite Hv. replace (Z.of_nat i + 1) with (Z.of_nat N) by lia.
      apply progress_pair_last. lia.
Qed.

Lemma progress_never_goes_back_witness :
  let self := Worker ["a.jpg"; "missing.png"; "c.jpg"] "out" "DXT1" in
  let sigs := fst (start (sim_env 0) self three_photos_world) in
  sigs !! 0%nat = Some (Progress 33) /\ sigs !! 2%nat = Some (Progress 100) /\ 33 <= 100.
Proof.
  intros self sigs.
  assert (H0 : sigs !! 0%nat = Some (Progress 33)) by (vm_compute; reflexivity).
  assert (H2 : sigs !! 2%nat = Some (Progress 100)) by (vm_compute; reflexivity).
  split; [exact H0|]. split; [exact H2|].
  apply (progress_never_goes_back (sim_env 0) self three_photos_world 0 2 33 100).
  - vm_compute. reflexivity.
  - lia.
  - exact H0.
  - exact H2.
Defined.

(** ** The window during and after a job *)

Lemma progress_reports_app a b :
  progress_reports (a ++ b) = progress_reports a ++ progress_reports b.
Proof. unfold progress_reports. apply flat_map_app. Qed.

Lemma progress_bar_deliver sigs : forall g,
  progress_bar_value (foldl deliver g sigs) =
    default (progress_bar_value g) (last (progress_reports sigs)).
Proof.
  induction sigs as [|sg sigs IH]; intros g; [reflexivity|].
  cbn [foldl]. rewrite IH.
  change (sg :: sigs) with ([sg] ++ sigs). rewrite progress_reports_app.
  destruct sg as [v| |]; cbn.
  - destruct (progress_reports sigs) as [|x l] eqn:E; [reflexivity|].
    change (v :: x :: l) with ([v] ++ x :: l). rewrite last_app. cbn.
    destruct (last (x :: l)); reflexivity.
  - reflexivity.
  - reflexivity.
Qed.

(** X9. A job starts with the progress bar at 0, whatever an earlier job
    left there, and each progress signal sets it: when the job is over the
    bar holds the last value reported, or 0 when no file was converted. *)
Theorem progress_bar_holds_last_report env fl chosen g w :
  chosen <> EmptyString ->
  let sigs := fst (start env (Worker fl chosen (format_combo g)) w) in
  progress_bar_value (fst (convert_files env fl chosen (g, w))) =
    default 0 (last (progress_reports sigs)).
Proof.
  intros Hne sigs. unfold convert_files. apply is_empty_false in Hne. rewrite Hne.
  cbn [format_combo set_progress_value set_progress_visible].
  fold sigs.
  destruct (start env (Worker fl chosen (format_combo g)) w) as [s w'] eqn:Es.
  subst sigs. cbn [fst]. rewrite progress_bar_deliver. reflexivity.
Qed.

Lemma progress_bar_holds_last_report_witness :
  let g := set_progress_value 57 setup_ui in
  progress_bar_value (fst (convert_files (sim_env 0) ["a.png"; "b.png"] "out" (g, photo_world)))
    = 0.
Proof.
  intros g.
  rewrite (progress_bar_holds_last_report (sim_env 0) ["a.png"; "b.png"] "out" g photo_world).
  - vm_compute. reflexivity.
  - discriminate.
Defined.

Lemma started_deliver sigs : forall g,
  started (foldl deliver g sigs) = started g.
Proof.
  induction sigs as [|sg sigs IH]; intros g; [reflexivity|].
  cbn [foldl]. rewrite IH. destruct sg; reflexivity.
Qed.

(** X10. A file chosen in the file dialog becomes a job of that one file,
    in the chosen output directory and with the current format; its worker
    reports either progress 100 or one error that names the file, and then
    the completion. *)
Theorem select_file_starts_one_file_job env file_path chosen g w :
  file_path <> EmptyString ->
  chosen <> EmptyString ->
  let k := Worker [file_path] chosen (format_combo g) in
  let st := select_file env file_path chosen (g, w) in
  let sigs := fst (start env k w) in
  started (fst st) = started g ++ [k] /\
  snd st = snd (start env k w) /\
  (sigs = [Progress 100; Finished] \/
   exists e, sigs = [Error e; Finished] /\ PyStr.contains e file_path = true).
Proof.
  intros Hf Hc k st sigs.
  assert (Hst : st = convert_files env [file_path] chosen (g, w)).
  { unfold st, select_file. apply is_empty_false in Hf. rewrite Hf. reflexivity. }
  split; [|split].
  - rewrite Hst. unfold convert_files. apply is_empty_false in Hc. rewrite Hc.
    cbn [format_combo set_progress_value set_progress_visible]. fold k.
    destruct (start env k w). cbn [fst]. rewrite started_deliver. reflexivity.
  - rewrite Hst. unfold convert_files. apply is_empty_false in Hc. rewrite Hc.
    cbn [format_combo set_progress_value set_progress_visible]. fold k.
    destruct (start env k w). reflexivity.
  - unfold sigs. rewrite start_spec. cbn [fst files k outcomes List.length].
    destruct (convert_to_dds env k file_path (output_path_of k file_path) w) as [r w'] eqn:E.
    cbn [signals_from app]. destruct r as [[]|e].
    + left. reflexivity.
    + right. exists e. split; [reflexivity|].
      pose proof (convert_to_dds_raise env k file_path (output_path_of k file_path) w e) as H.
      rewrite E in H. destruct (H eq_refl) as [inner ->].
      apply (contains_app "Error converting " file_path).
Qed.

Lemma select_file_starts_one_file_job_witness :
  let st := select_file (sim_env 0) "photo.jpg" "out" (setup_ui, photo_world) in
  started (fst st) = [Worker ["photo.jpg"] "out" "DXT1"] /\
  fs (snd st) !! "out/photo.dds" = Some "DDS of PNG of JPEG".
Proof.
  intros st.
  destruct (select_file_starts_one_file_job (sim_env 0) "photo.jpg" "out" setup_ui photo_world)
    as (Hs & Hw & _).
  - discriminate.
  - discriminate.
  - split; [exact Hs|]. fold st in Hw. rewrite Hw. vm_compute. reflexivity.
Defined.

Lemma in_collect_images tree path :
  In path (collect_images tree) <->
  exists root dirs names file,
    In (root, dirs, names) tree /\ In file names /\
    PyStr.endswith_any (PyStr.lower file) image_extensions = true /\
    path = PosixPath.join root file.
Proof.
  unfold collect_images. rewrite in_flat_map. split.
  - intros ([[root dirs] names] & Ht & H). apply in_flat_map in H as (file & Hf & H).
    destruct (PyStr.endswith_any (PyStr.lower file) image_extensions) eqn:E; [|destruct H].
    destruct H as [<- | []]. exists root, dirs, names, file. auto.
  - intros (root & dirs & names & file & Ht & Hf & E & ->).
    exists (root, dirs, names). split; [exact Ht|].
    apply in_flat_map. exists file. split; [exact Hf|]. rewrite E. left. reflexivity.
Qed.

Lemma endswith_any_app s ps :
  PyStr.endswith_any s ps = true <-> exists stem ext, In ext ps /\ s = stem +:+ ext.
Proof.
  unfold PyStr.endswith_any. rewrite existsb_exists. split.
  - intros (ext & Hin & H). apply endswith_app in H as [stem ->]. eauto.
  - intros (stem & ext & Hin & ->). exists ext. split; [exact Hin|].
    apply endswith_app. eauto.
Qed.

(** X11. The images of a selected folder are the files of the walk whose
    name, in lower case, ends with one of [.png], [.jpg], [.jpeg], [.svg],
    each joined to the directory in which the walk found it; when there is
    one at least, [select_folder] hands them all to one job, which is started
    once the output directory is chosen. *)
Theorem select_folder_converts_the_images env folder_path chosen g w :
  folder_path <> EmptyString ->
  let tree := os_walk env folder_path (fs w) in
  let images := collect_images tree in
  let st := select_folder env folder_path chosen (g, w) in
  (forall path,
     In path images <->
     exists root dirs names file stem ext,
       In (root, dirs, names) tree /\ In file names /\
       In ext [".png"; ".jpg"; ".jpeg"; ".svg"] /\
       PyStr.lower file = stem +:+ ext /\
       path = PosixPath.join root file) /\
  (images <> [] -> st = convert_files env images chosen (g, w)) /\
  (images <> [] -> chosen <> EmptyString ->
   started (fst st) = started g ++ [Worker images chosen (format_combo g)]).
Proof.
  intros Hne tree images st.
  assert (Hst : images <> [] -> st = convert_files env images chosen (g, w)).
  { intros Hi. unfold st, select_folder. apply is_empty_false in Hne. rewrite Hne.
    cbn [negb snd]. fold tree. fold images. destruct images; [contradiction|reflexivity]. }
  split; [|split; [exact Hst|]].
  - intros path. unfold images. rewrite in_collect_images. split.
    + intros (root & dirs & names & file & Ht & Hf & E & ->).
      apply endswith_any_app in E as (stem & ext & Hin & E).
      exists root, dirs, names, file, stem, ext. auto.
    + intros (root & dirs & names & file & stem & ext & Ht & Hf & Hin & E & ->).
      exists root, dirs, names, file. repeat split; try assumption.
      apply endswith_any_app. eauto.
  - intros Hi Hc. rewrite (Hst Hi).
    unfold convert_files. apply is_empty_false in Hc. rewrite Hc.
    cbn [format_combo set_progress_value set_progress_visible].
    destruct (start env (Worker images chosen (format_combo g)) w). cbn [fst].
    rewrite started_deliver. reflexivity.
Qed.

Lemma select_folder_converts_the_images_witness :
  let st := select_folder album_env "album" "out" (setup_ui, album_world) in
  started (fst st) = [Worker ["album/a.PNG"; "album/old/b.jpeg"] "out" "DXT1"].
Proof.
  intros st.
  destruct (select_folder_converts_the_images album_env "album" "out" setup_ui album_world)
    as (_ & _ & H).
  - discriminate.
  - apply H; discriminate.
Defined.

(** X12. A cancelled dialog changes nothing: no file chosen, no folder
    chosen, or no output directory chosen (an empty answer) leaves the window
    and the world as they were; in particular a folder with images followed
    by a cancelled output dialog opens no message box and starts no worker. *)
Theorem cancelled_dialog_changes_nothing env st :
  (forall chosen, select_file env EmptyString chosen st = st) /\
  (forall chosen, select_folder env EmptyString chosen st = st) /\
  (forall fl, convert_files env fl EmptyString st = st) /\
  (forall file_path, select_file env file_path EmptyString st = st) /\
  (forall folder_path,
     collect_images (os_walk env folder_path (fs (snd st))) <> [] ->
     select_folder env folder_path EmptyString st = st).
Proof.
  destruct st as [g w]. repeat split; try reflexivity.
  - intros file_path. unfold select_file. destruct (PyStr.is_empty file_path); reflexivity.
  - intros folder_path Hi. unfold select_folder.
    destruct (PyStr.is_empty folder_path); [reflexivity|]. cbn [negb].
    destruct (collect_images _); [contradiction|reflexivity].
Qed.

Lemma cancelled_dialog_changes_nothing_witness :
  select_folder album_env "album" EmptyString (setup_ui, album_world) = (setup_ui, album_world).
Proof.
  destruct (cancelled_dialog_changes_nothing album_env (setup_ui, album_world))
    as (_ & _ & _ & _ & H).
  apply H. discriminate.
Defined.

(** X13. The start-up check looks at nothing but whether [texconv -help]
    could be launched: the event loop is reached exactly when the launch does
    not raise, whatever the return code; the window is then shown as
    [setup_ui] built it, with no message box, and nothing is started. *)
Theorem startup_passes_when_tool_launches env :
  ((exists p, texconv_help env = Ok p) <-> (exists g, main env = EventLoop g)) /\
  (forall g, main env = EventLoop g ->
     shown g = true /\ boxes g = [] /\ started g = [] /\
     format_combo g = "DXT1" /\
     file_btn_enabled g = true /\ folder_btn_enabled g = true /\
     progress_bar_visible g = false /\ status_label g = EmptyString).
Proof.
  unfold main, init, check_texconv.
  destruct (texconv_help env) as [p|e]; cbn [negb]; split.
  - split; eauto.
  - intros g [= <-]. repeat split.
  - split; [intros [p H]; discriminate | intros [g H]; discriminate].
  - intros g H. discriminate.
Qed.

Lemma startup_passes_when_tool_launches_witness :
  returncode (Completed 1 "usage") <> 0 /\
  exists g, main album_env = EventLoop g /\ shown g = true /\ boxes g = [].
Proof.
  split; [discriminate|].
  destruct (startup_passes_when_tool_launches album_env) as [[H _] Hg].
  destruct H as [g Hmain]; [eexists; reflexivity|].
  exists g. split; [exact Hmain|].
  destruct (Hg g Hmain) as (Hs & Hb & _). auto.
Defined.

(** ** What a failure of the tool shows *)

(** X14. When the tool exits with a non-zero code for a file of a job,
    the signal of that file is an error whose text is [Error converting
    <path>: Conversion failed: ] followed by what the tool wrote on stderr;
    when those bytes cannot be decoded, the text of the decoding error takes
    the place of [Conversion failed: ...].  Nothing is cleaned up after such
    a run: the file system is as the tool left it. *)
Theorem tool_failure_shows_stderr env self w n f img f1 p f2 :
  files self !! n = Some f ->
  let w1 := world_after env self (take n (files self)) w in
  image_open env f (fs w1) = Ok img ->
  image_save env img (temp_png self) (fs w1) = (Ok tt, f1) ->
  shell env (texconv_cmd self) f1 = (Ok p, f2) ->
  returncode p <> 0 ->
  fst (start env self w) !! n =
    Some (Error ("Error converting " +:+ f +:+ ": " +:+
                 match bytes_decode env (stderr p) with
                 | Ok text => "Conversion failed: " +:+ text
                 | Raise e => e
                 end)) /\
  fs (world_after env self (take (S n) (files self)) w) = f2.
Proof.
  intros Hn w1 H1 H2 H3 H4. split.
  - rewrite (start_lookup env self w n f Hn). fold w1.
    rewrite convert_to_dds_spec.
    rewrite (convert_body_exit_nonzero env self f w1 img f1 p f2 H1 H2 H3 H4).
    reflexivity.
  - rewrite (take_S_r _ _ _ Hn), world_after_snoc. fold w1.
    rewrite convert_to_dds_spec.
    rewrite (convert_body_exit_nonzero env self f w1 img f1 p f2 H1 H2 H3 H4).
    reflexivity.
Qed.

Lemma tool_failure_shows_stderr_witness :
  let self := Worker ["photo.jpg"] "out" "DXT1" in
  fst (start (sim_env 1) self photo_world) !! 0%nat =
    Some (Error "Error converting photo.jpg: Conversion failed: texconv: failed") /\
  fs (snd (start (sim_env 1) self photo_world)) !! "out/temp.png" = Some "PNG of JPEG".
Proof.
  intros self.
  destruct (tool_failure_shows_stderr (sim_env 1) self photo_world 0 "photo.jpg" "JPEG"
              (<["out/temp.png" := "PNG of JPEG"]> (fs photo_world))
              (Completed 1 "texconv: failed")
              (<["out/temp.png" := "PNG of JPEG"]> (fs photo_world))) as [Hsig Hfs].
  - reflexivity.
  - reflexivity.
  - reflexivity.
  - reflexivity.
  - discriminate.
  - split; [exact Hsig|]. vm_compute. reflexivity.
Defined.

(** ** Jobs of files that cannot be decoded *)

Lemma world_after_undecodable env self fl : forall w,
  (forall f, In f fl -> exists e, image_open env f (fs w) = Raise e) ->
  world_after env self fl w = w.
Proof.
  induction fl as [|f rest IH]; intros w H; [reflexivity|].
  cbn [world_after].
  destruct (H f (or_introl eq_refl)) as [e He].
  rewrite convert_to_dds_spec, (convert_body_open_fails env self f w e He). cbn [snd].
  apply IH. intros f' Hf'. apply H. right. exact Hf'.
Qed.

(** X15. A job none of whose files can be decoded leaves the world as it
    was: no temporary file is written, the tool is not run, nothing is
    removed or renamed; each file gets an error signal with the text of its
    decoding error. *)
Theorem undecodable_job_leaves_no_trace env self w :
  (forall f, In f (files self) -> exists e, image_open env f (fs w) = Raise e) ->
  snd (start env self w) = w /\
  (forall n f,
     files self !! n = Some f ->
     exists e, image_open env f (fs w) = Raise e /\
               fst (start env self w) !! n =
                 Some (Error ("Error converting " +:+ f +:+ ": " +:+ e))).
Proof.
  intros H. split.
  - rewrite start_world. apply world_after_undecodable, H.
  - intros n f Hn.
    assert (Hin : In f (files self)).
    { apply list_elem_of_In. eapply list_elem_of_lookup_2, Hn. }
    destruct (H f Hin) as [e He]. exists e. split; [exact He|].
    rewrite (start_lookup env self w n f Hn).
    rewrite world_after_undecodable.
    + rewrite convert_to_dds_spec, (convert_body_open_fails env self f w e He). reflexivity.
    + intros f' Hf'. apply H. apply list_elem_of_In.
      apply list_elem_of_In, elem_of_take in Hf' as (i & Hi & _).
      eapply list_elem_of_lookup_2, Hi.
Qed.

Lemma undecodable_job_leaves_no_trace_witness :
  snd (start (sim_env 0) (Worker ["a.png"; "b.png"] "out" "DXT1") photo_world) = photo_world.
Proof.
  destruct (undecodable_job_leaves_no_trace (sim_env 0) (Worker ["a.png"; "b.png"] "out" "DXT1")
              photo_world) as [H _].
  - intros f [<- | [<- | []]]; eexists; reflexivity.
  - exact H.
Defined.

(** ** The window while a job runs *)

Lemma convert_files_busy env fl chosen g w :
  chosen <> EmptyString ->
  convert_files env fl chosen (g, w) =
    (foldl deliver (busy_window fl chosen g)
       (fst (start env (Worker fl chosen (format_combo g)) w)),
     snd (start env (Worker fl chosen (format_combo g)) w)).
Proof.
  intros Hc. unfold convert_files, busy_window. apply is_empty_false in Hc. rewrite Hc.
  cbn [format_combo set_progress_value set_progress_visible].
  destruct (start env (Worker fl chosen (format_combo g)) w). reflexivity.
Qed.

Lemma signal_of_not_finished total i r : signal_of total i r <> Finished.
Proof.
  unfold signal_of. destruct r; [destruct (progress_value i total)|]; discriminate.
Qed.

Lemma signals_from_not_finished total rs : forall i,
  Forall (fun sg => sg <> Finished) (signals_from total i rs).
Proof.
  induction rs as [|r rs IH]; intros i; cbn [signals_from]; constructor;
    [apply signal_of_not_finished|apply IH].
Qed.

Lemma deliver_keeps_busy sigs : forall g,
  Forall (fun sg => sg <> Finished) sigs ->
  let g' := foldl deliver g sigs in
  file_btn_enabled g' = file_btn_enabled g /\
  folder_btn_enabled g' = folder_btn_enabled g /\
  progress_bar_visible g' = progress_bar_visible g /\
  worker g' = worker g.
Proof.
  induction sigs as [|sg sigs IH]; intros g H; cbv zeta; [auto|].
  apply Forall_cons in H as [Hsg H]. cbn [foldl].
  destruct (IH (deliver g sg) H) as (-> & -> & -> & ->).
  destruct sg; [| |contradiction]; auto.
Qed.

(** X16. From the return of [convert_files] until the completion signal
    is delivered, that is after any number of the signals of the files, both
    buttons are disabled, the progress bar is visible and the window holds
    the worker of the job. *)
Theorem buttons_disabled_while_job_runs env fl chosen g w n :
  chosen <> EmptyString ->
  (n <= List.length fl)%nat ->
  let k := Worker fl chosen (format_combo g) in
  let sigs := fst (start env k w) in
  let g' := foldl deliver (busy_window fl chosen g) (take n sigs) in
  fst (convert_files env fl chosen (g, w)) = foldl deliver g' (drop n sigs) /\
  file_btn_enabled g' = false /\
  folder_btn_enabled g' = false /\
  progress_bar_visible g' = true /\
  worker g' = Some k.
Proof.
  intros Hc Hn k sigs g'. split.
  - rewrite (convert_files_busy env fl chosen g w Hc). cbn [fst]. fold k. fold sigs.
    unfold g'. rewrite <- foldl_app, take_drop. reflexivity.
  - assert (Hnf : Forall (fun sg => sg <> Finished) (take n sigs)).
    { unfold sigs. rewrite start_spec. cbn [fst files k].
      rewrite take_app_le by (rewrite signals_from_length, outcomes_length; exact Hn).
      apply Forall_take, signals_from_not_finished. }
    destruct (deliver_keeps_busy (take n sigs) (busy_window fl chosen g) Hnf)
      as (H1 & H2 & H3 & H4).
    fold g' in H1, H2, H3, H4. rewrite H1, H2, H3, H4. repeat split.
Qed.

Lemma buttons_disabled_while_job_runs_witness :
  let sigs := fst (start (sim_env 0) (Worker ["a.jpg"; "b.jpg"; "c.jpg"] "out" "DXT1")
                     three_photos_world) in
  let g' := foldl deliver (busy_window ["a.jpg"; "b.jpg"; "c.jpg"] "out" setup_ui)
              (take 2 sigs) in
  file_btn_enabled g' = false /\ status_label g' = "Converting... 66%".
Proof.
  intros sigs g'.
  destruct (buttons_disabled_while_job_runs (sim_env 0) ["a.jpg"; "b.jpg"; "c.jpg"] "out"
              setup_ui three_photos_world 2) as (_ & H & _).
  - discriminate.
  - cbn. lia.
  - split; [exact H|]. vm_compute. reflexivity.
Defined.

Lemma status_deliver sigs : forall g,
  Forall (fun sg => sg <> Finished) sigs ->
  status_label (foldl deliver g sigs) =
    match last (progress_reports sigs) with
    | Some v => "Converting... " +:+ pretty v +:+ "%"
    | None => status_label g
    end.
Proof.
  induction sigs as [|sg sigs IH]; intros g H; [reflexivity|].
  apply Forall_cons in H as [Hsg H]. cbn [foldl]. rewrite (IH _ H).
  change (sg :: sigs) with ([sg] ++ sigs). rewrite progress_reports_app.
  destruct sg as [v| |]; [| |contradiction].
  - change (progress_reports [Progress v] ++ progress_reports sigs)
      with (v :: progress_reports sigs).
    destruct (progress_reports sigs) as [|x l] eqn:E; [reflexivity|].
    change (v :: x :: l) with ([v] ++ x :: l). rewrite last_app.
    destruct (last (x :: l)) eqn:El; [reflexivity|].
    apply last_None in El. discriminate.
  - reflexivity.
Qed.

(** X17. While a job runs the status line reads [Converting... v%] for
    the last progress value [v] delivered so far; until the first progress
    signal arrives it still reads what it read before the job, since
    [convert_files] does not reset it, and error signals leave it alone. *)
Theorem status_shows_last_progress env fl chosen g w n :
  chosen <> EmptyString ->
  (n <= List.length fl)%nat ->
  let sigs := fst (start env (Worker fl chosen (format_combo g)) w) in
  let g' := foldl deliver (busy_window fl chosen g) (take n sigs) in
  status_label g' =
    match last (progress_reports (take n sigs)) with
    | Some v => "Converting... " +:+ pretty v +:+ "%"
    | None => status_label g
    end.
Proof.
  intros Hc Hn sigs g'. unfold g'. rewrite status_deliver; [reflexivity|].
  unfold sigs. rewrite start_spec. cbn [fst files].
  rewrite take_app_le by (rewrite signals_from_length, outcomes_length; exact Hn).
  apply Forall_take, signals_from_not_finished.
Qed.

Lemma status_shows_last_progress_witness :
  let g := conversion_finished setup_ui in
  let sigs := fst (start (sim_env 0) (Worker ["missing.png"] "out" "DXT1") photo_world) in
  let g' := foldl deliver (busy_window ["missing.png"] "out" g) (take 1 sigs) in
  status_label g' = "Conversion completed successfully!" /\
  List.length (List.filter is_critical (boxes g')) = 1%nat.
Proof.
  intros g sigs g'. split; [|vm_compute; reflexivity].
  etransitivity.
  - apply (status_shows_last_progress (sim_env 0) ["missing.png"] "out" g photo_world 1).
    + discriminate.
    + cbn. lia.
  - vm_compute. reflexivity.
Defined.

(** ** Error signals and failed conversions *)

(** X18. In a job of fewer than [2^53] files the computation of the
    progress value never fails: the signal of a file is an error exactly
    when its conversion raised, with the text of that exception, and a
    progress signal exactly when its conversion returned. *)
Theorem errors_are_exactly_failed_conversions env self w n f :
  let N := List.length (files self) in
  let sigs := fst (start env self w) in
  let r := fst (convert_to_dds env self f (output_path_of self f)
                  (world_after env self (take n (files self)) w)) in
  Z.of_nat N < 2 ^ 53 ->
  files self !! n = Some f ->
  (forall e, sigs !! n = Some (Error e) <-> r = Raise e) /\
  ((exists v, sigs !! n = Some (Progress v)) <-> r = Ok tt).
Proof.
  intros N sigs r HN Hn.
  assert (Hlt : (n < N)%nat) by (eapply lookup_lt_Some, Hn).
  unfold sigs. rewrite (start_lookup env self w n f Hn). fold r. fold N.
  unfold signal_of. rewrite progress_value_spec by lia.
  destruct r as [[]|e0]; split.
  - intros e. split; intros H; [apply (inj Some) in H|]; discriminate.
  - split; eauto.
  - intros e. split; intros H; [apply (inj Some) in H|]; congruence.
  - split; [intros [v H]; apply (inj Some) in H|intros H]; discriminate.
Qed.

Lemma errors_are_exactly_failed_conversions_witness :
  let self := Worker ["missing.png"; "photo.jpg"] "out" "DXT3" in
  fst (convert_to_dds (sim_env 0) self "photo.jpg" (output_path_of self "photo.jpg")
         (world_after (sim_env 0) self ["missing.png"] photo_world)) = Ok tt.
Proof.
  intros self.
  destruct (errors_are_exactly_failed_conversions (sim_env 0) self photo_world 1 "photo.jpg")
    as [_ [H _]].
  - vm_compute. reflexivity.
  - reflexivity.
  - apply H. eexists. vm_compute. reflexivity.
Defined.
